(** * InvasionRCT2: desktop peeps

    A shallow embedding of [InvasionRCT2.py]: the sprite metadata loader, the
    sprite sheet cache, the [SpriteAnimator] and the [DesktopPeep] built on
    it, followed by the properties of the animation and movement logic.

    Conventions of the embedding.
    - Python [int] is [Z]. Python [float] is [Q]: every float the program
      computes on the paths modelled here is a sum of integers and of the
      speeds [1.0] and [0.5], which binary floating point represents and adds
      exactly, so rational arithmetic agrees with it.
    - [dict] is stdpp's [gmap], [list] is [list].
    - The wall clock and the random generator are read from an explicit
      [World]; a method that reads them or that can raise lives in the
      monad [Py].
    - What the program gets from the file system and from Qt is gathered in
      a record [Platform] that the loading functions take as an argument. *)

From Stdlib Require Import ZArith QArith Qminmax Qabs String Ascii List Lia.
From Stdlib Require Import DecimalString.
From stdpp Require Import gmap strings list fin_maps.

Local Open Scope Z_scope.

(** ** Python values and built-ins *)

Module Py.

(** The exceptions the modelled code can raise. *)
Inductive exn : Set :=
| IndexError
| ValueError.

Inductive result (A : Type) : Type :=
| Ok (a : A)
| Raise (e : exn).
Arguments Ok {A} a.
Arguments Raise {A} e.

(** The part of the outside world that changes between two reads: the
    wall clock in milliseconds ([int(time.time() * 1000)]) and the
    entropy the [random] module draws from. [wall_clock k] is the k-th
    reading, [entropy k] the k-th raw draw. *)
Record World : Type := mkWorld {
  wall_clock : nat -> Z;
  clock_reads : nat;
  entropy : nat -> N;
  draws : nat
}.

Definition M (A : Type) : Type := World -> result (A * World).

Definition ret {A} (a : A) : M A := fun w => Ok (a, w).

Definition bind {A B} (f : A -> M B) (c : M A) : M B :=
  fun w =>
    match c w with
    | Ok (a, w') => f a w'
    | Raise e => Raise e
    end.

Definition raise {A} (e : exn) : M A := fun _ => Raise e.

(** [int(time.time() * 1000)] *)
Definition time_ms : M Z :=
  fun w =>
    Ok (wall_clock w (clock_reads w),
        mkWorld (wall_clock w) (S (clock_reads w)) (entropy w) (draws w)).

(** [random.Random._randbelow(n)] for [n > 0]: the next raw draw reduced
    into [0 .. n-1]. *)
Definition randbelow (n : Z) : M Z :=
  fun w =>
    Ok (Z.of_N (entropy w (draws w)) mod n,
        mkWorld (wall_clock w) (clock_reads w) (entropy w) (S (draws w))).

(** [random.randint(a, b)] is [randrange(a, b + 1)]: it raises
    [ValueError] on an empty range and is [a + _randbelow(b + 1 - a)]
    otherwise. *)
Definition randint (a b : Z) : M Z :=
  if b + 1 - a <=? 0 then raise ValueError
  else bind (fun r => ret (a + r)) (randbelow (b + 1 - a)).

(** [random.choice(seq)] is [seq[_randbelow(len(seq))]] and raises
    [IndexError] on an empty sequence. *)
Definition choice {A} (seq : list A) : M A :=
  match seq with
  | [] => raise IndexError
  | x :: _ =>
      bind (fun r => ret (nth (Z.to_nat r) seq x))
           (randbelow (Z.of_nat (length seq)))
  end.

(** [seq[i]] on a list: a negative index counts from the end, an index
    out of range raises [IndexError]. *)
Definition getitem {A} (seq : list A) (i : Z) : result A :=
  let j := if i <? 0 then i + Z.of_nat (length seq) else i in
  if j <? 0 then Raise IndexError
  else match seq !! Z.to_nat j with
       | Some x => Ok x
       | None => Raise IndexError
       end.

(** Comparison of numbers, [a < b]. *)
Definition Qltb (a b : Q) : bool := negb (Qle_bool b a).

(** [min(a, b)] and [max(a, b)] of two numbers: the first argument is
    kept unless the second is strictly smaller (greater). *)
Definition min (a b : Q) : Q := if Qltb b a then b else a.
Definition max (a b : Q) : Q := if Qltb a b then b else a.

(** [max(xs)] of a non-empty list of integers; the callers below make the
    list non-empty with [xs or [0]]. *)
Definition max_list (xs : list Z) : result Z :=
  match xs with
  | [] => Raise ValueError
  | x :: rest => Ok (fold_left (fun m y => if m <? y then y else m) rest x)
  end.

(** [xs or [0]] *)
Definition or_zero (xs : list Z) : list Z :=
  match xs with
  | [] => [0]
  | _ => xs
  end.

(** [int(q)] of a float: truncation towards zero. *)
Definition int_of_float (q : Q) : Z := Z.quot (Qnum q) (Zpos (Qden q)).

(** [range(n)] *)
Definition range (n : Z) : list Z := seqZ 0 n.

(** *** [str.strip] and [int(str)] *)

Definition is_space (c : ascii) : bool :=
  let n := N_of_ascii c in
  ((9 <=? n) && (n <=? 13) || (28 <=? n) && (n <=? 32))%N.

Fixpoint lstrip (s : string) : string :=
  match s with
  | String c s' => if is_space c then lstrip s' else s
  | EmptyString => EmptyString
  end.

Fixpoint rstrip (s : string) : string :=
  match s with
  | String c s' =>
      match rstrip s' with
      | EmptyString => if is_space c then EmptyString else String c EmptyString
      | t => String c t
      end
  | EmptyString => EmptyString
  end.

Definition strip (s : string) : string := rstrip (lstrip s).

Definition digit_of (c : ascii) : option Z :=
  let n := N_of_ascii c in
  if ((48 <=? n) && (n <=? 57))%N then Some (Z.of_N n - 48) else None.

(** The digits of an integer literal, [digit (["_"] digit)*]: [acc] is
    the value read so far, [after_digit] tells whether the previous
    character was a digit (an underscore may only follow a digit and must
    be followed by one). *)
Fixpoint digits (acc : Z) (after_digit : bool) (s : string) : option Z :=
  match s with
  | EmptyString => if after_digit then Some acc else None
  | String c s' =>
      match digit_of c with
      | Some d => digits (10 * acc + d) true s'
      | None =>
          if (Ascii.eqb c "_" && after_digit)%bool then digits acc false s'
          else None
      end
  end.

(** [int(s)] for a string of ASCII characters; [None] stands for
    [ValueError]. Surrounding white space is ignored, one sign is
    allowed. *)
Definition int_of_str (s : string) : option Z :=
  match strip s with
  | String "-" s' => Z.opp <$> digits 0 false s'
  | String "+" s' => digits 0 false s'
  | s' => digits 0 false s'
  end.

(** [str(n)] of an integer, as an f-string formats it. *)
Definition str_of_int (n : Z) : string := NilZero.string_of_int (Z.to_int n).

End Py.

Global Instance Py_mret : MRet Py.M := @Py.ret.
Global Instance Py_mbind : MBind Py.M := @Py.bind.

(** ** Qt pixmaps *)

Inductive GlobalColor : Set :=
| transparent
| yellow.

(** A pixmap is described by how it was produced. *)
Inductive QPixmap : Type :=
| Pixmap_null
    (* QPixmap(), or QPixmap(filename) of a missing or unreadable file *)
| Pixmap_image (name : string) (w h : Z)
    (* an image decoded from a file *)
| Pixmap_filled (w h : Z) (c : GlobalColor)
    (* QPixmap(w, h) after fill(c) *)
| Pixmap_drawn (canvas : QPixmap) (x y : Z) (src : QPixmap) (sx sy sw sh : Z)
    (* canvas after QPainter.drawPixmap(x, y, src, sx, sy, sw, sh) *)
| Pixmap_scaled (src : QPixmap) (w h : Z).
    (* the result of a rescaling, of size w x h *)

Fixpoint pixmap_width (p : QPixmap) : Z :=
  match p with
  | Pixmap_null => 0
  | Pixmap_image _ w _ => w
  | Pixmap_filled w _ _ => w
  | Pixmap_drawn canvas _ _ _ _ _ _ _ => pixmap_width canvas
  | Pixmap_scaled _ w _ => w
  end.

Fixpoint pixmap_height (p : QPixmap) : Z :=
  match p with
  | Pixmap_null => 0
  | Pixmap_image _ _ h => h
  | Pixmap_filled _ h _ => h
  | Pixmap_drawn canvas _ _ _ _ _ _ _ => pixmap_height canvas
  | Pixmap_scaled _ _ h => h
  end.

Definition isNull (p : QPixmap) : bool :=
  match p with
  | Pixmap_null => true
  | _ => false
  end.

(** What the program asks of the file system and of Qt.
    - [csv_rows path]: the rows [csv.reader] yields for the file at [path],
      [None] when [open] raises [FileNotFoundError];
    - [load_pixmap filename]: [QPixmap(filename)];
    - [scaled p w h]: [p.scaled(w, h, KeepAspectRatio, SmoothTransformation)]. *)
Record Platform : Type := {
  csv_rows : string -> option (list (list string));
  load_pixmap : string -> QPixmap;
  scaled : QPixmap -> Z -> Z -> QPixmap
}.

(** [os.path.join(directory, name)] for a relative [name], POSIX flavour. *)
Definition path_join (directory name : string) : string :=
  match directory with
  | EmptyString => name
  | _ =>
      if String.prefix "/" (String.string_of_list_ascii
                              (rev (String.list_ascii_of_string directory)))
      then (directory ++ name)%string
      else (directory ++ "/" ++ name)%string
  end.

(** ** Sprite data classes *)

Record SpriteInfo : Type := mkSpriteInfo {
  sheet_num : Z;
  sprite_index : Z;
  sprite_id : Z;
  width : Z;
  height : Z;
  x_offset : Z;
  y_offset : Z;
  sheet_x : Z;
  sheet_y : Z
}.

Record SpriteFrame : Type := mkSpriteFrame {
  pixmap : QPixmap
}.

(** ** class SpriteAnimator *)

Module SpriteAnimator.

Record t : Type := mk {
  direction_frames : gmap Z (list SpriteFrame);
  current_direction : Z;
  current_frame_index : Z;
  frame_duration : Z;
  last_frame_time : Z;
  pos_x : Q;
  pos_y : Q;
  velocity_x : Q;
  velocity_y : Q;
  move_speed : Q;
  is_moving : bool;
  next_direction_change_time : Z;
  max_canvas_width : Z;
  max_canvas_height : Z;
  sprite_details : gmap Z SpriteInfo;
  spritesheets : gmap Z QPixmap;
  scale_factor : Q
}.

(** Assignment to one attribute, [self.f = v]. *)
Definition set_direction_frames (v : gmap Z (list SpriteFrame)) (self : t) : t :=
  mk v (current_direction self) (current_frame_index self) (frame_duration
     self) (last_frame_time self) (pos_x self) (pos_y self) (velocity_x
     self) (velocity_y self) (move_speed self) (is_moving self)
     (next_direction_change_time self) (max_canvas_width self)
     (max_canvas_height self) (sprite_details self) (spritesheets self)
     (scale_factor self).
Definition set_current_direction (v : Z) (self : t) : t :=
  mk (direction_frames self) v (current_frame_index self) (frame_duration
     self) (last_frame_time self) (pos_x self) (pos_y self) (velocity_x
     self) (velocity_y self) (move_speed self) (is_moving self)
     (next_direction_change_time self) (max_canvas_width self)
     (max_canvas_height self) (sprite_details self) (spritesheets self)
     (scale_factor self).
Definition set_current_frame_index (v : Z) (self : t) : t :=
  mk (direction_frames self) (current_direction self) v (frame_duration
     self) (last_frame_time self) (pos_x self) (pos_y self) (velocity_x
     self) (velocity_y self) (move_speed self) (is_moving self)
     (next_direction_change_time self) (max_canvas_width self)
     (max_canvas_height self) (sprite_details self) (spritesheets self)
     (scale_factor self).
Definition set_last_frame_time (v : Z) (self : t) : t :=
  mk (direction_frames self) (current_direction self) (current_frame_index
     self) (frame_duration self) v (pos_x self) (pos_y self) (velocity_x
     self) (velocity_y self) (move_speed self) (is_moving self)
     (next_direction_change_time self) (max_canvas_width self)
     (max_canvas_height self) (sprite_details self) (spritesheets self)
     (scale_factor self).
Definition set_pos_x (v : Q) (self : t) : t :=
  mk (direction_frames self) (current_direction self) (current_frame_index
     self) (frame_duration self) (last_frame_time self) v (pos_y self)
     (velocity_x self) (velocity_y self) (move_speed self) (is_moving
     self) (next_direction_change_time self) (max_canvas_width self)
     (max_canvas_height self) (sprite_details self) (spritesheets self)
     (scale_factor self).
Definition set_pos_y (v : Q) (self : t) : t :=
  mk (direction_frames self) (current_direction self) (current_frame_index
     self) (frame_duration self) (last_frame_time self) (pos_x self) v
     (velocity_x self) (velocity_y self) (move_speed self) (is_moving
     self) (next_direction_change_time self) (max_canvas_width self)
     (max_canvas_height self) (sprite_details self) (spritesheets self)
     (scale_factor self).
Definition set_velocity_x (v : Q) (self : t) : t :=
  mk (direction_frames self) (current_direction self) (current_frame_index
     self) (frame_duration self) (last_frame_time self) (pos_x self)
     (pos_y self) v (velocity_y self) (move_speed self) (is_moving self)
     (next_direction_change_time self) (max_canvas_width self)
     (max_canvas_height self) (sprite_details self) (spritesheets self)
     (scale_factor self).
Definition set_velocity_y (v : Q) (self : t) : t :=
  mk (direction_frames self) (current_direction self) (current_frame_index
     self) (frame_duration self) (last_frame_time self) (pos_x self)
     (pos_y self) (velocity_x self) v (move_speed self) (is_moving self)
     (next_direction_change_time self) (max_canvas_width self)
     (max_canvas_height self) (sprite_details self) (spritesheets self)
     (scale_factor self).
Definition set_move_speed (v : Q) (self : t) : t :=
  mk (direction_frames self) (current_direction self) (current_frame_index
     self) (frame_duration self) (last_frame_time self) (pos_x self)
     (pos_y self) (velocity_x self) (velocity_y self) v (is_moving self)
     (next_direction_change_time self) (max_canvas_width self)
     (max_canvas_height self) (sprite_details self) (spritesheets self)
     (scale_factor self).
Definition set_is_moving (v : bool) (self : t) : t :=
  mk (direction_frames self) (current_direction self) (current_frame_index
     self) (frame_duration self) (last_frame_time self) (pos_x self)
     (pos_y self) (velocity_x self) (velocity_y self) (move_speed self) v
     (next_direction_change_time self) (max_canvas_width self)
     (max_canvas_height self) (sprite_details self) (spritesheets self)
     (scale_factor self).
Definition set_next_direction_change_time (v : Z) (self : t) : t :=
  mk (direction_frames self) (current_direction self) (current_frame_index
     self) (frame_duration self) (last_frame_time self) (pos_x self)
     (pos_y self) (velocity_x self) (velocity_y self) (move_speed self)
     (is_moving self) v (max_canvas_width self) (max_canvas_height self)
     (sprite_details self) (spritesheets self) (scale_factor self).
Definition set_max_canvas_width (v : Z) (self : t) : t :=
  mk (direction_frames self) (current_direction self) (current_frame_index
     self) (frame_duration self) (last_frame_time self) (pos_x self)
     (pos_y self) (velocity_x self) (velocity_y self) (move_speed self)
     (is_moving self) (next_direction_change_time self) v
     (max_canvas_height self) (sprite_details self) (spritesheets self)
     (scale_factor self).
Definition set_max_canvas_height (v : Z) (self : t) : t :=
  mk (direction_frames self) (current_direction self) (current_frame_index
     self) (frame_duration self) (last_frame_time self) (pos_x self)
     (pos_y self) (velocity_x self) (velocity_y self) (move_speed self)
     (is_moving self) (next_direction_change_time self) (max_canvas_width
     self) v (sprite_details self) (spritesheets self) (scale_factor
     self).
Definition set_sprite_details (v : gmap Z SpriteInfo) (self : t) : t :=
  mk (direction_frames self) (current_direction self) (current_frame_index
     self) (frame_duration self) (last_frame_time self) (pos_x self)
     (pos_y self) (velocity_x self) (velocity_y self) (move_speed self)
     (is_moving self) (next_direction_change_time self) (max_canvas_width
     self) (max_canvas_height self) v (spritesheets self) (scale_factor
     self).
Definition set_spritesheets (v : gmap Z QPixmap) (self : t) : t :=
  mk (direction_frames self) (current_direction self) (current_frame_index
     self) (frame_duration self) (last_frame_time self) (pos_x self)
     (pos_y self) (velocity_x self) (velocity_y self) (move_speed self)
     (is_moving self) (next_direction_change_time self) (max_canvas_width
     self) (max_canvas_height self) (sprite_details self) v (scale_factor
     self).

(** [{0: [], 1: [], 2: [], 3: []}] *)
Definition no_frames : gmap Z (list SpriteFrame) :=
  <[0 := []]> (<[1 := []]> (<[2 := []]> (<[3 := []]> ∅))).

(** [__init__] *)
Definition init (scale_factor : Q) : t :=
  {| direction_frames := no_frames;
     current_direction := 0;
     current_frame_index := 0;
     frame_duration := 100;
     last_frame_time := 0;
     pos_x := 0%Q;
     pos_y := 0%Q;
     velocity_x := 0%Q;
     velocity_y := 0%Q;
     move_speed := 1%Q;
     is_moving := false;
     next_direction_change_time := 0;
     max_canvas_width := 0;
     max_canvas_height := 0;
     sprite_details := ∅;
     spritesheets := ∅;
     scale_factor := scale_factor |}.

(** *** Load sprite info from NFO *)

(** [int(row[i].strip())] inside the [try]: [None] when [int] raises. *)
Definition int_field (row : list string) (i : nat) : option Z :=
  s ← row !! i; Py.int_of_str (Py.strip s).

(** The nine fields the loader reads from a row of at least 11 fields. *)
Definition parse_row (row : list string) : option SpriteInfo :=
  sheet_num ← int_field row 0;
  sprite_index ← int_field row 1;
  sprite_id ← int_field row 2;
  width ← int_field row 4;
  height ← int_field row 5;
  x_offset ← int_field row 6;
  y_offset ← int_field row 7;
  sheet_x ← int_field row 9;
  sheet_y ← int_field row 10;
  Some (mkSpriteInfo sheet_num sprite_index sprite_id width height
          x_offset y_offset sheet_x sheet_y).

(** The body of [for row in reader]. *)
Definition load_row (self : t) (row : list string) : t :=
  match row with
  | [] => self
  | first :: _ =>
      if String.prefix "#" first then self
      else if 11 <=? Z.of_nat (length row) then
        match parse_row row with
        | Some info =>
            if (0 <? width info) && (width info <? 4096)
               && (0 <? height info) && (height info <? 4096)
            then set_sprite_details
                   (<[sprite_id info := info]> (sprite_details self)) self
            else self
        | None => self
        end
      else self
  end.

Definition load_sprite_info (pf : Platform) (nfo_path : string) (self : t)
  : bool * t :=
  match csv_rows pf nfo_path with
  | Some reader =>
      let self := fold_left load_row reader self in
      (0 <? Z.of_nat (size (sprite_details self)), self)
  | None => (false, self)
  end.

(** *** Load spritesheets *)

(** [{info.sheet_num for info in self.sprite_details.values()}]. The loop
    below visits the set in the order of [elements]; Python fixes some order
    too, and [load_sheets] is defined for any. *)
Definition sheet_numbers (self : t) : gset Z :=
  list_to_set (sheet_num <$> (map_to_list (sprite_details self)).*2).

(** [f"sprite_{sheet_num}.png"] under [sprite_directory]. *)
Definition sheet_filename (sprite_directory : string) (sheet_num : Z) : string :=
  path_join sprite_directory ("sprite_" ++ Py.str_of_int sheet_num ++ ".png").

(** The [for sheet_num in sheet_numbers] loop, which returns at the first
    sheet that does not load. *)
Fixpoint load_sheets (pf : Platform) (sprite_directory : string)
    (todo : list Z) (self : t) : bool * t :=
  match todo with
  | [] => (true, self)
  | sheet_num :: todo' =>
      let pixmap := load_pixmap pf (sheet_filename sprite_directory sheet_num) in
      if isNull pixmap then (false, self)
      else load_sheets pf sprite_directory todo'
             (set_spritesheets (<[sheet_num := pixmap]> (spritesheets self)) self)
  end.

Definition load_spritesheet (pf : Platform) (sprite_directory : string)
    (self : t) : bool * t :=
  load_sheets pf sprite_directory (elements (sheet_numbers self)) self.

(** *** Load frames for each direction *)

(** The canvas built for one sprite: a transparent pixmap of the sprite's
    size with the sprite's region of the sheet drawn on it, rescaled when
    the scale factor is not 1. *)
Definition make_canvas (pf : Platform) (scale_factor : Q) (info : SpriteInfo)
    (spritesheet : QPixmap) : QPixmap :=
  let canvas := Pixmap_filled (width info) (height info) transparent in
  let canvas := Pixmap_drawn canvas 0 0 spritesheet
                  (sheet_x info) (sheet_y info) (width info) (height info) in
  if negb (Qeq_bool scale_factor 1) then
    let scaled_width := Py.int_of_float (inject_Z (width info) * scale_factor) in
    let scaled_height := Py.int_of_float (inject_Z (height info) * scale_factor) in
    scaled pf canvas scaled_width scaled_height
  else canvas.

(** The body of [for i in range(frames_per_direction)]. *)
Definition load_frame (pf : Platform) (base_sprite_id dir_idx : Z)
    (self : t) (i : Z) : t :=
  let sprite_id := base_sprite_id + dir_idx + i * 4 in
  match sprite_details self !! sprite_id with
  | None => self
  | Some info =>
      match spritesheets self !! sheet_num info with
      | None => self
      | Some spritesheet =>
          let canvas := make_canvas pf (scale_factor self) info spritesheet in
          set_direction_frames
            (alter (fun frames => frames ++ [mkSpriteFrame canvas]) dir_idx
               (direction_frames self)) self
      end
  end.

(** [[f.pixmap.width() for frames in self.direction_frames.values()
      for f in frames]], and the same for the heights. *)
Definition all_frames (self : t) : list SpriteFrame :=
  concat (map_to_list (direction_frames self)).*2.

Definition lift {A} (r : Py.result A) : Py.M A :=
  match r with
  | Py.Ok a => mret a
  | Py.Raise e => Py.raise e
  end.

Definition load_direction_frames (pf : Platform) (base_sprite_ids : list Z)
    (frames_per_direction : Z) (self : t) : Py.M t :=
  let self := set_direction_frames no_frames self in
  base_sprite_id ← Py.choice base_sprite_ids;
  let self :=
    fold_left
      (fun self dir_idx =>
         fold_left (load_frame pf base_sprite_id dir_idx)
           (Py.range frames_per_direction) self)
      (Py.range 4) self in
  w ← lift (Py.max_list
              (Py.or_zero ((fun f => pixmap_width (pixmap f)) <$> all_frames self)));
  let self := set_max_canvas_width w self in
  h ← lift (Py.max_list
              (Py.or_zero ((fun f => pixmap_height (pixmap f)) <$> all_frames self)));
  mret (set_max_canvas_height h self).

(** *** Movement *)

Definition set_direction (direction : Z) (self : t) : t :=
  let self := set_current_direction direction self in
  let speed := move_speed self in
  if direction =? 0 then
    set_velocity_y (- speed)%Q (set_velocity_x speed self)
  else if direction =? 1 then
    set_velocity_y speed (set_velocity_x speed self)
  else if direction =? 2 then
    set_velocity_y speed (set_velocity_x (- speed)%Q self)
  else if direction =? 3 then
    set_velocity_y (- speed)%Q (set_velocity_x (- speed)%Q self)
  else self.

Definition setup_walking (screen_width screen_height : Z)
    (start_x start_y : option Q) (self : t) : Py.M t :=
  x ← match start_x with
      | None => r ← Py.randint 0 (screen_width - max_canvas_width self);
                mret (inject_Z r)
      | Some x => mret x
      end;
  let self := set_pos_x x self in
  y ← match start_y with
      | None => r ← Py.randint 0 (screen_height - max_canvas_height self);
                mret (inject_Z r)
      | Some y => mret y
      end;
  let self := set_pos_y y self in
  d ← Py.randint 0 3;
  let self := set_direction d self in
  let self := set_is_moving true self in
  now ← Py.time_ms;
  delay ← Py.randint 1000 3000;
  mret (set_next_direction_change_time (now + delay) self).

(** [self.direction_frames.get(self.current_direction, [])] *)
Definition current_frames (self : t) : list SpriteFrame :=
  default [] (direction_frames self !! current_direction self).

(** [update], "Frame animation". *)
Definition frame_animation (current_time : Z) (self : t) : t :=
  let frames := current_frames self in
  if negb (bool_decide (frames = []))
     && (frame_duration self <=? current_time - last_frame_time self)
  then
    set_last_frame_time current_time
      (set_current_frame_index
         ((current_frame_index self + 1) mod Z.of_nat (length frames)) self)
  else self.

(** [update], "Random direction change". *)
Definition random_direction_change (current_time : Z) (self : t) : Py.M t :=
  if next_direction_change_time self <=? current_time then
    new_dir ← Py.choice [0; 1; 2; 3];
    let self :=
      if negb (new_dir =? current_direction self)
      then set_direction new_dir self else self in
    delay ← Py.randint 1000 3000;
    mret (set_next_direction_change_time (current_time + delay) self)
  else mret self.

(** The test that sets [bounced]. *)
Definition out_of_bounds (screen_width screen_height : Z) (self : t) : bool :=
  Py.Qltb (pos_x self) 0
  || Py.Qltb (inject_Z (screen_width - max_canvas_width self)) (pos_x self)
  || Py.Qltb (pos_y self) 0
  || Py.Qltb (inject_Z (screen_height - max_canvas_height self)) (pos_y self).

(** [update], "Move": integrate the velocity, pick a new direction when the
    position left the screen, clamp the position. *)
Definition move (screen_width screen_height : Z) (self : t) : Py.M t :=
  let self := set_pos_x (pos_x self + velocity_x self)%Q self in
  let self := set_pos_y (pos_y self + velocity_y self)%Q self in
  let bounced := out_of_bounds screen_width screen_height self in
  self ← (if bounced
          then d ← Py.choice [0; 1; 2; 3]; mret (set_direction d self)
          else mret self);
  let self :=
    set_pos_x (Py.max 0 (Py.min (pos_x self)
                           (inject_Z (screen_width - max_canvas_width self))))
      self in
  mret (set_pos_y
          (Py.max 0 (Py.min (pos_y self)
                       (inject_Z (screen_height - max_canvas_height self))))
          self).

Definition update (screen_width screen_height : Z) (self : t) : Py.M t :=
  if negb (is_moving self) then mret self
  else
    current_time ← Py.time_ms;
    let self := frame_animation current_time self in
    self ← random_direction_change current_time self;
    move screen_width screen_height self.

Definition get_current_frame (self : t) : Py.result (option SpriteFrame) :=
  let frames := current_frames self in
  match frames with
  | [] => Py.Ok None
  | _ =>
      match Py.getitem frames (current_frame_index self) with
      | Py.Ok f => Py.Ok (Some f)
      | Py.Raise e => Py.Raise e
      end
  end.

Definition get_position (self : t) : Q * Q := (pos_x self, pos_y self).

End SpriteAnimator.

(** ** class DesktopPeep *)

(** [QGraphicsPixmapItem]: the pixmap shown and the position of the item. *)
Record QGraphicsPixmapItem : Type := mkItem {
  item_pixmap : QPixmap;
  item_pos : Q * Q
}.

Definition setPixmap (p : QPixmap) (item : QGraphicsPixmapItem) : QGraphicsPixmapItem :=
  mkItem p (item_pos item).

Definition setPos (x y : Q) (item : QGraphicsPixmapItem) : QGraphicsPixmapItem :=
  mkItem (item_pixmap item) (x, y).

Module DesktopPeep.

(** The attributes [fallback_pixmap], [x], [y], [dx] and [dy] exist only on
    a fallback peep; on an animated peep they are never read and are given
    the values [None] and [0] here. *)
Record t : Type := mk {
  animator : SpriteAnimator.t;
  use_fallback : bool;
  fallback_pixmap : option QPixmap;
  x : Z;
  y : Z;
  dx : Z;
  dy : Z;
  graphics_item : QGraphicsPixmapItem
}.

Definition set_animator (v : SpriteAnimator.t) (self : t) : t :=
  mk v (use_fallback self) (fallback_pixmap self) (x self) (y self)
     (dx self) (dy self) (graphics_item self).
Definition set_x (v : Z) (self : t) : t :=
  mk (animator self) (use_fallback self) (fallback_pixmap self) v (y self)
     (dx self) (dy self) (graphics_item self).
Definition set_y (v : Z) (self : t) : t :=
  mk (animator self) (use_fallback self) (fallback_pixmap self) (x self) v
     (dx self) (dy self) (graphics_item self).
Definition set_dx (v : Z) (self : t) : t :=
  mk (animator self) (use_fallback self) (fallback_pixmap self) (x self) (y self)
     v (dy self) (graphics_item self).
Definition set_dy (v : Z) (self : t) : t :=
  mk (animator self) (use_fallback self) (fallback_pixmap self) (x self) (y self)
     (dx self) v (graphics_item self).
Definition set_graphics_item (v : QGraphicsPixmapItem) (self : t) : t :=
  mk (animator self) (use_fallback self) (fallback_pixmap self) (x self) (y self)
     (dx self) (dy self) v.

(** [__init__]. The condition
    [not load_sprite_info(...) or not load_spritesheet(...)] evaluates the
    second call only when the first one succeeded. *)
Definition init (pf : Platform) (base_sprite_id : list Z)
    (nfo_path sprite_directory : string) (scale_factor : Q) : Py.M t :=
  let animator := SpriteAnimator.init scale_factor in
  let '(info_ok, animator) :=
    SpriteAnimator.load_sprite_info pf nfo_path animator in
  let '(loaded, animator) :=
    if negb info_ok then (false, animator)
    else SpriteAnimator.load_spritesheet pf sprite_directory animator in
  if negb loaded then
    let fallback_size := Py.int_of_float (64 * scale_factor) in
    let fallback_pixmap := Pixmap_filled fallback_size fallback_size yellow in
    x ← Py.randint 0 800;
    y ← Py.randint 0 600;
    dx ← Py.choice [-2; -1; 1; 2];
    dy ← Py.choice [-2; -1; 1; 2];
    mret (mk animator true (Some fallback_pixmap) x y dx dy
            (setPixmap fallback_pixmap (mkItem Pixmap_null (0, 0)%Q)))
  else
    animator ← SpriteAnimator.load_direction_frames pf base_sprite_id 5 animator;
    let animator := SpriteAnimator.set_move_speed (1 # 2) animator in
    mret (mk animator false None 0 0 0 0 (mkItem Pixmap_null (0, 0)%Q)).

Definition setup (screen_width screen_height : Z) (self : t) : Py.M t :=
  if negb (use_fallback self) then
    animator ← SpriteAnimator.setup_walking screen_width screen_height
                 None None (animator self);
    mret (set_animator animator self)
  else
    mret (set_graphics_item
            (setPos (inject_Z (x self)) (inject_Z (y self)) (graphics_item self))
            self).

(** The fallback branch of [update]. *)
Definition update_fallback (screen_width screen_height : Z) (self : t) : t :=
  let self := set_x (x self + dx self) self in
  let self := set_y (y self + dy self) self in
  let self :=
    if (x self <? 0) || (screen_width <? x self + 64)
    then set_dx (dx self * -1) self else self in
  let self :=
    if (y self <? 0) || (screen_height <? y self + 64)
    then set_dy (dy self * -1) self else self in
  set_graphics_item
    (setPos (inject_Z (x self)) (inject_Z (y self)) (graphics_item self)) self.

Definition update (screen_width screen_height : Z) (self : t) : Py.M t :=
  if use_fallback self then mret (update_fallback screen_width screen_height self)
  else
    animator ← SpriteAnimator.update screen_width screen_height (animator self);
    let self := set_animator animator self in
    frame ← SpriteAnimator.lift (SpriteAnimator.get_current_frame animator);
    let self :=
      match frame with
      | Some frame =>
          set_graphics_item (setPixmap (pixmap frame) (graphics_item self)) self
      | None => self
      end in
    let '(x, y) := SpriteAnimator.get_position animator in
    mret (set_graphics_item (setPos x y (graphics_item self)) self).

End DesktopPeep.

(** ** Runs of the tick timer *)

(** [n] successive calls of [SpriteAnimator.update] with the same screen
    size, as the canvas timer makes them. *)
Fixpoint animator_ticks (n : nat) (screen_width screen_height : Z)
    (self : SpriteAnimator.t) : Py.M SpriteAnimator.t :=
  match n with
  | O => mret self
  | S n' =>
      self ← SpriteAnimator.update screen_width screen_height self;
      animator_ticks n' screen_width screen_height self
  end.

(** The state in which [move] tests the bounds: the velocity has been added
    to the position. *)
Definition moved (s : SpriteAnimator.t) : SpriteAnimator.t :=
  SpriteAnimator.set_pos_y (SpriteAnimator.pos_y s + SpriteAnimator.velocity_y s)%Q
    (SpriteAnimator.set_pos_x (SpriteAnimator.pos_x s + SpriteAnimator.velocity_x s)%Q s).

(** ** Example data

    A metadata file, a sprite directory and a world used to run the code on
    concrete inputs. Sprite ids 100, 104 (direction 0) and 101 (direction 1)
    describe a peep with two frames in direction 0, one in direction 1 and
    none in directions 2 and 3; ids 200..219 describe a peep with five
    frames in every direction. All sprites are 32 x 32 and on sheet 0. *)

Definition nfo_row (sprite_id : Z) : list string :=
  ["0"; "0"; Py.str_of_int sprite_id; "0"; "32"; "32"; "0"; "0"; "0"; "0"; "0"]%string.

Definition example_rows : list (list string) :=
  ["# sheet, index, id, -, width, height, xoff, yoff, -, x, y"%string]
  :: (nfo_row <$> [100; 101; 104]) ++ (nfo_row <$> seqZ 200 20).

Definition example_platform : Platform :=
  {| csv_rows := fun path =>
       if String.eqb path "./output/sprites.nfo" then Some example_rows else None;
     load_pixmap := fun filename =>
       if String.eqb filename "./output/sprite_0.png"
       then Pixmap_image filename 512 512 else Pixmap_null;
     scaled := Pixmap_scaled |}.

(** The same directory without its metadata file. *)
Definition bare_platform : Platform :=
  {| csv_rows := fun _ => None;
     load_pixmap := load_pixmap example_platform;
     scaled := Pixmap_scaled |}.

(** A clock read every 16 ms, as the canvas timer fires, and the entropy
    given by a list of raw draws (0 once the list is used up). *)
Definition example_world (raw : list N) : Py.World :=
  Py.mkWorld (fun k => Z.of_nat k * 16 + 1700000000000) 0
             (fun k => nth k raw 0%N) 0.

(** A [SpriteAnimator] taken through the loading steps of
    [DesktopPeep.__init__]. *)
Definition loaded_animator (pf : Platform) (base_sprite_ids : list Z)
    : Py.M SpriteAnimator.t :=
  let animator := SpriteAnimator.init 1 in
  let '(_, animator) :=
    SpriteAnimator.load_sprite_info pf "./output/sprites.nfo" animator in
  let '(_, animator) :=
    SpriteAnimator.load_spritesheet pf "./output/" animator in
  SpriteAnimator.load_direction_frames pf base_sprite_ids 5 animator.

Definition walker_example : SpriteAnimator.t :=
  SpriteAnimator.set_move_speed (1 # 2) (SpriteAnimator.init 1).

(** ** Statements checked on concrete runs *)

(** The position bounds of a peep on a screen of the given size. *)
Definition within_screen (screen_width screen_height : Z) (s : SpriteAnimator.t)
    : Prop :=
  (0 <= SpriteAnimator.pos_x s
   <= inject_Z (screen_width - SpriteAnimator.max_canvas_width s))%Q
  /\ (0 <= SpriteAnimator.pos_y s
      <= inject_Z (screen_height - SpriteAnimator.max_canvas_height s))%Q.

(** A walking animator whose next direction change is already due. *)
Definition due_walker : SpriteAnimator.t :=
  SpriteAnimator.set_is_moving true
    (SpriteAnimator.set_direction 1 walker_example).

(** The two-frame peep set walking at the origin of a 10 x 10 screen, which
    is smaller than its 32 x 32 bounding box, and updated once. *)
Definition small_screen_run : Py.result (SpriteAnimator.t * Py.World) :=
  (a ← loaded_animator example_platform [100];
   a ← SpriteAnimator.setup_walking 10 10 (Some 0%Q) (Some 0%Q) a;
   animator_ticks 1 10 10 a) (example_world []).

(** *** Fallback peeps *)

(** The square of a fallback peep lies within the screen on one axis. *)
Definition inside_x (screen_width : Z) (p : DesktopPeep.t) : Prop :=
  0 <= DesktopPeep.x p /\ DesktopPeep.x p + 64 <= screen_width.

Definition inside_y (screen_height : Z) (p : DesktopPeep.t) : Prop :=
  0 <= DesktopPeep.y p /\ DesktopPeep.y p + 64 <= screen_height.

(** A tick from [p] to [p'] crosses a bound of an axis when the square was
    within the screen on that axis before the tick and is not after it. *)
Definition crossed_x (screen_width : Z) (p p' : DesktopPeep.t) : Prop :=
  inside_x screen_width p /\ ~ inside_x screen_width p'.

Definition crossed_y (screen_height : Z) (p p' : DesktopPeep.t) : Prop :=
  inside_y screen_height p /\ ~ inside_y screen_height p'.

(** Elastic reflection on one tick: a velocity component changes sign
    exactly when the tick crosses a bound of its axis. *)
Definition reflects_on_crossing_only (screen_width screen_height : Z)
    (p : DesktopPeep.t) : Prop :=
  let p' := DesktopPeep.update_fallback screen_width screen_height p in
  (DesktopPeep.dx p' = - DesktopPeep.dx p <-> crossed_x screen_width p p')
  /\ (DesktopPeep.dy p' = - DesktopPeep.dy p <-> crossed_y screen_height p p').

(** A peep built from a directory without metadata file, with the draws
    [x = 800], [y = 0], [dx = 1], [dy = 1]. *)
Definition fallback_peep_run : Py.result (DesktopPeep.t * Py.World) :=
  DesktopPeep.init bare_platform [11301; 6409; 6505]
    "./output/sprites.nfo" "./output/" 1 (example_world [800; 0; 2; 2]%N).

(** *** The calls a peep receives during its lifetime *)

Inductive peep_call : Set :=
| Setup (screen_width screen_height : Z)
| Update (screen_width screen_height : Z).

Fixpoint lifetime (calls : list peep_call) (p : DesktopPeep.t)
    : Py.M DesktopPeep.t :=
  match calls with
  | [] => mret p
  | Setup W H :: calls' => p ← DesktopPeep.setup W H p; lifetime calls' p
  | Update W H :: calls' => p ← DesktopPeep.update W H p; lifetime calls' p
  end.

(** A fallback peep two pixels from the left edge, moving left. *)
Definition corner_peep : DesktopPeep.t :=
  DesktopPeep.mk (SpriteAnimator.init 1) true (Some (Pixmap_filled 64 64 yellow))
    1 100 (-2) 1 (mkItem (Pixmap_filled 64 64 yellow) (1, 100)%Q).

(** *** Frame cycling *)

(** The states after each of [n] successive [update] calls. *)
Fixpoint animator_trace (n : nat) (screen_width screen_height : Z)
    (self : SpriteAnimator.t) : Py.M (list SpriteAnimator.t) :=
  match n with
  | O => mret []
  | S n' =>
      self ← SpriteAnimator.update screen_width screen_height self;
      rest ← animator_trace n' screen_width screen_height self;
      mret (self :: rest)
  end.

(** The number of updates of a trace that advanced the frame: the ones
    that stamped [last_frame_time] with a new time. *)
Fixpoint frame_advances (prev : SpriteAnimator.t) (trace : list SpriteAnimator.t)
    : nat :=
  match trace with
  | [] => 0%nat
  | s :: rest =>
      ((if Z.eqb (SpriteAnimator.last_frame_time prev)
               (SpriteAnimator.last_frame_time s)
        then 0 else 1)
       + frame_advances s rest)%nat
  end.

(** "Over an interval of [elapsed] milliseconds of update calls that
    exceeds [frame_duration * frame count], the index advances exactly once
    per [frame_duration] elapsed." *)
Definition advances_once_per_frame_duration (s : SpriteAnimator.t)
    (trace : list SpriteAnimator.t) (elapsed : Z) : Prop :=
  SpriteAnimator.frame_duration s
    * Z.of_nat (length (SpriteAnimator.current_frames s)) < elapsed ->
  Z.of_nat (frame_advances s trace) = elapsed / SpriteAnimator.frame_duration s.

(** The five-frame peep set walking on a 1920 x 1080 screen and updated
    once, which advances the frame and stamps [last_frame_time]; then the
    trace of the next 70 updates, 16 ms apart. *)
Definition frame_counter_run
    : Py.result (SpriteAnimator.t * list SpriteAnimator.t * Py.World) :=
  (a ← loaded_animator example_platform [200];
   a ← SpriteAnimator.setup_walking 1920 1080 None None a;
   a ← SpriteAnimator.update 1920 1080 a;
   trace ← animator_trace 70 1920 1080 a;
   mret (a, trace)) (example_world [0; 500; 500; 0; 2000]%N).

(** *** A direction change with a stale frame index *)

(** The peep with two frames in direction 0 and one frame in direction 1,
    set walking in direction 0 with its direction change due after 1000 ms
    and updated 63 times, 16 ms apart; the 63rd update is the first one
    after the 1000 ms and turns the peep to direction 1. *)
Definition stale_index_run : Py.result (SpriteAnimator.t * Py.World) :=
  (a ← loaded_animator example_platform [100];
   a ← SpriteAnimator.setup_walking 1920 1080 None None a;
   animator_ticks 63 1920 1080 a) (example_world [0; 500; 500; 0; 0; 1; 0]%N).

(** The same scenario on a [DesktopPeep]: construction, [setup] and [n]
    timer ticks. *)
Definition peep_run (n : nat) : Py.result (DesktopPeep.t * Py.World) :=
  (p ← DesktopPeep.init example_platform [100] "./output/sprites.nfo" "./output/" 1;
   lifetime (Setup 1920 1080 :: repeat (Update 1920 1080) n) p)
    (example_world [0; 500; 500; 0; 0; 1; 0]%N).

(** The five-frame peep just after [setup_walking], with the world it is
    left in (the fallback value stands for a run that raises, which this one
    does not). *)
Definition walking_five_frames : SpriteAnimator.t * Py.World :=
  match (a ← loaded_animator example_platform [200];
         SpriteAnimator.setup_walking 1920 1080 None None a)
          (example_world [0; 500; 500; 0; 2000]%N) with
  | Py.Ok sw => sw
  | Py.Raise _ => (SpriteAnimator.init 1, example_world [])
  end.

(** *** Loading the frames *)

(** The frame of one slot, as the specification describes it: the sprite
    [base + direction + frame * 4] looked up in the metadata table and its
    sheet looked up in the sheet cache; no frame when either is absent. *)
Definition slot_frame (pf : Platform) (a : SpriteAnimator.t)
    (base direction frame : Z) : option SpriteFrame :=
  info ← SpriteAnimator.sprite_details a !! (base + direction + frame * 4);
  sheet ← SpriteAnimator.spritesheets a !! sheet_num info;
  Some (mkSpriteFrame
          (SpriteAnimator.make_canvas pf (SpriteAnimator.scale_factor a) info sheet)).

(** The end-to-end scenario of the specification: one valid metadata row,
    [(sheet=0, idx=0, id=100, _, w=32, h=32, xo=0, yo=0, _, sx=0, sy=0)]. *)
Definition single_row_platform : Platform :=
  {| csv_rows := fun _ => Some [nfo_row 100];
     load_pixmap := load_pixmap example_platform;
     scaled := Pixmap_scaled |}.

Definition single_row_animator : SpriteAnimator.t :=
  snd (SpriteAnimator.load_spritesheet single_row_platform "./output/"
         (snd (SpriteAnimator.load_sprite_info single_row_platform
                 "./output/sprites.nfo" (SpriteAnimator.init 1)))).

(** *** Metadata rows *)

(** A row the loader accepts, with the entry it yields: it does not start
    with the comment marker, has at least 11 fields, its nine fields that
    are read are integers, and its width and height lie strictly between 0
    and 4096. *)
Definition valid_row (row : list string) (info : SpriteInfo) : Prop :=
  (exists first rest, row = first :: rest /\ String.prefix "#" first = false)
  /\ (11 <= length row)%nat
  /\ SpriteAnimator.parse_row row = Some info
  /\ 0 < width info < 4096
  /\ 0 < height info < 4096.

(** The indices of the fields the loader reads. *)
Definition read_fields : list nat := [0; 1; 2; 4; 5; 6; 7; 9; 10]%nat.

(** A row the loader skips: empty, starting with the comment marker, with
    fewer than 11 fields, with a field among the nine read ones that is not
    an integer, or with a width or height outside (0, 4096). *)
Definition skipped_row (row : list string) : Prop :=
  row = []
  \/ (exists first rest, row = first :: rest /\ String.prefix "#" first = true)
  \/ (length row < 11)%nat
  \/ (exists i, i ∈ read_fields /\ SpriteAnimator.int_field row i = None)
  \/ (exists info, SpriteAnimator.parse_row row = Some info
                   /\ ~ (0 < width info < 4096 /\ 0 < height info < 4096)).

(** Some field of the row is not an integer. *)
Definition has_non_integer_field (row : list string) : Prop :=
  exists s, s ∈ row /\ Py.int_of_str (Py.strip s) = None.

(** A row of 11 fields whose two unused fields, at index 3 and 8, are not
    integers. *)
Definition unused_fields_row : list string :=
  ["0"; "0"; "100"; "x"; "32"; "32"; "0"; "0"; "-"; "0"; "0"]%string.

Definition unused_fields_platform : Platform :=
  {| csv_rows := fun _ => Some [unused_fields_row];
     load_pixmap := load_pixmap example_platform;
     scaled := Pixmap_scaled |}.

(** Every entry of a metadata table has a width and a height strictly
    between 0 and 4096 and is stored under its own sprite id. *)
Definition table_ok (m : gmap Z SpriteInfo) : Prop :=
  forall id info,
    m !! id = Some info ->
    0 < width info < 4096 /\ 0 < height info < 4096 /\ sprite_id info = id.

(** ** Invariants of a walking animator *)

(** What [update] leaves alone: the loaded frames and tables, the bounding
    box, the speed, the frame duration, the scale factor and the walking
    flag. *)
Definition same_assets (s s' : SpriteAnimator.t) : Prop :=
  SpriteAnimator.direction_frames s' = SpriteAnimator.direction_frames s
  /\ SpriteAnimator.sprite_details s' = SpriteAnimator.sprite_details s
  /\ SpriteAnimator.spritesheets s' = SpriteAnimator.spritesheets s
  /\ SpriteAnimator.max_canvas_width s' = SpriteAnimator.max_canvas_width s
  /\ SpriteAnimator.max_canvas_height s' = SpriteAnimator.max_canvas_height s
  /\ SpriteAnimator.move_speed s' = SpriteAnimator.move_speed s
  /\ SpriteAnimator.frame_duration s' = SpriteAnimator.frame_duration s
  /\ SpriteAnimator.scale_factor s' = SpriteAnimator.scale_factor s
  /\ SpriteAnimator.is_moving s' = SpriteAnimator.is_moving s.

(** The velocity is the one [set_direction] gives for the current
    direction, which is one of the four. *)
Definition heading_ok (s : SpriteAnimator.t) : Prop :=
  0 <= SpriteAnimator.current_direction s <= 3
  /\ SpriteAnimator.velocity_x s
     = SpriteAnimator.velocity_x
         (SpriteAnimator.set_direction (SpriteAnimator.current_direction s) s)
  /\ SpriteAnimator.velocity_y s
     = SpriteAnimator.velocity_y
         (SpriteAnimator.set_direction (SpriteAnimator.current_direction s) s).

(** Every direction that has frames has [n] of them. *)
Definition uniform_frames (n : nat) (s : SpriteAnimator.t) : Prop :=
  forall d frames,
    SpriteAnimator.direction_frames s !! d = Some frames ->
    frames = [] \/ length frames = n.

(** ** Construction of a peep, step by step *)



(** [n] timer ticks of a peep on a screen of fixed size. *)
Definition peep_ticks (n : nat) (screen_width screen_height : Z)
    (p : DesktopPeep.t) : Py.M DesktopPeep.t :=
  lifetime (repeat (Update screen_width screen_height) n) p.

(** On a screen at least as wide as the square, a fallback peep of speed
    [c] on the horizontal axis is within the screen, or at most [c] beyond
    an edge and heading back. *)
Definition swing_x (c screen_width : Z) (p : DesktopPeep.t) : Prop :=
  64 <= screen_width
  /\ Z.abs (DesktopPeep.dx p) = c
  /\ (inside_x screen_width p
      \/ (- c <= DesktopPeep.x p < 0 /\ DesktopPeep.dx p = c)
      \/ (screen_width - 64 < DesktopPeep.x p <= screen_width - 64 + c
          /\ DesktopPeep.dx p = - c)).

Definition swing_y (c screen_height : Z) (p : DesktopPeep.t) : Prop :=
  64 <= screen_height
  /\ Z.abs (DesktopPeep.dy p) = c
  /\ (inside_y screen_height p
      \/ (- c <= DesktopPeep.y p < 0 /\ DesktopPeep.dy p = c)
      \/ (screen_height - 64 < DesktopPeep.y p <= screen_height - 64 + c
          /\ DesktopPeep.dy p = - c)).

(** ** pygame's music player *)

(** The state of [pygame.mixer.music]: the file loaded, whether it is
    playing, and the volume. *)
Record Mixer : Type := mkMixer {
  music_loaded : option string;
  music_busy : bool;
  music_volume : Q
}.

(** [pygame.mixer.init()]: nothing loaded, full volume. *)
Definition mixer_init : Mixer := mkMixer None false 1.

(** [pygame.mixer.music.load(f)] of a file that loads: any music that was
    playing stops and [f] becomes the loaded music. *)
Definition music_load (f : string) (m : Mixer) : Mixer :=
  mkMixer (Some f) false (music_volume m).

(** [pygame.mixer.music.play(-1)]: loop for ever. *)
Definition music_play (m : Mixer) : Mixer :=
  mkMixer (music_loaded m) true (music_volume m).

Definition music_stop (m : Mixer) : Mixer :=
  mkMixer (music_loaded m) false (music_volume m).

(** [pygame.mixer.music.set_volume(v)], for [v] in [[0, 1]]. *)
Definition music_set_volume (v : Q) (m : Mixer) : Mixer :=
  mkMixer (music_loaded m) (music_busy m) v.

(** What the audio code asks of the file system: [os.path.exists], and
    whether [pygame.mixer.music.load] accepts the file (it raises
    [pygame.error], leaving the player as it is, when it does not). *)
Record AudioFiles : Type := {
  path_exists : string -> bool;
  music_loads : string -> bool
}.

(** ** class AudioManager *)

Module AudioManager.

Record t : Type := mk {
  music_playing : bool;
  is_muted : bool;
  current_volume : Q
}.

(** [__init__], with the mixer [pygame.mixer.init()] leaves. *)
Definition init : t * Mixer := (mk false false (7 # 10), mixer_init).

(** A file that does not exist, or that [load] refuses with
    [pygame.error], leaves everything as it is; after a successful [load],
    [play] and [set_volume] do not raise. *)
Definition play_music (files : AudioFiles) (music_file : string)
    (self : t) (mixer : Mixer) : t * Mixer :=
  if path_exists files music_file then
    if music_loads files music_file then
      let mixer := music_load music_file mixer in
      let mixer := music_play mixer in
      let mixer := music_set_volume (current_volume self) mixer in
      (mk true (is_muted self) (current_volume self), mixer)
    else (self, mixer)
  else (self, mixer).

(** Returns the new value of [is_muted]. *)
Definition toggle_mute (self : t) (mixer : Mixer) : bool * t * Mixer :=
  if is_muted self then
    (false, mk (music_playing self) false (current_volume self),
     music_set_volume (current_volume self) mixer)
  else
    (true, mk (music_playing self) true (current_volume self),
     music_set_volume 0 mixer).

Definition stop_music (self : t) (mixer : Mixer) : t * Mixer :=
  if music_playing self then
    (mk false (is_muted self) (current_volume self), music_stop mixer)
  else (self, mixer).

End AudioManager.

(** ** class ControlPanel *)

(** A push button: its label and whether it is shown. *)
Record QPushButton : Type := mkButton {
  button_text : string;
  button_visible : bool
}.

Definition setText (text : string) (b : QPushButton) : QPushButton :=
  mkButton text (button_visible b).
Definition show_button (b : QPushButton) : QPushButton :=
  mkButton (button_text b) true.
Definition hide_button (b : QPushButton) : QPushButton :=
  mkButton (button_text b) false.

Module ControlPanel.

(** The panel: its position and size on the screen, its three buttons and
    whether it is open. The audio manager and the canvas it refers to are
    passed to the methods that use them. *)
Record t : Type := mk {
  is_minimized : bool;
  pos : Z * Z;
  size : Z * Z;
  minimize_button : QPushButton;
  mute_button : QPushButton;
  close_button : QPushButton;
  is_open : bool
}.

Definition expanded_size : Z * Z := (170, 50).
Definition minimized_size : Z * Z := (50, 50).

(** [__init__] on a screen of the given size: [setGeometry],
    [create_buttons], [show]. *)
Definition init (screen_width screen_height : Z) : t :=
  mk false
     (screen_width - fst expanded_size - 10, screen_height - 60)
     expanded_size
     (mkButton "−" true) (mkButton "🔊" true) (mkButton "✕" true)
     true.

Definition toggle_minimize (screen_width screen_height : Z) (self : t) : t :=
  if is_minimized self then
    mk false
       (screen_width - fst expanded_size - 10, screen_height - 60)
       expanded_size
       (setText "−" (minimize_button self))
       (show_button (mute_button self))
       (show_button (close_button self))
       (is_open self)
  else
    mk true
       (screen_width - fst minimized_size - 10, screen_height - 60)
       minimized_size
       (setText "+" (minimize_button self))
       (hide_button (mute_button self))
       (hide_button (close_button self))
       (is_open self).

Definition toggle_mute (self : t) (audio : AudioManager.t) (mixer : Mixer)
    : t * AudioManager.t * Mixer :=
  let '(is_muted, audio, mixer) := AudioManager.toggle_mute audio mixer in
  (mk (is_minimized self) (pos self) (size self) (minimize_button self)
      (setText (if is_muted then "🔇" else "🔊") (mute_button self))
      (close_button self) (is_open self),
   audio, mixer).

(** [QWidget.close] *)
Definition close (self : t) : t :=
  mk (is_minimized self) (pos self) (size self) (minimize_button self)
     (mute_button self) (close_button self) false.

End ControlPanel.

(** ** class MultiPeepDesktopCanvas *)

Module MultiPeepDesktopCanvas.

Record t : Type := mk {
  peeps : list DesktopPeep.t;
  scale_factor : Q;
  audio_manager : AudioManager.t;
  screen_width : Z;
  screen_height : Z;
  timer_interval : Z;
  control_panel : ControlPanel.t;
  is_open : bool
}.

(** The loop "Add peeps" of [__init__]: one iteration per element of
    [range(n_peeps)]. *)
Fixpoint add_peeps (pf : Platform) (base_sprite_id : list Z) (todo : list Z)
    (scale_factor : Q) (nfo_path sprite_directory : string)
    (screen_width screen_height : Z) (peeps : list DesktopPeep.t)
    : Py.M (list DesktopPeep.t) :=
  match todo with
  | [] => mret peeps
  | _ :: todo' =>
      peep ← DesktopPeep.init pf base_sprite_id nfo_path sprite_directory
               scale_factor;
      peep ← DesktopPeep.setup screen_width screen_height peep;
      add_peeps pf base_sprite_id todo' scale_factor nfo_path sprite_directory
        screen_width screen_height (peeps ++ [peep])
  end.

(** [__init__] on a primary screen of the given size. It returns the canvas
    and the state of the music player. *)
Definition init (pf : Platform) (files : AudioFiles)
    (screen_width screen_height : Z) (base_sprite_id : list Z) (n_peeps : Z)
    (scale_factor : Q) (nfo_path sprite_directory : string)
    : Py.M (t * Mixer) :=
  let '(audio_manager, mixer) := AudioManager.init in
  let '(audio_manager, mixer) :=
    AudioManager.play_music files
      "RollerCoaster Tycoon - Merry go round music.mp3" audio_manager mixer in
  peeps ← add_peeps pf base_sprite_id (Py.range n_peeps) scale_factor nfo_path
            sprite_directory screen_width screen_height [];
  mret (mk peeps scale_factor audio_manager screen_width screen_height 16
          (ControlPanel.init screen_width screen_height) true,
        mixer).

(** The loop of [update_peeps] over a list of peeps. *)
Fixpoint update_each (screen_width screen_height : Z)
    (peeps : list DesktopPeep.t) : Py.M (list DesktopPeep.t) :=
  match peeps with
  | [] => mret []
  | peep :: rest =>
      peep ← DesktopPeep.update screen_width screen_height peep;
      rest ← update_each screen_width screen_height rest;
      mret (peep :: rest)
  end.

Definition update_peeps (self : t) : Py.M t :=
  peeps ← update_each (screen_width self) (screen_height self) (peeps self);
  mret (mk peeps (scale_factor self) (audio_manager self) (screen_width self)
          (screen_height self) (timer_interval self) (control_panel self)
          (is_open self)).

(** [closeEvent]: the control panel is closed and the music stopped. *)
Definition closeEvent (self : t) (mixer : Mixer) : t * Mixer :=
  let control_panel := ControlPanel.close (control_panel self) in
  let '(audio_manager, mixer) :=
    AudioManager.stop_music (audio_manager self) mixer in
  (mk (peeps self) (scale_factor self) audio_manager (screen_width self)
      (screen_height self) (timer_interval self) control_panel false,
   mixer).

End MultiPeepDesktopCanvas.

(** [ControlPanel.close_app]: closes the canvas, which runs its
    [closeEvent], and then the panel itself, which the canvas holds. *)
Definition close_app (canvas : MultiPeepDesktopCanvas.t) (mixer : Mixer)
    : MultiPeepDesktopCanvas.t * Mixer :=
  MultiPeepDesktopCanvas.closeEvent canvas mixer.

(** [n] timer ticks of the canvas. *)
Fixpoint canvas_ticks (n : nat) (canvas : MultiPeepDesktopCanvas.t)
    : Py.M MultiPeepDesktopCanvas.t :=
  match n with
  | O => mret canvas
  | S n' =>
      canvas ← MultiPeepDesktopCanvas.update_peeps canvas;
      canvas_ticks n' canvas
  end.

(** The clicks the audio manager can receive through the panel and the
    canvas once the music was started. *)
Inductive audio_call : Set :=
| ToggleMute
| StopMusic.

Fixpoint audio_calls (calls : list audio_call) (audio : AudioManager.t)
    (mixer : Mixer) : AudioManager.t * Mixer :=
  match calls with
  | [] => (audio, mixer)
  | ToggleMute :: calls' =>
      let '(_, audio, mixer) := AudioManager.toggle_mute audio mixer in
      audio_calls calls' audio mixer
  | StopMusic :: calls' =>
      let '(audio, mixer) := AudioManager.stop_music audio mixer in
      audio_calls calls' audio mixer
  end.

(** The player does what the manager believes: it plays exactly when the
    manager says so, at volume 0 when muted and at [current_volume]
    otherwise. *)
Definition audio_consistent (audio : AudioManager.t) (mixer : Mixer) : Prop :=
  music_busy mixer = AudioManager.music_playing audio
  /\ music_volume mixer
     = if AudioManager.is_muted audio then 0%Q
       else AudioManager.current_volume audio.

(** [k] clicks on the minimize button. *)
Fixpoint minimize_clicks (k : nat) (screen_width screen_height : Z)
    (panel : ControlPanel.t) : ControlPanel.t :=
  match k with
  | O => panel
  | S k' =>
      minimize_clicks k' screen_width screen_height
        (ControlPanel.toggle_minimize screen_width screen_height panel)
  end.

(** [k] clicks on the mute button. *)
Fixpoint mute_clicks (k : nat) (panel : ControlPanel.t) (audio : AudioManager.t)
    (mixer : Mixer) : ControlPanel.t * AudioManager.t * Mixer :=
  match k with
  | O => (panel, audio, mixer)
  | S k' =>
      let '(panel, audio, mixer) := ControlPanel.toggle_mute panel audio mixer in
      mute_clicks k' panel audio mixer
  end.

(** Audio files for the examples: every path exists and loads. *)
Definition all_audio : AudioFiles :=
  {| path_exists := fun _ => true; music_loads := fun _ => true |}.

(** The panel is laid out for its state on a screen of the given size:
    10 pixels from the right edge, 60 from the bottom, 170 wide with all
    buttons when expanded and 50 wide with the minimize button only when
    minimized. *)
Definition panel_shape (screen_width screen_height : Z) (panel : ControlPanel.t)
    : Prop :=
  ControlPanel.pos panel
  = (screen_width - fst (ControlPanel.size panel) - 10, screen_height - 60)
  /\ ControlPanel.size panel
     = (if ControlPanel.is_minimized panel then (50, 50) else (170, 50))
  /\ button_visible (ControlPanel.mute_button panel)
     = negb (ControlPanel.is_minimized panel)
  /\ button_visible (ControlPanel.close_button panel)
     = negb (ControlPanel.is_minimized panel)
  /\ button_visible (ControlPanel.minimize_button panel) = true
  /\ button_text (ControlPanel.minimize_button panel)
     = (if ControlPanel.is_minimized panel then "+" else "−")%string.

(** A peep as the canvas leaves it after construction and [setup] on a
    screen of the given size: a fallback peep has its square placed at its
    position; an animated peep walks at speed 0.5 in one of the four
    directions with its bounding box inside the screen. *)
Definition peep_ready (screen_width screen_height : Z) (p : DesktopPeep.t) : Prop :=
  (DesktopPeep.use_fallback p = true ->
   item_pos (DesktopPeep.graphics_item p)
   = (inject_Z (DesktopPeep.x p), inject_Z (DesktopPeep.y p))
   /\ 0 <= DesktopPeep.x p <= 800 /\ 0 <= DesktopPeep.y p <= 600)
  /\ (DesktopPeep.use_fallback p = false ->
      SpriteAnimator.is_moving (DesktopPeep.animator p) = true
      /\ within_screen screen_width screen_height (DesktopPeep.animator p)
      /\ heading_ok (DesktopPeep.animator p)
      /\ SpriteAnimator.move_speed (DesktopPeep.animator p) = (1 # 2)%Q).

(** A peep whose [update] cannot raise: a fallback peep, or an animated
    one whose directions with frames all have [n] frames and whose frame
    index is below [n]. *)
Definition peep_safe (n : nat) (p : DesktopPeep.t) : Prop :=
  DesktopPeep.use_fallback p = true
  \/ (uniform_frames n (DesktopPeep.animator p)
      /\ 0 <= SpriteAnimator.current_frame_index (DesktopPeep.animator p)
         < Z.of_nat n).

(** A canvas of two fallback peeps on a 640 x 480 screen. *)
Definition fallback_canvas : MultiPeepDesktopCanvas.t :=
  MultiPeepDesktopCanvas.mk [corner_peep; corner_peep] 1 (fst AudioManager.init)
    640 480 16 (ControlPanel.init 640 480) true.

(** The five-frame peep of [walking_five_frames] as [DesktopPeep.__init__]
    and [setup] leave it, beside a fallback peep, on a 1920 x 1080 screen. *)
Definition mixed_canvas : MultiPeepDesktopCanvas.t :=
  MultiPeepDesktopCanvas.mk
    [corner_peep;
     DesktopPeep.mk (fst walking_five_frames) false None 0 0 0 0
       (mkItem Pixmap_null (0, 0)%Q)]
    1 (fst AudioManager.init) 1920 1080 16 (ControlPanel.init 1920 1080) true.

(** * Properties *)

(** ** Numbers and the monad *)

Lemma Qltb_lt (a b : Q) : Py.Qltb a b = true <-> (a < b)%Q.
Proof.
  unfold Py.Qltb. rewrite negb_true_iff, <- not_true_iff_false, Qle_bool_iff.
  split; [apply Qnot_le_lt | apply Qlt_not_le].
Qed.

Lemma Qltb_ge (a b : Q) : Py.Qltb a b = false <-> (b <= a)%Q.
Proof.
  unfold Py.Qltb. rewrite negb_false_iff. apply Qle_bool_iff.
Qed.

Lemma max_zero_nonneg (q : Q) : (0 <= Py.max 0 q)%Q.
Proof.
  unfold Py.max. destruct (Py.Qltb 0 q) eqn:E.
  - apply Qlt_le_weak, Qltb_lt, E.
  - apply Qle_refl.
Qed.

Lemma min_le_r (p b : Q) : (Py.min p b <= b)%Q.
Proof.
  unfold Py.min. destruct (Py.Qltb b p) eqn:E.
  - apply Qle_refl.
  - apply Qltb_ge, E.
Qed.

Lemma clamp_le_bound (p b : Q) : (0 <= b)%Q -> (Py.max 0 (Py.min p b) <= b)%Q.
Proof.
  intros Hb. unfold Py.max. destruct (Py.Qltb 0 (Py.min p b)); [apply min_le_r | exact Hb].
Qed.

Lemma clamp_zero (p b : Q) : (b <= 0)%Q -> Py.max 0 (Py.min p b) = 0%Q.
Proof.
  intros Hb. unfold Py.max. destruct (Py.Qltb 0 (Py.min p b)) eqn:E; [| reflexivity].
  apply Qltb_lt in E. exfalso.
  apply (Qlt_irrefl 0). eapply Qlt_le_trans; [exact E |].
  eapply Qle_trans; [apply min_le_r | exact Hb].
Qed.

Lemma randbelow_spec (n : Z) (w : Py.World) :
  Py.randbelow n w =
    Py.Ok (Z.of_N (Py.entropy w (Py.draws w)) mod n,
           Py.mkWorld (Py.wall_clock w) (Py.clock_reads w) (Py.entropy w)
             (S (Py.draws w))).
Proof. reflexivity. Qed.

Lemma randint_spec (a b : Z) (w : Py.World) :
  a <= b ->
  exists r,
    Py.randint a b w =
      Py.Ok (r, Py.mkWorld (Py.wall_clock w) (Py.clock_reads w) (Py.entropy w)
                  (S (Py.draws w)))
    /\ a <= r <= b
    /\ r = a + Z.of_N (Py.entropy w (Py.draws w)) mod (b + 1 - a).
Proof.
  intros Hab. exists (a + Z.of_N (Py.entropy w (Py.draws w)) mod (b + 1 - a)).
  unfold Py.randint. destruct (b + 1 - a <=? 0) eqn:E; [lia |].
  split; [reflexivity |]. split; [| reflexivity].
  pose proof (Z.mod_pos_bound (Z.of_N (Py.entropy w (Py.draws w))) (b + 1 - a)). lia.
Qed.

(** [random.choice([0, 1, 2, 3])] returns the draw itself: each of the four
    values of [_randbelow(4)] gives a different direction. *)
Lemma choice_direction_spec (w : Py.World) :
  Py.choice [0; 1; 2; 3] w =
    Py.Ok (Z.of_N (Py.entropy w (Py.draws w)) mod 4,
           Py.mkWorld (Py.wall_clock w) (Py.clock_reads w) (Py.entropy w)
             (S (Py.draws w))).
Proof.
  unfold Py.choice, Py.bind, Py.ret. rewrite randbelow_spec.
  change (Z.of_nat (length [0; 1; 2; 3])) with 4.
  pose proof (Z.mod_pos_bound (Z.of_N (Py.entropy w (Py.draws w))) 4 ltac:(lia)) as Hr.
  set (r := Z.of_N (Py.entropy w (Py.draws w)) mod 4) in *.
  assert (r = 0 \/ r = 1 \/ r = 2 \/ r = 3) as [-> | [-> | [-> | ->]]] by lia;
    reflexivity.
Qed.

(** ** set_direction *)

Lemma set_direction_fields (d : Z) (s : SpriteAnimator.t) :
  let s' := SpriteAnimator.set_direction d s in
  SpriteAnimator.current_direction s' = d
  /\ SpriteAnimator.direction_frames s' = SpriteAnimator.direction_frames s
  /\ SpriteAnimator.current_frame_index s' = SpriteAnimator.current_frame_index s
  /\ SpriteAnimator.frame_duration s' = SpriteAnimator.frame_duration s
  /\ SpriteAnimator.last_frame_time s' = SpriteAnimator.last_frame_time s
  /\ SpriteAnimator.pos_x s' = SpriteAnimator.pos_x s
  /\ SpriteAnimator.pos_y s' = SpriteAnimator.pos_y s
  /\ SpriteAnimator.move_speed s' = SpriteAnimator.move_speed s
  /\ SpriteAnimator.is_moving s' = SpriteAnimator.is_moving s
  /\ SpriteAnimator.next_direction_change_time s' =
       SpriteAnimator.next_direction_change_time s
  /\ SpriteAnimator.max_canvas_width s' = SpriteAnimator.max_canvas_width s
  /\ SpriteAnimator.max_canvas_height s' = SpriteAnimator.max_canvas_height s.
Proof.
  unfold SpriteAnimator.set_direction.
  destruct (d =? 0); [cbn; tauto |].
  destruct (d =? 1); [cbn; tauto |].
  destruct (d =? 2); [cbn; tauto |].
  destruct (d =? 3); cbn; tauto.
Qed.

(** C9. [set_direction d], for [d] in [0..3], records [d] as the current
    direction and sets the velocity to the diagonal [(sx * speed, sy * speed)]
    whose signs [(sx, sy)] are [(+,-)], [(+,+)], [(-,+)], [(-,-)] for
    [d = 0, 1, 2, 3]; with the (positive) movement speed of the program each
    component has the sign of the pattern and absolute value [move_speed]. *)
Theorem set_direction_diagonal (d : Z) (s : SpriteAnimator.t) :
  0 <= d <= 3 ->
  (0 < SpriteAnimator.move_speed s)%Q ->
  let speed := SpriteAnimator.move_speed s in
  let s' := SpriteAnimator.set_direction d s in
  let vx := SpriteAnimator.velocity_x s' in
  let vy := SpriteAnimator.velocity_y s' in
  SpriteAnimator.current_direction s' = d
  /\ SpriteAnimator.move_speed s' = speed
  /\ (d = 0 -> vx = speed /\ vy = (- speed)%Q /\ (0 < vx)%Q /\ (vy < 0)%Q)
  /\ (d = 1 -> vx = speed /\ vy = speed /\ (0 < vx)%Q /\ (0 < vy)%Q)
  /\ (d = 2 -> vx = (- speed)%Q /\ vy = speed /\ (vx < 0)%Q /\ (0 < vy)%Q)
  /\ (d = 3 -> vx = (- speed)%Q /\ vy = (- speed)%Q /\ (vx < 0)%Q /\ (vy < 0)%Q)
  /\ (Qabs vx == speed)%Q
  /\ (Qabs vy == speed)%Q.
Proof.
  intros Hd Hs speed s' vx vy.
  assert (Hneg : (- speed < 0)%Q).
  { apply (Qplus_lt_l _ _ speed). ring_simplify. exact Hs. }
  assert (Habs : (Qabs speed == speed)%Q) by (apply Qabs_pos, Qlt_le_weak, Hs).
  assert (Habsn : (Qabs (- speed) == speed)%Q) by (rewrite Qabs_opp; exact Habs).
  destruct (set_direction_fields d s) as (Hdir & _ & _ & _ & _ & _ & _ & Hsp & _).
  split; [exact Hdir |]. split; [exact Hsp |].
  assert (d = 0 \/ d = 1 \/ d = 2 \/ d = 3) as [-> | [-> | [-> | ->]]] by lia;
    subst vx vy s'; cbn; repeat split; intros; try lia;
    try reflexivity; try assumption.
Qed.

Lemma set_direction_diagonal_witness :
  SpriteAnimator.velocity_x (SpriteAnimator.set_direction 2 walker_example) = (- (1 # 2))%Q
  /\ SpriteAnimator.velocity_y (SpriteAnimator.set_direction 2 walker_example) = (1 # 2)%Q.
Proof.
  assert (H2 : 0 <= 2 <= 3) by lia.
  assert (Hs : (0 < SpriteAnimator.move_speed walker_example)%Q) by reflexivity.
  destruct (set_direction_diagonal 2 walker_example H2 Hs)
    as (_ & _ & _ & _ & H & _).
  destruct (H eq_refl) as (Hx & Hy & _). split; [exact Hx | exact Hy].
Defined.

(** ** The phases of update *)

Ltac py_unfold :=
  unfold mbind, mret, Py_mbind, Py_mret, Py.bind, Py.ret, Py.raise,
    Py.time_ms in *.

Lemma out_of_bounds_iff (W H : Z) (s : SpriteAnimator.t) :
  SpriteAnimator.out_of_bounds W H s = true <->
  (SpriteAnimator.pos_x s < 0
   \/ inject_Z (W - SpriteAnimator.max_canvas_width s) < SpriteAnimator.pos_x s
   \/ SpriteAnimator.pos_y s < 0
   \/ inject_Z (H - SpriteAnimator.max_canvas_height s) < SpriteAnimator.pos_y s)%Q.
Proof.
  unfold SpriteAnimator.out_of_bounds.
  rewrite !orb_true_iff, !Qltb_lt. tauto.
Qed.

Lemma move_unfold (W H : Z) (s : SpriteAnimator.t) :
  SpriteAnimator.move W H s =
    (self ← (if SpriteAnimator.out_of_bounds W H (moved s)
             then d ← Py.choice [0; 1; 2; 3];
                  mret (SpriteAnimator.set_direction d (moved s))
             else mret (moved s));
     let self :=
       SpriteAnimator.set_pos_x
         (Py.max 0 (Py.min (SpriteAnimator.pos_x self)
                      (inject_Z (W - SpriteAnimator.max_canvas_width self))))
         self in
     mret (SpriteAnimator.set_pos_y
             (Py.max 0 (Py.min (SpriteAnimator.pos_y self)
                          (inject_Z (H - SpriteAnimator.max_canvas_height self))))
             self)).
Proof. reflexivity. Qed.

Lemma move_spec (W H : Z) (s : SpriteAnimator.t) (w : Py.World) :
  exists s' w',
    SpriteAnimator.move W H s w = Py.Ok (s', w')
    /\ SpriteAnimator.pos_x s' =
         Py.max 0 (Py.min (SpriteAnimator.pos_x s + SpriteAnimator.velocity_x s)%Q
                          (inject_Z (W - SpriteAnimator.max_canvas_width s)))
    /\ SpriteAnimator.pos_y s' =
         Py.max 0 (Py.min (SpriteAnimator.pos_y s + SpriteAnimator.velocity_y s)%Q
                          (inject_Z (H - SpriteAnimator.max_canvas_height s)))
    /\ SpriteAnimator.is_moving s' = SpriteAnimator.is_moving s
    /\ SpriteAnimator.max_canvas_width s' = SpriteAnimator.max_canvas_width s
    /\ SpriteAnimator.max_canvas_height s' = SpriteAnimator.max_canvas_height s
    /\ SpriteAnimator.direction_frames s' = SpriteAnimator.direction_frames s
    /\ SpriteAnimator.current_frame_index s' = SpriteAnimator.current_frame_index s
    /\ SpriteAnimator.last_frame_time s' = SpriteAnimator.last_frame_time s
    /\ SpriteAnimator.frame_duration s' = SpriteAnimator.frame_duration s
    /\ SpriteAnimator.next_direction_change_time s' =
         SpriteAnimator.next_direction_change_time s
    /\ Py.wall_clock w' = Py.wall_clock w
    /\ Py.clock_reads w' = Py.clock_reads w
    /\ Py.entropy w' = Py.entropy w
    /\ (SpriteAnimator.out_of_bounds W H (moved s) = true ->
        let d := Z.of_N (Py.entropy w (Py.draws w)) mod 4 in
        SpriteAnimator.current_direction s' = d
        /\ SpriteAnimator.velocity_x s' =
             SpriteAnimator.velocity_x (SpriteAnimator.set_direction d s)
        /\ SpriteAnimator.velocity_y s' =
             SpriteAnimator.velocity_y (SpriteAnimator.set_direction d s)
        /\ Py.draws w' = S (Py.draws w))
    /\ (SpriteAnimator.out_of_bounds W H (moved s) = false ->
        SpriteAnimator.current_direction s' = SpriteAnimator.current_direction s
        /\ SpriteAnimator.velocity_x s' = SpriteAnimator.velocity_x s
        /\ SpriteAnimator.velocity_y s' = SpriteAnimator.velocity_y s
        /\ w' = w).
Proof.
  rewrite move_unfold.
  destruct (SpriteAnimator.out_of_bounds W H (moved s)) eqn:Eb.
  - py_unfold. rewrite choice_direction_spec.
    set (d := Z.of_N (Py.entropy w (Py.draws w)) mod 4).
    pose proof (set_direction_fields d (moved s)) as Hf. cbn zeta in Hf.
    destruct Hf as (Hd & Hfr & Hix & Hfd & Hlt & Hx & Hy & Hsp & Hm & Hn & Hw & Hh).
    eexists _, _. split; [reflexivity |]. cbn.
    rewrite Hx, Hy, Hw, Hh, Hm, Hfr, Hix, Hlt, Hfd, Hn. cbn.
    repeat split; try discriminate.
    + exact Hd.
    + unfold SpriteAnimator.set_direction, moved.
      destruct (d =? 0); [reflexivity |]. destruct (d =? 1); [reflexivity |].
      destruct (d =? 2); [reflexivity |]. destruct (d =? 3); reflexivity.
    + unfold SpriteAnimator.set_direction, moved.
      destruct (d =? 0); [reflexivity |]. destruct (d =? 1); [reflexivity |].
      destruct (d =? 2); [reflexivity |]. destruct (d =? 3); reflexivity.
  - py_unfold. eexists _, _. split; [reflexivity |]. cbn.
    repeat split; try discriminate.
Qed.

Lemma frame_animation_fields (ct : Z) (s : SpriteAnimator.t) :
  let s' := SpriteAnimator.frame_animation ct s in
  SpriteAnimator.is_moving s' = SpriteAnimator.is_moving s
  /\ SpriteAnimator.max_canvas_width s' = SpriteAnimator.max_canvas_width s
  /\ SpriteAnimator.max_canvas_height s' = SpriteAnimator.max_canvas_height s
  /\ SpriteAnimator.direction_frames s' = SpriteAnimator.direction_frames s
  /\ SpriteAnimator.current_direction s' = SpriteAnimator.current_direction s
  /\ SpriteAnimator.frame_duration s' = SpriteAnimator.frame_duration s
  /\ SpriteAnimator.next_direction_change_time s' =
       SpriteAnimator.next_direction_change_time s
  /\ SpriteAnimator.pos_x s' = SpriteAnimator.pos_x s
  /\ SpriteAnimator.pos_y s' = SpriteAnimator.pos_y s.
Proof.
  unfold SpriteAnimator.frame_animation.
  destruct (_ && _); cbn; tauto.
Qed.

Lemma random_direction_change_spec (ct : Z) (s : SpriteAnimator.t) (w : Py.World) :
  exists s' w',
    SpriteAnimator.random_direction_change ct s w = Py.Ok (s', w')
    /\ SpriteAnimator.is_moving s' = SpriteAnimator.is_moving s
    /\ SpriteAnimator.max_canvas_width s' = SpriteAnimator.max_canvas_width s
    /\ SpriteAnimator.max_canvas_height s' = SpriteAnimator.max_canvas_height s
    /\ SpriteAnimator.direction_frames s' = SpriteAnimator.direction_frames s
    /\ SpriteAnimator.current_frame_index s' = SpriteAnimator.current_frame_index s
    /\ SpriteAnimator.last_frame_time s' = SpriteAnimator.last_frame_time s
    /\ SpriteAnimator.frame_duration s' = SpriteAnimator.frame_duration s
    /\ Py.wall_clock w' = Py.wall_clock w
    /\ Py.clock_reads w' = Py.clock_reads w
    /\ Py.entropy w' = Py.entropy w
    /\ (SpriteAnimator.next_direction_change_time s <= ct ->
        ct + 1000 <= SpriteAnimator.next_direction_change_time s' <= ct + 3000
        /\ SpriteAnimator.current_direction s' =
             Z.of_N (Py.entropy w (Py.draws w)) mod 4)
    /\ (ct < SpriteAnimator.next_direction_change_time s -> s' = s /\ w' = w).
Proof.
  unfold SpriteAnimator.random_direction_change.
  destruct (SpriteAnimator.next_direction_change_time s <=? ct) eqn:E.
  - py_unfold. rewrite choice_direction_spec.
    set (d := Z.of_N (Py.entropy w (Py.draws w)) mod 4).
    set (w1 := Py.mkWorld _ _ _ _).
    destruct (randint_spec 1000 3000 w1 ltac:(lia)) as (r & -> & Hr & _).
    set (s1 := if negb (d =? SpriteAnimator.current_direction s)
               then SpriteAnimator.set_direction d s else s).
    assert (Hs1 : SpriteAnimator.current_direction s1 = d
                  /\ SpriteAnimator.is_moving s1 = SpriteAnimator.is_moving s
                  /\ SpriteAnimator.max_canvas_width s1 = SpriteAnimator.max_canvas_width s
                  /\ SpriteAnimator.max_canvas_height s1 = SpriteAnimator.max_canvas_height s
                  /\ SpriteAnimator.direction_frames s1 = SpriteAnimator.direction_frames s
                  /\ SpriteAnimator.current_frame_index s1
                     = SpriteAnimator.current_frame_index s
                  /\ SpriteAnimator.last_frame_time s1 = SpriteAnimator.last_frame_time s
                  /\ SpriteAnimator.frame_duration s1 = SpriteAnimator.frame_duration s).
    { subst s1. destruct (d =? SpriteAnimator.current_direction s) eqn:Ed; cbn [negb].
      - apply Z.eqb_eq in Ed. rewrite <- Ed. tauto.
      - pose proof (set_direction_fields d s) as Hf. cbn zeta in Hf. tauto. }
    destruct Hs1 as (Hd & Hm & Hw & Hh & Hfr & Hix & Hlt & Hfd).
    eexists _, _. split; [reflexivity |]. cbn.
    repeat split; try assumption; try lia.
  - py_unfold. eexists _, _. split; [reflexivity |].
    repeat split; try reflexivity; lia.
Qed.

Lemma randint_empty (a b : Z) (w : Py.World) :
  b < a -> Py.randint a b w = Py.Raise Py.ValueError.
Proof.
  intros Hab. unfold Py.randint. destruct (b + 1 - a <=? 0) eqn:E; [reflexivity | lia].
Qed.

(** ** setup_walking *)

(** The start coordinate [setup_walking] picks on one axis. *)
Lemma start_coordinate_spec (start : option Q) (room : Z) (w : Py.World) :
  (start = None -> 0 <= room) ->
  exists q w',
    (match start with
     | None => r ← Py.randint 0 room; mret (inject_Z r)
     | Some x => mret x
     end) w = Py.Ok (q, w')
    /\ Py.wall_clock w' = Py.wall_clock w
    /\ Py.clock_reads w' = Py.clock_reads w
    /\ (start = None -> (0 <= q <= inject_Z room)%Q)
    /\ (forall x, start = Some x -> q = x).
Proof.
  intros Hroom. destruct start as [x |].
  - exists x, w. py_unfold. repeat split; try discriminate. congruence.
  - destruct (randint_spec 0 room w (Hroom eq_refl)) as (r & Hr & Hb & _).
    py_unfold. rewrite Hr. eexists _, _. split; [reflexivity |]. cbn.
    repeat split; try discriminate.
    + change 0%Q with (inject_Z 0). rewrite <- Zle_Qle. lia.
    + rewrite <- Zle_Qle. lia.
Qed.

Lemma setup_walking_spec (W H : Z) (sx sy : option Q) (s : SpriteAnimator.t)
    (w : Py.World) :
  (sx = None -> SpriteAnimator.max_canvas_width s <= W) ->
  (sy = None -> SpriteAnimator.max_canvas_height s <= H) ->
  exists s' w',
    SpriteAnimator.setup_walking W H sx sy s w = Py.Ok (s', w')
    /\ SpriteAnimator.is_moving s' = true
    /\ SpriteAnimator.max_canvas_width s' = SpriteAnimator.max_canvas_width s
    /\ SpriteAnimator.max_canvas_height s' = SpriteAnimator.max_canvas_height s
    /\ SpriteAnimator.direction_frames s' = SpriteAnimator.direction_frames s
    /\ SpriteAnimator.current_frame_index s' = SpriteAnimator.current_frame_index s
    /\ 0 <= SpriteAnimator.current_direction s' <= 3
    /\ (let now := Py.wall_clock w (Py.clock_reads w) in
        now + 1000 <= SpriteAnimator.next_direction_change_time s' <= now + 3000)
    /\ (sx = None ->
        (0 <= SpriteAnimator.pos_x s'
         <= inject_Z (W - SpriteAnimator.max_canvas_width s))%Q)
    /\ (sy = None ->
        (0 <= SpriteAnimator.pos_y s'
         <= inject_Z (H - SpriteAnimator.max_canvas_height s))%Q)
    /\ (forall x, sx = Some x -> SpriteAnimator.pos_x s' = x)
    /\ (forall y, sy = Some y -> SpriteAnimator.pos_y s' = y).
Proof.
  intros Hx Hy. unfold SpriteAnimator.setup_walking.
  destruct (start_coordinate_spec sx (W - SpriteAnimator.max_canvas_width s) w
              ltac:(intros E; specialize (Hx E); lia))
    as (x & w1 & Ex & Hc1 & Hr1 & Hxr & Hxs).
  unfold mbind at 1, Py_mbind at 1, Py.bind at 1. rewrite Ex.
  change (SpriteAnimator.max_canvas_height (SpriteAnimator.set_pos_x x s))
    with (SpriteAnimator.max_canvas_height s).
  destruct (start_coordinate_spec sy (H - SpriteAnimator.max_canvas_height s) w1
              ltac:(intros E; specialize (Hy E); lia))
    as (y & w2 & Ey & Hc2 & Hr2 & Hyr & Hys).
  unfold mbind at 1, Py_mbind at 1, Py.bind at 1. rewrite Ey.
  destruct (randint_spec 0 3 w2 ltac:(lia)) as (d & Ed & Hd & _).
  unfold mbind at 1, Py_mbind at 1, Py.bind at 1. rewrite Ed.
  set (w3 := Py.mkWorld _ _ _ _).
  unfold mbind at 1, Py_mbind at 1, Py.bind at 1. unfold Py.time_ms.
  set (w4 := Py.mkWorld _ _ _ _).
  destruct (randint_spec 1000 3000 w4 ltac:(lia)) as (delay & Edl & Hdl & _).
  unfold mbind at 1, Py_mbind at 1, Py.bind at 1. rewrite Edl.
  set (s1 := SpriteAnimator.set_pos_y y (SpriteAnimator.set_pos_x x s)).
  pose proof (set_direction_fields d s1) as Hf. cbn zeta in Hf.
  destruct Hf as (Hdir & Hfr & Hix & Hfd & Hlt & Hpx & Hpy & Hsp & Hm & Hn & Hmw & Hmh).
  eexists _, _. split; [reflexivity |]. cbn.
  rewrite Hdir, Hfr, Hix, Hpx, Hpy, Hmw, Hmh. cbn.
  replace (Py.wall_clock w2 (Py.clock_reads w2))
    with (Py.wall_clock w (Py.clock_reads w)) by congruence.
  repeat split; try assumption; try lia;
    try (apply Hxr; assumption); try (apply Hyr; assumption).
Qed.

Lemma setup_walking_raises (W H : Z) (sx sy : option Q) (s : SpriteAnimator.t)
    (w : Py.World) :
  (sx = None /\ W < SpriteAnimator.max_canvas_width s)
  \/ (sy = None /\ H < SpriteAnimator.max_canvas_height s) ->
  SpriteAnimator.setup_walking W H sx sy s w = Py.Raise Py.ValueError.
Proof.
  intros Hbad. unfold SpriteAnimator.setup_walking.
  destruct sx as [x |].
  - destruct Hbad as [[Hn _] | [-> Hh]]; [discriminate |].
    py_unfold. cbn. rewrite randint_empty by lia. reflexivity.
  - destruct (Z_lt_le_dec W (SpriteAnimator.max_canvas_width s)) as [Hw | Hw].
    + py_unfold. rewrite randint_empty by lia. reflexivity.
    + destruct Hbad as [[_ Hlt] | [-> Hh]]; [lia |].
      destruct (randint_spec 0 (W - SpriteAnimator.max_canvas_width s) w
                  ltac:(lia)) as (r & Er & _).
      py_unfold. rewrite Er. cbn. rewrite randint_empty by lia. reflexivity.
Qed.

(** When [setup_walking] returns, a start coordinate it had to draw found
    room on the screen. *)
Lemma setup_walking_returns (W H : Z) (sx sy : option Q) (s s' : SpriteAnimator.t)
    (w w' : Py.World) :
  SpriteAnimator.setup_walking W H sx sy s w = Py.Ok (s', w') ->
  (sx = None -> SpriteAnimator.max_canvas_width s <= W)
  /\ (sy = None -> SpriteAnimator.max_canvas_height s <= H).
Proof.
  intros Hok.
  split; intros E.
  - destruct (Z_lt_le_dec W (SpriteAnimator.max_canvas_width s)) as [Hlt |]; [| assumption].
    rewrite setup_walking_raises in Hok by (left; split; assumption). discriminate.
  - destruct (Z_lt_le_dec H (SpriteAnimator.max_canvas_height s)) as [Hlt |]; [| assumption].
    rewrite setup_walking_raises in Hok by (right; split; assumption). discriminate.
Qed.

(** ** update *)

Lemma update_walking (W H : Z) (s : SpriteAnimator.t) (w : Py.World) :
  SpriteAnimator.is_moving s = true ->
  forall ct w0, Py.time_ms w = Py.Ok (ct, w0) ->
  exists s1 w1 s' w',
    SpriteAnimator.random_direction_change ct
      (SpriteAnimator.frame_animation ct s) w0 = Py.Ok (s1, w1)
    /\ SpriteAnimator.move W H s1 w1 = Py.Ok (s', w')
    /\ SpriteAnimator.update W H s w = Py.Ok (s', w').
Proof.
  intros Hm ct w0 Ht.
  destruct (random_direction_change_spec ct (SpriteAnimator.frame_animation ct s) w0)
    as (s1 & w1 & E1 & _).
  destruct (move_spec W H s1 w1) as (s' & w' & E2 & _).
  exists s1, w1, s', w'. split; [exact E1 |]. split; [exact E2 |].
  unfold SpriteAnimator.update. rewrite Hm. cbn [negb].
  unfold mbind at 1, Py_mbind at 1, Py.bind at 1. rewrite Ht.
  unfold mbind at 1, Py_mbind at 1, Py.bind at 1. rewrite E1. exact E2.
Qed.

Lemma update_not_walking (W H : Z) (s : SpriteAnimator.t) (w : Py.World) :
  SpriteAnimator.is_moving s = false ->
  SpriteAnimator.update W H s w = Py.Ok (s, w).
Proof.
  intros Hm. unfold SpriteAnimator.update. rewrite Hm. reflexivity.
Qed.

Lemma update_step (W H : Z) (s : SpriteAnimator.t) (w : Py.World) :
  SpriteAnimator.is_moving s = true ->
  exists s' w',
    SpriteAnimator.update W H s w = Py.Ok (s', w')
    /\ SpriteAnimator.is_moving s' = true
    /\ SpriteAnimator.max_canvas_width s' = SpriteAnimator.max_canvas_width s
    /\ SpriteAnimator.max_canvas_height s' = SpriteAnimator.max_canvas_height s
    /\ (exists p, SpriteAnimator.pos_x s' =
                  Py.max 0 (Py.min p (inject_Z (W - SpriteAnimator.max_canvas_width s))))
    /\ (exists p, SpriteAnimator.pos_y s' =
                  Py.max 0 (Py.min p (inject_Z (H - SpriteAnimator.max_canvas_height s)))).
Proof.
  intros Hm.
  destruct (update_walking W H s w Hm _ _ eq_refl) as (s1 & w1 & s' & w' & E1 & E2 & E).
  pose proof (frame_animation_fields (Py.wall_clock w (Py.clock_reads w)) s) as Hfa.
  cbn zeta in Hfa. destruct Hfa as (Hfm & Hfw & Hfh & _).
  destruct (random_direction_change_spec (Py.wall_clock w (Py.clock_reads w))
              (SpriteAnimator.frame_animation (Py.wall_clock w (Py.clock_reads w)) s)
              (Py.mkWorld (Py.wall_clock w) (S (Py.clock_reads w)) (Py.entropy w)
                 (Py.draws w)))
    as (s1' & w1' & E1' & Hrm & Hrw & Hrh & _).
  rewrite E1' in E1. injection E1 as -> ->.
  destruct (move_spec W H s1 w1) as (s2 & w2 & E2' & Hx & Hy & Hmm & Hmw & Hmh & _).
  rewrite E2' in E2. injection E2 as -> ->.
  exists s', w'. split; [exact E |].
  split; [congruence |]. split; [congruence |]. split; [congruence |].
  split; eexists.
  - rewrite Hx. do 3 f_equal. congruence.
  - rewrite Hy. do 3 f_equal. congruence.
Qed.

Lemma clamp_range (p : Q) (room : Z) :
  let q := Py.max 0 (Py.min p (inject_Z room)) in
  (0 <= q <= inject_Z (Z.max 0 room))%Q
  /\ (0 <= room -> (q <= inject_Z room)%Q)
  /\ (room <= 0 -> q = 0%Q).
Proof.
  cbn zeta. split; [split |]; [apply max_zero_nonneg | | split].
  - destruct (Z_le_gt_dec 0 room) as [Hr | Hr].
    + rewrite Z.max_r by lia. apply clamp_le_bound.
      change 0%Q with (inject_Z 0). rewrite <- Zle_Qle. exact Hr.
    + rewrite Z.max_l by lia. rewrite clamp_zero; [apply Qle_refl |].
      change 0%Q with (inject_Z 0). rewrite <- Zle_Qle. lia.
  - intros Hr. apply clamp_le_bound.
    change 0%Q with (inject_Z 0). rewrite <- Zle_Qle. exact Hr.
  - intros Hr. apply clamp_zero.
    change 0%Q with (inject_Z 0). rewrite <- Zle_Qle. exact Hr.
Qed.

Lemma ticks_clamped (n : nat) (W H : Z) :
  forall (s : SpriteAnimator.t) (w : Py.World),
    SpriteAnimator.is_moving s = true ->
    exists s' w',
      animator_ticks (S n) W H s w = Py.Ok (s', w')
      /\ SpriteAnimator.is_moving s' = true
      /\ SpriteAnimator.max_canvas_width s' = SpriteAnimator.max_canvas_width s
      /\ SpriteAnimator.max_canvas_height s' = SpriteAnimator.max_canvas_height s
      /\ (exists p, SpriteAnimator.pos_x s' =
                    Py.max 0 (Py.min p (inject_Z (W - SpriteAnimator.max_canvas_width s))))
      /\ (exists p, SpriteAnimator.pos_y s' =
                    Py.max 0 (Py.min p (inject_Z (H - SpriteAnimator.max_canvas_height s)))).
Proof.
  induction n as [| n IH]; intros s w Hm.
  - destruct (update_step W H s w Hm) as (s' & w' & E & Hrest).
    exists s', w'. split; [| exact Hrest].
    cbn [animator_ticks]. unfold mbind, Py_mbind, Py.bind. rewrite E. reflexivity.
  - destruct (update_step W H s w Hm) as (s1 & w1 & E & Hm1 & Hw1 & Hh1 & _).
    destruct (IH s1 w1 Hm1) as (s' & w' & E' & Hm' & Hw' & Hh' & Hx & Hy).
    exists s', w'. split.
    + change (animator_ticks (S (S n)) W H s w)
        with (Py.bind (animator_ticks (S n) W H) (SpriteAnimator.update W H s) w).
      unfold Py.bind. rewrite E. exact E'.
    + rewrite <- Hw1, <- Hh1. repeat split; try congruence; assumption.
Qed.

(** C1, as the code has it. After one or more [update] calls on a walking
    animator (one that went through [setup_walking]) the calls return and
    the position satisfies [0 <= pos_x <= max(0, screenW - max_canvas_width)]
    and [0 <= pos_y <= max(0, screenH - max_canvas_height)]: the bounds of
    the specification hold on every axis on which the bounding box fits the screen,
    and the coordinate is 0 on an axis on which it does not. *)
Theorem position_clamped_after_update
    (W0 H0 W H : Z) (sx sy : option Q) (s0 s : SpriteAnimator.t)
    (w0 w : Py.World) (n : nat) :
  SpriteAnimator.setup_walking W0 H0 sx sy s0 w0 = Py.Ok (s, w) ->
  exists s' w',
    animator_ticks (S n) W H s w = Py.Ok (s', w')
    /\ SpriteAnimator.max_canvas_width s' = SpriteAnimator.max_canvas_width s0
    /\ SpriteAnimator.max_canvas_height s' = SpriteAnimator.max_canvas_height s0
    /\ (0 <= SpriteAnimator.pos_x s'
        <= inject_Z (Z.max 0 (W - SpriteAnimator.max_canvas_width s')))%Q
    /\ (0 <= SpriteAnimator.pos_y s'
        <= inject_Z (Z.max 0 (H - SpriteAnimator.max_canvas_height s')))%Q
    /\ (SpriteAnimator.max_canvas_width s' <= W ->
        SpriteAnimator.max_canvas_height s' <= H -> within_screen W H s')
    /\ (W <= SpriteAnimator.max_canvas_width s' -> SpriteAnimator.pos_x s' = 0%Q)
    /\ (H <= SpriteAnimator.max_canvas_height s' -> SpriteAnimator.pos_y s' = 0%Q).
Proof.
  intros Hsetup.
  destruct (setup_walking_returns _ _ _ _ _ _ _ _ Hsetup) as (Hfx & Hfy).
  destruct (setup_walking_spec W0 H0 sx sy s0 w0 Hfx Hfy)
    as (s1 & w1 & E1 & Hm & Hw & Hh & _).
  rewrite E1 in Hsetup. injection Hsetup as -> ->.
  destruct (ticks_clamped n W H s w Hm)
    as (s' & w' & E & _ & Hw' & Hh' & (px & Hx) & (py & Hy)).
  exists s', w'. split; [exact E |].
  split; [congruence |]. split; [congruence |].
  rewrite Hw', Hh', Hx, Hy.
  pose proof (clamp_range px (W - SpriteAnimator.max_canvas_width s)) as Cx.
  pose proof (clamp_range py (H - SpriteAnimator.max_canvas_height s)) as Cy.
  cbn zeta in Cx, Cy. destruct Cx as (Cx1 & Cx2 & Cx3). destruct Cy as (Cy1 & Cy2 & Cy3).
  split; [exact Cx1 |]. split; [exact Cy1 |].
  split; [| split].
  - intros Hfw Hfh. unfold within_screen. rewrite Hw', Hh', Hx, Hy.
    split; (split; [apply max_zero_nonneg |]).
    + apply Cx2. lia.
    + apply Cy2. lia.
  - intros Hle. apply Cx3. lia.
  - intros Hle. apply Cy3. lia.
Qed.

Lemma position_clamped_after_update_witness :
  exists s w s' w',
    SpriteAnimator.setup_walking 1920 1080 None None walker_example
      (example_world [500; 300; 1; 0]%N) = Py.Ok (s, w)
    /\ animator_ticks 3 1920 1080 s w = Py.Ok (s', w')
    /\ within_screen 1920 1080 s'.
Proof.
  assert (exists s w,
            SpriteAnimator.setup_walking 1920 1080 None None walker_example
              (example_world [500; 300; 1; 0]%N) = Py.Ok (s, w))
    as (s & w & E) by (vm_compute; eauto).
  destruct (position_clamped_after_update 1920 1080 1920 1080 None None
              walker_example s _ w 2 E)
    as (s' & w' & E' & Hw & Hh & _ & _ & Hin & _).
  exists s, w, s', w'. split; [exact E |]. split; [exact E' |].
  apply Hin; [rewrite Hw | rewrite Hh]; vm_compute; discriminate.
Defined.

(** C1, as stated: the bounds [0 <= pos <= screenDim - boundingBoxDim] do
    not hold when the bounding box is larger than the screen. The 32 x 32
    peep updated on a 10 x 10 screen sits at x = 0, above the stated upper
    bound 10 - 32. *)
Lemma position_bounds_fail_on_small_screen :
  match small_screen_run with
  | Py.Ok (s', _) =>
      SpriteAnimator.is_moving s' = true
      /\ SpriteAnimator.max_canvas_width s' = 32
      /\ SpriteAnimator.pos_x s' = 0%Q
      /\ ~ within_screen 10 10 s'
  | Py.Raise _ => False
  end.
Proof.
  vm_compute. repeat split; try reflexivity.
  intros [[_ Hx] _]. apply Hx. reflexivity.
Qed.

(** ** The bounce *)

Lemma set_direction_velocity (d : Z) (a b : SpriteAnimator.t) :
  0 <= d <= 3 ->
  SpriteAnimator.move_speed a = SpriteAnimator.move_speed b ->
  SpriteAnimator.velocity_x (SpriteAnimator.set_direction d a)
  = SpriteAnimator.velocity_x (SpriteAnimator.set_direction d b)
  /\ SpriteAnimator.velocity_y (SpriteAnimator.set_direction d a)
     = SpriteAnimator.velocity_y (SpriteAnimator.set_direction d b).
Proof.
  intros Hd Hs.
  assert (d = 0 \/ d = 1 \/ d = 2 \/ d = 3) as [-> | [-> | [-> | ->]]] by lia;
    cbn; rewrite Hs; split; reflexivity.
Qed.

(** C6. In a walking animator's [update], let [s1] be the state the frame
    animation and the timed direction change leave, and [(px, py)] its
    position plus its velocity. The new position is [(px, py)] clamped,
    [max(0, min(p, screenDim - boundingBoxDim))] on each axis, whether or
    not a bounce occurred. When [(px, py)] is outside the bounds on either
    axis, the new direction is the value [d] of one draw from the four
    options (each outcome of the draw gives a different direction) and the
    velocity is that of [set_direction d], which depends on [d] and the
    speed only and not on the velocity before; otherwise direction and
    velocity are those of [s1] and nothing is drawn. *)
Theorem update_bounce_then_clamp
    (W H : Z) (s s1 : SpriteAnimator.t) (w w0 w1 : Py.World) (ct : Z) :
  SpriteAnimator.is_moving s = true ->
  Py.time_ms w = Py.Ok (ct, w0) ->
  SpriteAnimator.random_direction_change ct
    (SpriteAnimator.frame_animation ct s) w0 = Py.Ok (s1, w1) ->
  let px := (SpriteAnimator.pos_x s1 + SpriteAnimator.velocity_x s1)%Q in
  let py := (SpriteAnimator.pos_y s1 + SpriteAnimator.velocity_y s1)%Q in
  let room_x := inject_Z (W - SpriteAnimator.max_canvas_width s1) in
  let room_y := inject_Z (H - SpriteAnimator.max_canvas_height s1) in
  let d := Z.of_N (Py.entropy w1 (Py.draws w1)) mod 4 in
  exists s' w',
    SpriteAnimator.update W H s w = Py.Ok (s', w')
    /\ SpriteAnimator.pos_x s' = Py.max 0 (Py.min px room_x)
    /\ SpriteAnimator.pos_y s' = Py.max 0 (Py.min py room_y)
    /\ ((0 <= room_x)%Q -> (0 <= SpriteAnimator.pos_x s' <= room_x)%Q)
    /\ ((0 <= room_y)%Q -> (0 <= SpriteAnimator.pos_y s' <= room_y)%Q)
    /\ ((px < 0 \/ room_x < px \/ py < 0 \/ room_y < py)%Q ->
        0 <= d <= 3
        /\ SpriteAnimator.current_direction s' = d
        /\ Py.draws w' = S (Py.draws w1)
        /\ forall a, SpriteAnimator.move_speed a = SpriteAnimator.move_speed s1 ->
             SpriteAnimator.velocity_x s'
             = SpriteAnimator.velocity_x (SpriteAnimator.set_direction d a)
             /\ SpriteAnimator.velocity_y s'
                = SpriteAnimator.velocity_y (SpriteAnimator.set_direction d a))
    /\ (~ (px < 0 \/ room_x < px \/ py < 0 \/ room_y < py)%Q ->
        SpriteAnimator.current_direction s' = SpriteAnimator.current_direction s1
        /\ SpriteAnimator.velocity_x s' = SpriteAnimator.velocity_x s1
        /\ SpriteAnimator.velocity_y s' = SpriteAnimator.velocity_y s1
        /\ w' = w1).
Proof.
  intros Hm Ht E1 px py room_x room_y d.
  destruct (update_walking W H s w Hm ct w0 Ht) as (s1' & w1' & s' & w' & E1' & E2 & E).
  rewrite E1 in E1'. injection E1' as <- <-.
  destruct (move_spec W H s1 w1)
    as (s2 & w2 & E2' & Hx & Hy & _ & _ & _ & _ & _ & _ & _ & _ & _ & _ & _ & Hb & Hnb).
  rewrite E2 in E2'. injection E2' as <- <-.
  exists s', w'. split; [exact E |].
  split; [exact Hx |]. split; [exact Hy |].
  pose proof (out_of_bounds_iff W H (moved s1)) as Hiff.
  change (SpriteAnimator.pos_x (moved s1)) with px in Hiff.
  change (SpriteAnimator.pos_y (moved s1)) with py in Hiff.
  change (inject_Z (W - SpriteAnimator.max_canvas_width (moved s1))) with room_x in Hiff.
  change (inject_Z (H - SpriteAnimator.max_canvas_height (moved s1))) with room_y in Hiff.
  split; [| split; [| split]].
  - intros Hr. rewrite Hx. split; [apply max_zero_nonneg | apply clamp_le_bound, Hr].
  - intros Hr. rewrite Hy. split; [apply max_zero_nonneg | apply clamp_le_bound, Hr].
  - intros Hout. apply Hiff in Hout. destruct (Hb Hout) as (Hd & Hvx & Hvy & Hdr).
    assert (Hd4 : 0 <= d <= 3).
    { pose proof (Z.mod_pos_bound (Z.of_N (Py.entropy w1 (Py.draws w1))) 4). subst d. lia. }
    split; [exact Hd4 |]. split; [exact Hd |]. split; [exact Hdr |].
    intros a Ha. destruct (set_direction_velocity d a s1 Hd4 Ha) as (Hax & Hay).
    split; [etransitivity; [exact Hvx | symmetry; exact Hax]
           | etransitivity; [exact Hvy | symmetry; exact Hay]].
  - intros Hin. apply Hnb.
    destruct (SpriteAnimator.out_of_bounds W H (moved s1)) eqn:Eo; [| reflexivity].
    exfalso. apply Hin, Hiff. reflexivity.
Qed.

Lemma update_bounce_then_clamp_witness :
  exists s' w',
    SpriteAnimator.update 1920 1080 due_walker (example_world [3; 0; 1]%N)
      = Py.Ok (s', w')
    /\ SpriteAnimator.current_direction s' = 1
    /\ SpriteAnimator.pos_x s' = 0%Q.
Proof.
  pose proof (update_bounce_then_clamp 1920 1080 due_walker _
                (example_world [3; 0; 1]%N) _ _ _ eq_refl eq_refl eq_refl) as T.
  cbn zeta in T. destruct T as (s' & w' & E & Hx & _ & _ & _ & Hb & _).
  exists s', w'. split; [exact E |].
  destruct Hb as (_ & Hd & _); [left; reflexivity |].
  split; [rewrite Hd; reflexivity | rewrite Hx; reflexivity].
Defined.

(** ** Scheduling of the direction change *)

(** C8. A next direction-change time set by [setup_walking], or by the
    direction-change branch of [update] (taken by a walking animator whose
    scheduled time has come), lies in [[now + 1000, now + 3000]], where
    [now] is the clock reading of that call, and so is strictly later than
    [now]. *)
Theorem direction_change_scheduled_ahead
    (W H : Z) (s : SpriteAnimator.t) (w : Py.World) :
  let now := Py.wall_clock w (Py.clock_reads w) in
  (forall sx sy s' w',
      SpriteAnimator.setup_walking W H sx sy s w = Py.Ok (s', w') ->
      now + 1000 <= SpriteAnimator.next_direction_change_time s' <= now + 3000
      /\ now < SpriteAnimator.next_direction_change_time s')
  /\ (SpriteAnimator.is_moving s = true ->
      SpriteAnimator.next_direction_change_time s <= now ->
      exists s' w',
        SpriteAnimator.update W H s w = Py.Ok (s', w')
        /\ now + 1000 <= SpriteAnimator.next_direction_change_time s' <= now + 3000
        /\ now < SpriteAnimator.next_direction_change_time s').
Proof.
  intros now. split.
  - intros sx sy s' w' Hok.
    destruct (setup_walking_returns _ _ _ _ _ _ _ _ Hok) as (Hfx & Hfy).
    destruct (setup_walking_spec W H sx sy s w Hfx Hfy)
      as (s2 & w2 & E & _ & _ & _ & _ & _ & _ & Hn & _).
    rewrite E in Hok. injection Hok as <- <-. cbn zeta in Hn. subst now. lia.
  - intros Hm Hdue.
    destruct (update_walking W H s w Hm _ _ eq_refl) as (s1 & w1 & s' & w' & E1 & E2 & E).
    fold now in E1.
    destruct (random_direction_change_spec now (SpriteAnimator.frame_animation now s)
                (Py.mkWorld (Py.wall_clock w) (S (Py.clock_reads w)) (Py.entropy w)
                   (Py.draws w)))
      as (s1' & w1' & E1' & _ & _ & _ & _ & _ & _ & _ & _ & _ & _ & Hsched & _).
    rewrite E1 in E1'. injection E1' as <- <-.
    destruct (move_spec W H s1 w1)
      as (s2 & w2 & E2' & _ & _ & _ & _ & _ & _ & _ & _ & _ & Hn & _).
    rewrite E2 in E2'. injection E2' as <- <-.
    exists s', w'. split; [exact E |]. rewrite Hn.
    pose proof (frame_animation_fields now s) as Hfa. cbn zeta in Hfa.
    destruct Hfa as (_ & _ & _ & _ & _ & _ & Hfn & _).
    destruct Hsched as (Hs & _); [rewrite Hfn; exact Hdue |]. lia.
Qed.

Lemma direction_change_scheduled_ahead_witness :
  (exists s' w',
     SpriteAnimator.setup_walking 1920 1080 None None walker_example
       (example_world [500; 300; 1; 700]%N) = Py.Ok (s', w')
     /\ SpriteAnimator.next_direction_change_time s' = 1700000001700)
  /\ (exists s' w',
        SpriteAnimator.update 1920 1080 due_walker (example_world [3; 0; 1]%N)
          = Py.Ok (s', w')
        /\ 1700000000000 < SpriteAnimator.next_direction_change_time s').
Proof.
  split.
  - destruct (direction_change_scheduled_ahead 1920 1080 walker_example
                (example_world [500; 300; 1; 700]%N)) as (Hsetup & _).
    eexists _, _. split; [vm_compute; reflexivity |].
    specialize (Hsetup None None _ _ eq_refl). reflexivity.
  - destruct (direction_change_scheduled_ahead 1920 1080 due_walker
                (example_world [3; 0; 1]%N)) as (_ & Hupd).
    destruct Hupd as (s' & w' & E & _ & Hlt); [reflexivity | vm_compute; discriminate |].
    exists s', w'. split; [exact E | exact Hlt].
Defined.

(** ** The fallback peep *)

Lemma update_fallback_fields (W H : Z) (p : DesktopPeep.t) :
  let p' := DesktopPeep.update_fallback W H p in
  DesktopPeep.x p' = DesktopPeep.x p + DesktopPeep.dx p
  /\ DesktopPeep.y p' = DesktopPeep.y p + DesktopPeep.dy p
  /\ DesktopPeep.dx p' =
       (if (DesktopPeep.x p + DesktopPeep.dx p <? 0)
           || (W <? DesktopPeep.x p + DesktopPeep.dx p + 64)
        then - DesktopPeep.dx p else DesktopPeep.dx p)
  /\ DesktopPeep.dy p' =
       (if (DesktopPeep.y p + DesktopPeep.dy p <? 0)
           || (H <? DesktopPeep.y p + DesktopPeep.dy p + 64)
        then - DesktopPeep.dy p else DesktopPeep.dy p)
  /\ DesktopPeep.use_fallback p' = DesktopPeep.use_fallback p
  /\ DesktopPeep.animator p' = DesktopPeep.animator p.
Proof.
  destruct p as [a f fp x y dx dy g].
  cbv beta iota zeta delta
    [DesktopPeep.update_fallback DesktopPeep.x DesktopPeep.y DesktopPeep.dx
     DesktopPeep.dy DesktopPeep.use_fallback DesktopPeep.animator
     DesktopPeep.graphics_item DesktopPeep.fallback_pixmap
     DesktopPeep.set_x DesktopPeep.set_y DesktopPeep.set_dx DesktopPeep.set_dy
     DesktopPeep.set_graphics_item].
  destruct ((x + dx <? 0) || (W <? x + dx + 64));
    destruct ((y + dy <? 0) || (H <? y + dy + 64));
    repeat split; lia.
Qed.

Lemma outside_iff (lo hi v : Z) :
  (v <? lo) || (hi <? v + 64) = true <-> ~ (lo <= v /\ v + 64 <= hi).
Proof.
  rewrite orb_true_iff, !Z.ltb_lt. lia.
Qed.

(** C7, as the code has it. Each update of a fallback peep adds [(dx, dy)]
    to the position and then inverts a velocity component exactly when the
    new position is outside the screen on its axis. For a peep that was
    within the screen on an axis before the tick, that is exactly a crossing
    of a bound of that axis, and the reflection is elastic: the next tick
    brings the peep back to where it was. *)
Theorem fallback_update_reflects
    (W H : Z) (p : DesktopPeep.t) (w : Py.World) :
  DesktopPeep.use_fallback p = true ->
  let p' := DesktopPeep.update_fallback W H p in
  DesktopPeep.update W H p w = Py.Ok (p', w)
  /\ DesktopPeep.x p' = DesktopPeep.x p + DesktopPeep.dx p
  /\ DesktopPeep.y p' = DesktopPeep.y p + DesktopPeep.dy p
  /\ (~ inside_x W p' -> DesktopPeep.dx p' = - DesktopPeep.dx p)
  /\ (inside_x W p' -> DesktopPeep.dx p' = DesktopPeep.dx p)
  /\ (~ inside_y H p' -> DesktopPeep.dy p' = - DesktopPeep.dy p)
  /\ (inside_y H p' -> DesktopPeep.dy p' = DesktopPeep.dy p)
  /\ (inside_x W p -> DesktopPeep.dx p <> 0 ->
      (DesktopPeep.dx p' = - DesktopPeep.dx p <-> crossed_x W p p'))
  /\ (inside_y H p -> DesktopPeep.dy p <> 0 ->
      (DesktopPeep.dy p' = - DesktopPeep.dy p <-> crossed_y H p p'))
  /\ (crossed_x W p p' ->
      DesktopPeep.x (DesktopPeep.update_fallback W H p') = DesktopPeep.x p)
  /\ (crossed_y H p p' ->
      DesktopPeep.y (DesktopPeep.update_fallback W H p') = DesktopPeep.y p).
Proof.
  intros Hfb p'.
  pose proof (update_fallback_fields W H p) as F. cbn zeta in F. fold p' in F.
  destruct F as (Hx & Hy & Hdx & Hdy & _).
  pose proof (update_fallback_fields W H p') as F'. cbn zeta in F'.
  destruct F' as (Hx' & Hy' & _).
  pose proof (outside_iff 0 W (DesktopPeep.x p + DesktopPeep.dx p)) as Ox.
  pose proof (outside_iff 0 H (DesktopPeep.y p + DesktopPeep.dy p)) as Oy.
  assert (Hdx' : (~ inside_x W p' -> DesktopPeep.dx p' = - DesktopPeep.dx p)
                 /\ (inside_x W p' -> DesktopPeep.dx p' = DesktopPeep.dx p)).
  { unfold inside_x. rewrite Hx, Hdx.
    destruct ((DesktopPeep.x p + DesktopPeep.dx p <? 0)
              || (W <? DesktopPeep.x p + DesktopPeep.dx p + 64));
      split; intros; try reflexivity.
    - exfalso. apply (proj1 Ox); trivial.
    - exfalso. destruct Ox as [_ Ox]. specialize (Ox ltac:(assumption)). discriminate. }
  assert (Hdy' : (~ inside_y H p' -> DesktopPeep.dy p' = - DesktopPeep.dy p)
                 /\ (inside_y H p' -> DesktopPeep.dy p' = DesktopPeep.dy p)).
  { unfold inside_y. rewrite Hy, Hdy.
    destruct ((DesktopPeep.y p + DesktopPeep.dy p <? 0)
              || (H <? DesktopPeep.y p + DesktopPeep.dy p + 64));
      split; intros; try reflexivity.
    - exfalso. apply (proj1 Oy); trivial.
    - exfalso. destruct Oy as [_ Oy]. specialize (Oy ltac:(assumption)). discriminate. }
  destruct Hdx' as (Hdx1 & Hdx2). destruct Hdy' as (Hdy1 & Hdy2).
  split.
  { unfold DesktopPeep.update. rewrite Hfb. reflexivity. }
  split; [exact Hx |]. split; [exact Hy |].
  split; [exact Hdx1 |]. split; [exact Hdx2 |].
  split; [exact Hdy1 |]. split; [exact Hdy2 |].
  split; [| split; [| split]].
  - intros Hin Hnz. unfold crossed_x. split.
    + intros Hflip. split; [exact Hin |]. intros Hin'.
      specialize (Hdx2 Hin'). lia.
    + intros (_ & Hout). apply Hdx1, Hout.
  - intros Hin Hnz. unfold crossed_y. split.
    + intros Hflip. split; [exact Hin |]. intros Hin'.
      specialize (Hdy2 Hin'). lia.
    + intros (_ & Hout). apply Hdy1, Hout.
  - intros (_ & Hout). rewrite Hx', Hx, (Hdx1 Hout). lia.
  - intros (_ & Hout). rewrite Hy', Hy, (Hdy1 Hout). lia.
Qed.

(** C7, as stated: a peep placed at [x = 800] on a 640 x 480 screen is
    outside the screen from the start; its [dx] is inverted on the first
    tick, and again on the second, although no bound is crossed. *)
Lemma fallback_flips_without_crossing :
  match fallback_peep_run with
  | Py.Ok (p, _) =>
      let p1 := DesktopPeep.update_fallback 640 480 p in
      let p2 := DesktopPeep.update_fallback 640 480 p1 in
      DesktopPeep.use_fallback p = true
      /\ DesktopPeep.x p = 800 /\ DesktopPeep.dx p = 1
      /\ DesktopPeep.x p1 = 801 /\ DesktopPeep.dx p1 = -1
      /\ DesktopPeep.x p2 = 800 /\ DesktopPeep.dx p2 = 1
      /\ ~ crossed_x 640 p p1
      /\ ~ crossed_x 640 p1 p2
      /\ ~ reflects_on_crossing_only 640 480 p
  | Py.Raise _ => False
  end.
Proof.
  vm_compute. repeat split; try reflexivity.
  - intros [[_ Hin] _]. apply Hin. reflexivity.
  - intros [[_ Hin] _]. apply Hin. reflexivity.
  - intros [[Hflip _] _]. destruct (Hflip eq_refl) as [[_ Hin] _].
    apply Hin. reflexivity.
Qed.

Lemma fallback_update_reflects_witness :
  DesktopPeep.x (DesktopPeep.update_fallback 640 480 corner_peep) = -1
  /\ DesktopPeep.dx (DesktopPeep.update_fallback 640 480 corner_peep) = 2
  /\ crossed_x 640 corner_peep (DesktopPeep.update_fallback 640 480 corner_peep).
Proof.
  destruct (fallback_update_reflects 640 480 corner_peep (example_world []) eq_refl)
    as (_ & Hx & _ & _ & _ & _ & _ & Hiff & _).
  split; [exact Hx |]. split; [reflexivity |].
  apply Hiff.
  - unfold inside_x. cbn. lia.
  - cbn. lia.
  - reflexivity.
Defined.

(** ** Construction of a peep *)

Lemma bind_ok {A B} (f : A -> Py.M B) (c : Py.M A) (w w'' : Py.World) (b : B) :
  (c ≫= f) w = Py.Ok (b, w'') ->
  exists a w', c w = Py.Ok (a, w') /\ f a w' = Py.Ok (b, w'').
Proof.
  unfold mbind, Py_mbind, Py.bind. destruct (c w) as [[a w'] | e]; [| discriminate].
  intros Hf. exists a, w'. split; [reflexivity | exact Hf].
Qed.

Lemma load_sheets_true_iff (pf : Platform) (dir : string) (todo : list Z) :
  forall a : SpriteAnimator.t,
    fst (SpriteAnimator.load_sheets pf dir todo a) = true <->
    (forall n, n ∈ todo ->
       isNull (load_pixmap pf (SpriteAnimator.sheet_filename dir n)) = false).
Proof.
  induction todo as [| n todo IH]; intros a; cbn [SpriteAnimator.load_sheets].
  - split; [intros _ n Hn; inversion Hn | reflexivity].
  - destruct (isNull (load_pixmap pf (SpriteAnimator.sheet_filename dir n))) eqn:En.
    + cbn. split; [discriminate |]. intros Hall.
      specialize (Hall n ltac:(left)). congruence.
    + rewrite IH. split.
      * intros Hall m Hm. apply elem_of_cons in Hm as [-> | Hm]; [exact En | auto].
      * intros Hall m Hm. apply Hall. right. exact Hm.
Qed.

(** The loop stops at the first sheet that does not load: the sheets before
    it are cached, the ones after it are not looked at. *)
Lemma load_sheets_first_failure (pf : Platform) (dir : string)
    (before : list Z) (n : Z) (rest : list Z) :
  forall a : SpriteAnimator.t,
    (forall m, m ∈ before ->
       isNull (load_pixmap pf (SpriteAnimator.sheet_filename dir m)) = false) ->
    isNull (load_pixmap pf (SpriteAnimator.sheet_filename dir n)) = true ->
    SpriteAnimator.load_sheets pf dir (before ++ n :: rest) a
    = (false, snd (SpriteAnimator.load_sheets pf dir before a)).
Proof.
  induction before as [| m before IH]; intros a Hbefore Hn.
  - cbn. rewrite Hn. reflexivity.
  - cbn [app SpriteAnimator.load_sheets].
    rewrite (Hbefore m ltac:(left)). apply IH; [| exact Hn].
    intros k Hk. apply Hbefore. right. exact Hk.
Qed.

Lemma load_spritesheet_false_iff (pf : Platform) (dir : string) (a : SpriteAnimator.t) :
  fst (SpriteAnimator.load_spritesheet pf dir a) = false <->
  exists n, n ∈ SpriteAnimator.sheet_numbers a
            /\ isNull (load_pixmap pf (SpriteAnimator.sheet_filename dir n)) = true.
Proof.
  unfold SpriteAnimator.load_spritesheet.
  rewrite <- not_true_iff_false, load_sheets_true_iff. split.
  - intros Hnot.
    destruct (decide (Exists
                (fun n => isNull (load_pixmap pf (SpriteAnimator.sheet_filename dir n)) = true)
                (elements (SpriteAnimator.sheet_numbers a)))) as [Hex | Hnex].
    + apply Exists_exists in Hex as (n & Hn & Hnull).
      exists n. split; [apply elem_of_elements; exact Hn | exact Hnull].
    + exfalso. apply Hnot. intros n Hn.
      destruct (isNull (load_pixmap pf (SpriteAnimator.sheet_filename dir n))) eqn:En;
        [| reflexivity].
      exfalso. apply Hnex, Exists_exists. exists n. split; [exact Hn | exact En].
  - intros (n & Hn & Hnull) Hall.
    rewrite (Hall n) in Hnull; [discriminate | apply elem_of_elements; exact Hn].
Qed.

Lemma init_use_fallback (pf : Platform) (ids : list Z) (nfo dir : string)
    (scale : Q) (w w' : Py.World) (p : DesktopPeep.t) :
  DesktopPeep.init pf ids nfo dir scale w = Py.Ok (p, w') ->
  let info := SpriteAnimator.load_sprite_info pf nfo (SpriteAnimator.init scale) in
  DesktopPeep.use_fallback p =
    negb (fst info && fst (SpriteAnimator.load_spritesheet pf dir (snd info))).
Proof.
  unfold DesktopPeep.init. cbn zeta.
  destruct (SpriteAnimator.load_sprite_info pf nfo (SpriteAnimator.init scale))
    as [info_ok a1].
  cbn [fst snd].
  destruct info_ok; cbn [negb andb].
  - destruct (SpriteAnimator.load_spritesheet pf dir a1) as [loaded a2].
    cbn [fst]. destruct loaded; cbn [negb].
    + intros Hok. apply bind_ok in Hok as (a3 & w3 & _ & Hret).
      py_unfold. injection Hret as <- <-. reflexivity.
    + intros Hok.
      apply bind_ok in Hok as (x & w1 & _ & Hok).
      apply bind_ok in Hok as (y & w2 & _ & Hok).
      apply bind_ok in Hok as (dx & w3 & _ & Hok).
      apply bind_ok in Hok as (dy & w4 & _ & Hret).
      py_unfold. injection Hret as <- <-. reflexivity.
  - intros Hok.
    apply bind_ok in Hok as (x & w1 & _ & Hok).
    apply bind_ok in Hok as (y & w2 & _ & Hok).
    apply bind_ok in Hok as (dx & w3 & _ & Hok).
    apply bind_ok in Hok as (dy & w4 & _ & Hret).
    py_unfold. injection Hret as <- <-. reflexivity.
Qed.

Lemma setup_keeps_representation (W H : Z) (p p' : DesktopPeep.t) (w w' : Py.World) :
  DesktopPeep.setup W H p w = Py.Ok (p', w') ->
  DesktopPeep.use_fallback p' = DesktopPeep.use_fallback p.
Proof.
  unfold DesktopPeep.setup. destruct (DesktopPeep.use_fallback p) eqn:Ef; cbn [negb].
  - py_unfold. intros Hret. injection Hret as <- <-. exact Ef.
  - intros Hok. apply bind_ok in Hok as (a & w1 & _ & Hret).
    py_unfold. injection Hret as <- <-. exact Ef.
Qed.

Lemma update_keeps_representation (W H : Z) (p p' : DesktopPeep.t) (w w' : Py.World) :
  DesktopPeep.update W H p w = Py.Ok (p', w') ->
  DesktopPeep.use_fallback p' = DesktopPeep.use_fallback p.
Proof.
  unfold DesktopPeep.update. destruct (DesktopPeep.use_fallback p) eqn:Ef.
  - py_unfold. intros Hret. injection Hret as <- <-.
    pose proof (update_fallback_fields W H p) as F. cbn zeta in F.
    destruct F as (_ & _ & _ & _ & Hu & _). rewrite Hu. exact Ef.
  - intros Hok. apply bind_ok in Hok as (a & w1 & _ & Hok).
    apply bind_ok in Hok as (frame & w2 & _ & Hret).
    destruct (SpriteAnimator.get_position a) as [x y].
    py_unfold. injection Hret as <- <-.
    destruct frame; exact Ef.
Qed.

Lemma lifetime_keeps_representation (calls : list peep_call) :
  forall (p p' : DesktopPeep.t) (w w' : Py.World),
    lifetime calls p w = Py.Ok (p', w') ->
    DesktopPeep.use_fallback p' = DesktopPeep.use_fallback p.
Proof.
  induction calls as [| [W H | W H] calls IH]; intros p p' w w' Hrun;
    cbn [lifetime] in Hrun.
  - py_unfold. injection Hrun as <- <-. reflexivity.
  - apply bind_ok in Hrun as (p1 & w1 & Hs & Hrest).
    rewrite (IH _ _ _ _ Hrest). eapply setup_keeps_representation, Hs.
  - apply bind_ok in Hrun as (p1 & w1 & Hu & Hrest).
    rewrite (IH _ _ _ _ Hrest). eapply update_keeps_representation, Hu.
Qed.

(** C10. A constructed [DesktopPeep] uses the fallback square exactly when
    [load_sprite_info] fails or one of the sheets the metadata refers to
    does not load ([load_spritesheet] fails exactly then, stopping at the
    first such sheet), and no later [setup] or [update] call changes the
    representation. *)
Theorem fallback_iff_loading_fails
    (pf : Platform) (ids : list Z) (nfo dir : string) (scale : Q)
    (w w' : Py.World) (p : DesktopPeep.t) :
  DesktopPeep.init pf ids nfo dir scale w = Py.Ok (p, w') ->
  let info := SpriteAnimator.load_sprite_info pf nfo (SpriteAnimator.init scale) in
  let missing_sheet :=
    exists n, n ∈ SpriteAnimator.sheet_numbers (snd info)
              /\ isNull (load_pixmap pf (SpriteAnimator.sheet_filename dir n)) = true in
  (DesktopPeep.use_fallback p = true <-> fst info = false \/ missing_sheet)
  /\ (fst (SpriteAnimator.load_spritesheet pf dir (snd info)) = false <-> missing_sheet)
  /\ (forall before n rest a,
        (forall m, m ∈ before ->
           isNull (load_pixmap pf (SpriteAnimator.sheet_filename dir m)) = false) ->
        isNull (load_pixmap pf (SpriteAnimator.sheet_filename dir n)) = true ->
        SpriteAnimator.load_sheets pf dir (before ++ n :: rest) a
        = (false, snd (SpriteAnimator.load_sheets pf dir before a)))
  /\ (forall calls p2 w1 w2,
        lifetime calls p w1 = Py.Ok (p2, w2) ->
        DesktopPeep.use_fallback p2 = DesktopPeep.use_fallback p).
Proof.
  intros Hinit info missing_sheet.
  pose proof (init_use_fallback _ _ _ _ _ _ _ _ Hinit) as Hu. cbn zeta in Hu.
  fold info in Hu.
  pose proof (load_spritesheet_false_iff pf dir (snd info)) as Hsheet.
  fold missing_sheet in Hsheet.
  split; [| split; [exact Hsheet | split]].
  - rewrite Hu, negb_true_iff, andb_false_iff, Hsheet. reflexivity.
  - intros before n rest a. apply load_sheets_first_failure.
  - intros calls p2 w1 w2. apply lifetime_keeps_representation.
Qed.

Lemma fallback_iff_loading_fails_witness :
  exists p w',
    DesktopPeep.init bare_platform [11301; 6409; 6505] "./output/sprites.nfo"
      "./output/" 1 (example_world [800; 0; 2; 2]%N) = Py.Ok (p, w')
    /\ DesktopPeep.use_fallback p = true
    /\ DesktopPeep.use_fallback (DesktopPeep.update_fallback 640 480 p) = true.
Proof.
  assert (exists p w',
            DesktopPeep.init bare_platform [11301; 6409; 6505] "./output/sprites.nfo"
              "./output/" 1 (example_world [800; 0; 2; 2]%N) = Py.Ok (p, w'))
    as (p & w' & E) by (vm_compute; eauto).
  destruct (fallback_iff_loading_fails _ _ _ _ _ _ _ _ E) as (Hiff & _ & _ & Hlife).
  assert (Hfb : DesktopPeep.use_fallback p = true) by (apply Hiff; left; reflexivity).
  exists p, w'. split; [exact E |]. split; [exact Hfb |].
  transitivity (DesktopPeep.use_fallback p); [| exact Hfb].
  apply (Hlife [Update 640 480] _ w' w').
  cbn [lifetime]. unfold mbind, Py_mbind, Py.bind, DesktopPeep.update.
  rewrite Hfb. reflexivity.
Defined.

(** ** The frame index *)

(** C2, on the code: the frame index is not brought back into range when the
    direction changes. The peep with two frames in direction 0 and one in
    direction 1 reaches, after 63 updates, direction 1 with frame index 1:
    the frame list is not empty, the index equals its length, and
    [get_current_frame] raises [IndexError]. On a [DesktopPeep] the first
    62 ticks pass and the 63rd raises. *)
Theorem stale_frame_index_raises :
  match stale_index_run with
  | Py.Ok (s, _) =>
      SpriteAnimator.current_direction s = 1
      /\ length (SpriteAnimator.current_frames s) = 1%nat
      /\ SpriteAnimator.current_frame_index s = 1
      /\ SpriteAnimator.get_current_frame s = Py.Raise Py.IndexError
  | Py.Raise _ => False
  end
  /\ (exists p w, peep_run 62 = Py.Ok (p, w) /\ DesktopPeep.use_fallback p = false)
  /\ peep_run 63 = Py.Raise Py.IndexError.
Proof.
  split; [vm_compute; repeat split; reflexivity |].
  split.
  - destruct (peep_run 62) as [[p w] |] eqn:E.
    + exists p, w. split; [reflexivity |].
      revert E. vm_compute. intros E. injection E as <- _. reflexivity.
    + exfalso. revert E. vm_compute. discriminate.
  - vm_compute. reflexivity.
Qed.

Lemma frame_animation_spec (ct : Z) (s : SpriteAnimator.t) :
  let s' := SpriteAnimator.frame_animation ct s in
  let count := Z.of_nat (length (SpriteAnimator.current_frames s)) in
  (SpriteAnimator.current_frames s <> [] ->
   SpriteAnimator.frame_duration s <= ct - SpriteAnimator.last_frame_time s ->
   SpriteAnimator.current_frame_index s'
   = (SpriteAnimator.current_frame_index s + 1) mod count
   /\ SpriteAnimator.last_frame_time s' = ct)
  /\ (SpriteAnimator.current_frames s = []
      \/ ct - SpriteAnimator.last_frame_time s < SpriteAnimator.frame_duration s ->
      s' = s).
Proof.
  unfold SpriteAnimator.frame_animation. cbn zeta.
  destruct (bool_decide (SpriteAnimator.current_frames s = [])) eqn:Ee;
    [apply bool_decide_eq_true in Ee | apply bool_decide_eq_false in Ee]; cbn [negb andb].
  - split; [intros Hne; contradiction | reflexivity].
  - destruct (SpriteAnimator.frame_duration s
              <=? ct - SpriteAnimator.last_frame_time s) eqn:Ed;
      [apply Z.leb_le in Ed | apply Z.leb_gt in Ed].
    + split; [intros _ _; split; reflexivity |].
      intros [He | Hlt]; [contradiction | lia].
    + split; [intros _ Hle; lia | reflexivity].
Qed.

(** What one [update] does to the frame clock, walking or not. *)
Lemma update_frame_clock (W H : Z) (s : SpriteAnimator.t) (w : Py.World) :
  exists s' w',
    SpriteAnimator.update W H s w = Py.Ok (s', w')
    /\ SpriteAnimator.frame_duration s' = SpriteAnimator.frame_duration s
    /\ (SpriteAnimator.last_frame_time s' = SpriteAnimator.last_frame_time s
        \/ SpriteAnimator.frame_duration s
           <= SpriteAnimator.last_frame_time s' - SpriteAnimator.last_frame_time s).
Proof.
  destruct (SpriteAnimator.is_moving s) eqn:Hm.
  - destruct (update_walking W H s w Hm _ _ eq_refl) as (s1 & w1 & s' & w' & E1 & E2 & E).
    set (now := Py.wall_clock w (Py.clock_reads w)) in *.
    destruct (random_direction_change_spec now (SpriteAnimator.frame_animation now s)
                (Py.mkWorld (Py.wall_clock w) (S (Py.clock_reads w)) (Py.entropy w)
                   (Py.draws w)))
      as (s1' & w1' & E1' & _ & _ & _ & _ & _ & Hlt1 & Hfd1 & _).
    rewrite E1 in E1'. injection E1' as <- <-.
    destruct (move_spec W H s1 w1)
      as (s2 & w2 & E2' & _ & _ & _ & _ & _ & _ & _ & Hlt2 & Hfd2 & _).
    rewrite E2 in E2'. injection E2' as <- <-.
    exists s', w'. split; [exact E |].
    pose proof (frame_animation_fields now s) as Hfa. cbn zeta in Hfa.
    destruct Hfa as (_ & _ & _ & _ & _ & Hfd0 & _).
    split; [congruence |].
    rewrite Hlt2, Hlt1.
    pose proof (frame_animation_spec now s) as Hs. cbn zeta in Hs.
    destruct Hs as (Hadv & Hstay).
    destruct (decide (SpriteAnimator.current_frames s = [])) as [He | Hne].
    + left. rewrite Hstay by (left; exact He). reflexivity.
    + destruct (Z_le_gt_dec (SpriteAnimator.frame_duration s)
                  (now - SpriteAnimator.last_frame_time s)) as [Hle | Hgt].
      * right. destruct (Hadv Hne Hle) as (_ & ->). exact Hle.
      * left. rewrite Hstay by (right; lia). reflexivity.
  - exists s, w. split; [apply update_not_walking, Hm |]. split; [reflexivity | left; reflexivity].
Qed.

Lemma last_cons_default {A} (l : list A) :
  forall a d : A, List.last (a :: l) d = List.last l a.
Proof.
  induction l as [| b l IH]; intros a d; [reflexivity |].
  change (List.last (a :: b :: l) d) with (List.last (b :: l) d).
  rewrite (IH b d), (IH b a). reflexivity.
Qed.

Lemma trace_advances_bound (n : nat) (W H : Z) :
  forall (s : SpriteAnimator.t) (w : Py.World),
  exists trace w',
    animator_trace n W H s w = Py.Ok (trace, w')
    /\ length trace = n
    /\ Z.of_nat (frame_advances s trace) * SpriteAnimator.frame_duration s
       <= SpriteAnimator.last_frame_time (List.last trace s)
          - SpriteAnimator.last_frame_time s.
Proof.
  induction n as [| n IH]; intros s w.
  - exists [], w. split; [reflexivity |]. split; [reflexivity |]. cbn. lia.
  - destruct (update_frame_clock W H s w) as (s1 & w1 & E & Hfd & Hclock).
    destruct (IH s1 w1) as (trace & w' & Et & Hlen & Hbound).
    exists (s1 :: trace), w'. split; [| split].
    + cbn [animator_trace]. unfold mbind, Py_mbind, Py.bind, mret, Py_mret, Py.ret.
      rewrite E, Et. reflexivity.
    + cbn. rewrite Hlen. reflexivity.
    + assert (Hlast : List.last (s1 :: trace) s = List.last trace s1).
      { apply last_cons_default. }
      rewrite Hlast. cbn [frame_advances]. rewrite Hfd in Hbound.
      destruct (Z.eqb_spec (SpriteAnimator.last_frame_time s)
                  (SpriteAnimator.last_frame_time s1)) as [Heq | Hne].
      * rewrite Heq. cbn [Nat.add]. exact Hbound.
      * destruct Hclock as [Heq | Hle]; [congruence |].
        rewrite Nat2Z.inj_add. change (Z.of_nat 1) with 1. lia.
Qed.

(** C5, as the code has it. For a walking animator whose current direction
    has frames, an [update] at clock reading [now] sets the frame index to
    [(index + 1) mod frame count] (one further, 0 after the last frame) and
    stamps [last_frame_time] with [now] when
    [now - last_frame_time >= frame_duration], and leaves both unchanged
    otherwise. Because an advance restarts the wait at the time of the
    update that made it, two advances are at least [frame_duration] apart:
    over any run of updates, [advances * frame_duration] is at most the time
    between the last advance before the run and the last advance in it. *)
Theorem frame_index_modulo_counter
    (W H : Z) (s : SpriteAnimator.t) (w : Py.World) :
  SpriteAnimator.is_moving s = true ->
  SpriteAnimator.current_frames s <> [] ->
  let now := Py.wall_clock w (Py.clock_reads w) in
  let count := Z.of_nat (length (SpriteAnimator.current_frames s)) in
  let i := SpriteAnimator.current_frame_index s in
  (exists s' w',
     SpriteAnimator.update W H s w = Py.Ok (s', w')
     /\ (SpriteAnimator.frame_duration s <= now - SpriteAnimator.last_frame_time s ->
         SpriteAnimator.current_frame_index s' = (i + 1) mod count
         /\ SpriteAnimator.last_frame_time s' = now
         /\ (0 <= i < count ->
             SpriteAnimator.current_frame_index s'
             = if i + 1 =? count then 0 else i + 1))
     /\ (now - SpriteAnimator.last_frame_time s < SpriteAnimator.frame_duration s ->
         SpriteAnimator.current_frame_index s' = i
         /\ SpriteAnimator.last_frame_time s' = SpriteAnimator.last_frame_time s))
  /\ (forall n,
      exists trace w',
        animator_trace n W H s w = Py.Ok (trace, w')
        /\ length trace = n
        /\ Z.of_nat (frame_advances s trace) * SpriteAnimator.frame_duration s
           <= SpriteAnimator.last_frame_time (List.last trace s)
              - SpriteAnimator.last_frame_time s).
Proof.
  intros Hm Hne now count i. split; [| intros n; apply trace_advances_bound].
  destruct (update_walking W H s w Hm _ _ eq_refl) as (s1 & w1 & s' & w' & E1 & E2 & E).
  fold now in E1.
  destruct (random_direction_change_spec now (SpriteAnimator.frame_animation now s)
              (Py.mkWorld (Py.wall_clock w) (S (Py.clock_reads w)) (Py.entropy w)
                 (Py.draws w)))
    as (s1' & w1' & E1' & _ & _ & _ & _ & Hix1 & Hlt1 & _).
  rewrite E1 in E1'. injection E1' as <- <-.
  destruct (move_spec W H s1 w1)
    as (s2 & w2 & E2' & _ & _ & _ & _ & _ & _ & Hix2 & Hlt2 & _).
  rewrite E2 in E2'. injection E2' as <- <-.
  exists s', w'. split; [exact E |].
  rewrite Hix2, Hix1, Hlt2, Hlt1.
  pose proof (frame_animation_spec now s) as Hs. cbn zeta in Hs.
  fold count i in Hs. destruct Hs as (Hadv & Hstay).
  split.
  - intros Hle. destruct (Hadv Hne Hle) as (Hi & Hl).
    split; [exact Hi |]. split; [exact Hl |].
    intros Hrange. rewrite Hi.
    destruct (Z.eqb_spec (i + 1) count) as [Heq | Hneq].
    + rewrite Heq. apply Z.mod_same. lia.
    + apply Z.mod_small. lia.
  - intros Hlt. rewrite Hstay by (right; exact Hlt). split; reflexivity.
Qed.

Lemma frame_index_modulo_counter_witness :
  exists s' w',
    SpriteAnimator.update 1920 1080 (fst walking_five_frames) (snd walking_five_frames)
      = Py.Ok (s', w')
    /\ SpriteAnimator.current_frame_index s' = 1
    /\ SpriteAnimator.last_frame_time s' = 1700000000016.
Proof.
  assert (Hm : SpriteAnimator.is_moving (fst walking_five_frames) = true)
    by (vm_compute; reflexivity).
  assert (Hne : SpriteAnimator.current_frames (fst walking_five_frames) <> [])
    by (vm_compute; discriminate).
  destruct (frame_index_modulo_counter 1920 1080 (fst walking_five_frames)
              (snd walking_five_frames) Hm Hne) as ((s' & w' & E & Hadv & _) & _).
  exists s', w'. split; [exact E |].
  destruct Hadv as (Hi & Hl & _); [vm_compute; discriminate |].
  split; [rewrite Hi | rewrite Hl]; vm_compute; reflexivity.
Defined.

(** C5, as stated: with updates every 16 ms the index advances once every
    112 ms, not once per 100 ms. Over the 1120 ms that 70 updates take after
    an advance, more than [frame_duration * frame count = 500], the index of
    the five-frame peep advances 10 times and not 1120 / 100 = 11 times. *)
Lemma frame_advances_lag_behind :
  match frame_counter_run with
  | Py.Ok (s, trace, w) =>
      let elapsed :=
        Py.wall_clock w (Nat.pred (Py.clock_reads w))
        - SpriteAnimator.last_frame_time s in
      SpriteAnimator.is_moving s = true
      /\ length (SpriteAnimator.current_frames s) = 5%nat
      /\ SpriteAnimator.frame_duration s = 100
      /\ length trace = 70%nat
      /\ elapsed = 1120
      /\ frame_advances s trace = 10%nat
      /\ SpriteAnimator.current_frame_index s = 1
      /\ SpriteAnimator.current_frame_index (List.last trace s) = 1
      /\ ~ advances_once_per_frame_duration s trace elapsed
  | Py.Raise _ => False
  end.
Proof.
  vm_compute. repeat split; try reflexivity.
  intros Hclaim. specialize (Hclaim eq_refl). discriminate.
Qed.

(** ** load_direction_frames *)

Lemma fold_max_spec (rest : list Z) :
  forall x : Z,
    let m := fold_left (fun m y => if m <? y then y else m) rest x in
    x <= m /\ (forall y, y ∈ rest -> y <= m) /\ (m = x \/ m ∈ rest).
Proof.
  induction rest as [| y rest IH]; intros x; cbn [fold_left].
  - split; [lia |]. split; [intros y Hy; inversion Hy | left; reflexivity].
  - destruct (IH (if x <? y then y else x)) as (Hle & Hall & Hin).
    destruct (Z.ltb_spec x y) as [Hlt | Hge].
    + split; [lia |]. split.
      * intros z Hz. apply elem_of_cons in Hz as [-> | Hz]; [exact Hle | auto].
      * destruct Hin as [-> | Hin]; right; [left | right; exact Hin].
    + split; [exact Hle |]. split.
      * intros z Hz. apply elem_of_cons in Hz as [-> | Hz]; [lia | auto].
      * destruct Hin as [-> | Hin]; [left; reflexivity | right; right; exact Hin].
Qed.

Lemma max_list_or_zero (l : list Z) :
  exists m,
    Py.max_list (Py.or_zero l) = Py.Ok m
    /\ (forall x, x ∈ l -> x <= m)
    /\ (l = [] -> m = 0)
    /\ (l <> [] -> m ∈ l).
Proof.
  destruct l as [| x rest].
  - exists 0. split; [reflexivity |]. split; [intros x Hx; inversion Hx |].
    split; [reflexivity | intros Hne; contradiction].
  - cbn [Py.or_zero Py.max_list].
    destruct (fold_max_spec rest x) as (Hle & Hall & Hin).
    eexists. split; [reflexivity |]. split; [| split].
    + intros z Hz. apply elem_of_cons in Hz as [-> | Hz]; [exact Hle | auto].
    + discriminate.
    + intros _. destruct Hin as [-> | Hin]; [left | right; exact Hin].
Qed.

Lemma elem_of_all_frames (f : SpriteFrame) (a : SpriteAnimator.t) :
  f ∈ SpriteAnimator.all_frames a <->
  exists d frames, SpriteAnimator.direction_frames a !! d = Some frames /\ f ∈ frames.
Proof.
  unfold SpriteAnimator.all_frames.
  rewrite list_elem_of_In, in_concat. split.
  - intros (frames & Hfs & Hf).
    apply list_elem_of_In, list_elem_of_fmap in Hfs as ([d l] & -> & Hdl).
    apply elem_of_map_to_list in Hdl.
    exists d, l. split; [exact Hdl | apply list_elem_of_In, Hf].
  - intros (d & frames & Hd & Hf). exists frames. split.
    + apply list_elem_of_In, list_elem_of_fmap. exists (d, frames).
      split; [reflexivity | apply elem_of_map_to_list, Hd].
    + apply list_elem_of_In, Hf.
Qed.

Lemma omap_pointwise {A B} (f g : A -> option B) (l : list A) :
  (forall x, f x = g x) -> omap f l = omap g l.
Proof.
  intros Hfg. induction l as [| x l IH]; [reflexivity |].
  cbn. rewrite Hfg, IH. reflexivity.
Qed.

Lemma slot_frame_ext (pf : Platform) (a b : SpriteAnimator.t) (base d f : Z) :
  SpriteAnimator.sprite_details a = SpriteAnimator.sprite_details b ->
  SpriteAnimator.spritesheets a = SpriteAnimator.spritesheets b ->
  SpriteAnimator.scale_factor a = SpriteAnimator.scale_factor b ->
  slot_frame pf a base d f = slot_frame pf b base d f.
Proof.
  intros Hd Hs Hf. unfold slot_frame. rewrite Hd, Hs, Hf. reflexivity.
Qed.

(** One slot: the frame of the slot, when there is one, is appended to the
    list of its direction. *)
Lemma load_frame_spec (pf : Platform) (base d f : Z) (a : SpriteAnimator.t) :
  let a' := SpriteAnimator.load_frame pf base d a f in
  SpriteAnimator.sprite_details a' = SpriteAnimator.sprite_details a
  /\ SpriteAnimator.spritesheets a' = SpriteAnimator.spritesheets a
  /\ SpriteAnimator.scale_factor a' = SpriteAnimator.scale_factor a
  /\ forall d',
       SpriteAnimator.direction_frames a' !! d' =
         if decide (d' = d)
         then (fun l => l ++ option_list (slot_frame pf a base d f))
                <$> (SpriteAnimator.direction_frames a !! d)
         else SpriteAnimator.direction_frames a !! d'.
Proof.
  unfold SpriteAnimator.load_frame, slot_frame. cbn zeta.
  destruct (SpriteAnimator.sprite_details a !! (base + d + f * 4)) as [info |] eqn:Ei;
    cbn [mbind option_bind].
  - destruct (SpriteAnimator.spritesheets a !! sheet_num info) as [sheet |] eqn:Es;
      cbn [mbind option_bind option_list].
    + cbn. repeat split. intros d'. rewrite lookup_alter.
      destruct (decide (d' = d)) as [-> | Hne].
      * rewrite decide_True by reflexivity. reflexivity.
      * rewrite decide_False by (intros Heq; apply Hne; symmetry; exact Heq).
        reflexivity.
    + repeat split. intros d'. destruct (decide (d' = d)) as [-> | Hne]; [| reflexivity].
      destruct (SpriteAnimator.direction_frames a !! d); cbn; [| reflexivity].
      rewrite app_nil_r. reflexivity.
  - repeat split. intros d'. destruct (decide (d' = d)) as [-> | Hne]; [| reflexivity].
    destruct (SpriteAnimator.direction_frames a !! d); cbn; [| reflexivity].
    rewrite app_nil_r. reflexivity.
Qed.

(** The loop over the frame offsets of one direction. *)
Lemma load_frames_spec (pf : Platform) (base d : Z) (fs : list Z) :
  forall a : SpriteAnimator.t,
    let a' := fold_left (SpriteAnimator.load_frame pf base d) fs a in
    SpriteAnimator.sprite_details a' = SpriteAnimator.sprite_details a
    /\ SpriteAnimator.spritesheets a' = SpriteAnimator.spritesheets a
    /\ SpriteAnimator.scale_factor a' = SpriteAnimator.scale_factor a
    /\ forall d',
         SpriteAnimator.direction_frames a' !! d' =
           if decide (d' = d)
           then (fun l => l ++ omap (slot_frame pf a base d) fs)
                  <$> (SpriteAnimator.direction_frames a !! d)
           else SpriteAnimator.direction_frames a !! d'.
Proof.
  induction fs as [| f fs IH]; intros a; cbn [fold_left].
  - repeat split. intros d'. destruct (decide (d' = d)) as [-> | Hne]; [| reflexivity].
    destruct (SpriteAnimator.direction_frames a !! d); cbn; [| reflexivity].
    rewrite app_nil_r. reflexivity.
  - pose proof (load_frame_spec pf base d f a) as H1. cbn zeta in H1.
    destruct H1 as (Hd1 & Hs1 & Hf1 & Hfr1).
    pose proof (IH (SpriteAnimator.load_frame pf base d a f)) as H2. cbn zeta in H2.
    destruct H2 as (Hd2 & Hs2 & Hf2 & Hfr2).
    split; [congruence |]. split; [congruence |]. split; [congruence |].
    intros d'. rewrite Hfr2.
    destruct (decide (d' = d)) as [-> | Hne].
    + rewrite Hfr1, decide_True by reflexivity.
      destruct (SpriteAnimator.direction_frames a !! d) as [l |]; cbn; [| reflexivity].
      f_equal. rewrite <- app_assoc. f_equal.
      destruct (slot_frame pf a base d f) as [fr |] eqn:Efr; cbn.
      * f_equal. apply omap_pointwise. intros x.
        apply slot_frame_ext; assumption.
      * apply omap_pointwise. intros x.
        apply slot_frame_ext; assumption.
    + rewrite Hfr1, decide_False by exact Hne. reflexivity.
Qed.

Lemma no_frames_lookup (d : Z) :
  SpriteAnimator.no_frames !! d =
    if decide (0 <= d < 4) then Some [] else None.
Proof.
  unfold SpriteAnimator.no_frames. rewrite !lookup_insert, lookup_empty.
  repeat case_decide; try reflexivity; lia.
Qed.

Lemma choice_spec {A} (seq : list A) (w : Py.World) :
  seq <> [] ->
  exists x,
    Py.choice seq w =
      Py.Ok (x, Py.mkWorld (Py.wall_clock w) (Py.clock_reads w) (Py.entropy w)
                  (S (Py.draws w)))
    /\ x ∈ seq.
Proof.
  intros Hne. destruct seq as [| y rest]; [contradiction |].
  unfold Py.choice, Py.bind, Py.ret. rewrite randbelow_spec.
  eexists. split; [reflexivity |].
  apply list_elem_of_In, nth_In.
  pose proof (Z.mod_pos_bound (Z.of_N (Py.entropy w (Py.draws w)))
                (Z.of_nat (length (y :: rest))) ltac:(cbn [length]; lia)).
  lia.
Qed.

(** The loop over the frame offsets of one direction, run on an animator
    that has the metadata table, the sheet cache and the scale factor of
    [a]. *)
Lemma load_direction_spec (pf : Platform) (base d : Z) (fs : list Z)
    (a prev : SpriteAnimator.t) :
  SpriteAnimator.sprite_details prev = SpriteAnimator.sprite_details a ->
  SpriteAnimator.spritesheets prev = SpriteAnimator.spritesheets a ->
  SpriteAnimator.scale_factor prev = SpriteAnimator.scale_factor a ->
  let next := fold_left (SpriteAnimator.load_frame pf base d) fs prev in
  SpriteAnimator.sprite_details next = SpriteAnimator.sprite_details a
  /\ SpriteAnimator.spritesheets next = SpriteAnimator.spritesheets a
  /\ SpriteAnimator.scale_factor next = SpriteAnimator.scale_factor a
  /\ forall d',
       SpriteAnimator.direction_frames next !! d' =
         if decide (d' = d)
         then (fun l => l ++ omap (slot_frame pf a base d) fs)
                <$> (SpriteAnimator.direction_frames prev !! d)
         else SpriteAnimator.direction_frames prev !! d'.
Proof.
  intros Hd Hs Hf next.
  pose proof (load_frames_spec pf base d fs prev) as Hl. cbn zeta in Hl.
  fold next in Hl. destruct Hl as (Hd' & Hs' & Hf' & Hfr).
  split; [congruence |]. split; [congruence |]. split; [congruence |].
  intros d'. rewrite Hfr.
  rewrite (omap_pointwise (slot_frame pf prev base d) (slot_frame pf a base d));
    [reflexivity |].
  intros x. apply slot_frame_ext; assumption.
Qed.

(** C3. [load_direction_frames] picks a base id from the candidate list;
    the frames of direction [d], for [d] in [0..3], are the frames of the
    slots [base + d + f * 4] for [f = 0 .. frames_per_direction - 1] in that
    order, a slot whose id is not in the metadata table or whose sheet is not
    in the sheet cache giving no frame; [max_canvas_width] and
    [max_canvas_height] are the largest width and height among the loaded
    frames, and 0 when no frame was loaded. *)
Theorem load_direction_frames_spec
    (pf : Platform) (ids : list Z) (frames_per_direction : Z)
    (a : SpriteAnimator.t) (w : Py.World) :
  ids <> [] ->
  exists base a' w',
    SpriteAnimator.load_direction_frames pf ids frames_per_direction a w
      = Py.Ok (a', w')
    /\ base ∈ ids
    /\ (forall d, 0 <= d < 4 ->
          SpriteAnimator.direction_frames a' !! d
          = Some (omap (slot_frame pf a base d) (Py.range frames_per_direction)))
    /\ (forall d, ~ 0 <= d < 4 -> SpriteAnimator.direction_frames a' !! d = None)
    /\ SpriteAnimator.sprite_details a' = SpriteAnimator.sprite_details a
    /\ SpriteAnimator.spritesheets a' = SpriteAnimator.spritesheets a
    /\ (forall f, f ∈ SpriteAnimator.all_frames a' <->
          exists d frames,
            SpriteAnimator.direction_frames a' !! d = Some frames /\ f ∈ frames)
    /\ (forall f, f ∈ SpriteAnimator.all_frames a' ->
          pixmap_width (pixmap f) <= SpriteAnimator.max_canvas_width a'
          /\ pixmap_height (pixmap f) <= SpriteAnimator.max_canvas_height a')
    /\ (SpriteAnimator.all_frames a' = [] ->
          SpriteAnimator.max_canvas_width a' = 0
          /\ SpriteAnimator.max_canvas_height a' = 0)
    /\ (SpriteAnimator.all_frames a' <> [] ->
          (exists f, f ∈ SpriteAnimator.all_frames a'
                     /\ pixmap_width (pixmap f) = SpriteAnimator.max_canvas_width a')
          /\ (exists f, f ∈ SpriteAnimator.all_frames a'
                        /\ pixmap_height (pixmap f)
                           = SpriteAnimator.max_canvas_height a')).
Proof.
  intros Hne. destruct (choice_spec ids w Hne) as (base & Ec & Hbase).
  unfold SpriteAnimator.load_direction_frames.
  unfold mbind at 1, Py_mbind at 1, Py.bind at 1. rewrite Ec.
  change (Py.range 4) with [0; 1; 2; 3]. cbn [fold_left].
  set (fs := Py.range frames_per_direction).
  set (a0 := SpriteAnimator.set_direction_frames SpriteAnimator.no_frames a).
  set (a1 := fold_left (SpriteAnimator.load_frame pf base 0) fs a0).
  set (a2 := fold_left (SpriteAnimator.load_frame pf base 1) fs a1).
  set (a3 := fold_left (SpriteAnimator.load_frame pf base 2) fs a2).
  set (a4 := fold_left (SpriteAnimator.load_frame pf base 3) fs a3).
  destruct (load_direction_spec pf base 0 fs a a0 eq_refl eq_refl eq_refl)
    as (Hd1 & Hs1 & Hf1 & Hfr1). fold a1 in Hd1, Hs1, Hf1, Hfr1.
  destruct (load_direction_spec pf base 1 fs a a1 Hd1 Hs1 Hf1)
    as (Hd2 & Hs2 & Hf2 & Hfr2). fold a2 in Hd2, Hs2, Hf2, Hfr2.
  destruct (load_direction_spec pf base 2 fs a a2 Hd2 Hs2 Hf2)
    as (Hd3 & Hs3 & Hf3 & Hfr3). fold a3 in Hd3, Hs3, Hf3, Hfr3.
  destruct (load_direction_spec pf base 3 fs a a3 Hd3 Hs3 Hf3)
    as (Hd4 & Hs4 & Hf4 & Hfr4). fold a4 in Hd4, Hs4, Hf4, Hfr4.
  assert (Hfr0 : forall d, SpriteAnimator.direction_frames a0 !! d
                           = if decide (0 <= d < 4) then Some [] else None)
    by (intros d; apply no_frames_lookup).
  set (widths := (fun f => pixmap_width (pixmap f)) <$> SpriteAnimator.all_frames a4).
  destruct (max_list_or_zero widths) as (mw & Emw & Hwle & Hw0 & Hwin).
  rewrite Emw.
  unfold SpriteAnimator.lift, mbind, Py_mbind, Py.bind, mret, Py_mret, Py.ret.
  cbn beta iota.
  change (SpriteAnimator.all_frames (SpriteAnimator.set_max_canvas_width mw a4))
    with (SpriteAnimator.all_frames a4).
  set (heights := (fun f => pixmap_height (pixmap f)) <$> SpriteAnimator.all_frames a4).
  destruct (max_list_or_zero heights) as (mh & Emh & Hhle & Hh0 & Hhin).
  rewrite Emh. cbn beta iota.
  exists base. eexists _, _. split; [reflexivity |].
  change (SpriteAnimator.all_frames
            (SpriteAnimator.set_max_canvas_height mh
               (SpriteAnimator.set_max_canvas_width mw a4)))
    with (SpriteAnimator.all_frames a4).
  cbn [SpriteAnimator.direction_frames SpriteAnimator.sprite_details
       SpriteAnimator.spritesheets SpriteAnimator.max_canvas_width
       SpriteAnimator.max_canvas_height
       SpriteAnimator.set_max_canvas_height SpriteAnimator.set_max_canvas_width].
  split; [exact Hbase |].
  split.
  { intros d Hd. rewrite !Hfr4, !Hfr3, !Hfr2, !Hfr1, !Hfr0.
    assert (d = 0 \/ d = 1 \/ d = 2 \/ d = 3) as [-> | [-> | [-> | ->]]] by lia;
      repeat (case_decide; try lia); reflexivity. }
  split.
  { intros d Hd. rewrite !Hfr4, !Hfr3, !Hfr2, !Hfr1, !Hfr0.
    repeat case_decide; try reflexivity; lia. }
  split; [exact Hd4 |]. split; [exact Hs4 |].
  split; [intros f; apply elem_of_all_frames |].
  split.
  { intros f Hf. split.
    - apply Hwle. subst widths. apply list_elem_of_fmap. exists f. split; [reflexivity | exact Hf].
    - apply Hhle. subst heights. apply list_elem_of_fmap. exists f. split; [reflexivity | exact Hf]. }
  split.
  { intros Hnil. split; [apply Hw0 | apply Hh0]; subst widths heights; rewrite Hnil;
      reflexivity. }
  intros Hsome. split.
  - assert (Hwne : widths <> []).
    { subst widths. intros Hnil. apply fmap_nil_inv in Hnil. contradiction. }
    apply Hwin, list_elem_of_fmap in Hwne as (f & Hmw & Hf).
    exists f. split; [exact Hf | symmetry; exact Hmw].
  - assert (Hhne : heights <> []).
    { subst heights. intros Hnil. apply fmap_nil_inv in Hnil. contradiction. }
    apply Hhin, list_elem_of_fmap in Hhne as (f & Hmh & Hf).
    exists f. split; [exact Hf | symmetry; exact Hmh].
Qed.

Lemma load_direction_frames_spec_witness :
  exists a' w',
    SpriteAnimator.load_direction_frames single_row_platform [100] 1
      single_row_animator (example_world []) = Py.Ok (a', w')
    /\ length <$> (SpriteAnimator.direction_frames a' !! 0) = Some 1%nat
    /\ SpriteAnimator.direction_frames a' !! 1 = Some []
    /\ SpriteAnimator.direction_frames a' !! 2 = Some []
    /\ SpriteAnimator.direction_frames a' !! 3 = Some []
    /\ SpriteAnimator.max_canvas_width a' = 32
    /\ SpriteAnimator.max_canvas_height a' = 32.
Proof.
  destruct (load_direction_frames_spec single_row_platform [100] 1
              single_row_animator (example_world []) ltac:(discriminate))
    as (base & a' & w' & E & Hbase & Hfr & _).
  apply list_elem_of_singleton in Hbase. subst base.
  exists a', w'. split; [exact E |].
  rewrite !Hfr by lia.
  split; [vm_compute; reflexivity |].
  split; [vm_compute; reflexivity |].
  split; [vm_compute; reflexivity |].
  split; [vm_compute; reflexivity |].
  vm_compute in E. injection E as <- _. split; reflexivity.
Defined.

(** ** load_sprite_info *)

Lemma parse_row_needs_fields (row : list string) (i : nat) :
  i ∈ read_fields ->
  SpriteAnimator.int_field row i = None ->
  SpriteAnimator.parse_row row = None.
Proof.
  intros Hi Hnone. unfold SpriteAnimator.parse_row.
  unfold read_fields in Hi.
  repeat (apply elem_of_cons in Hi as [-> | Hi];
          [repeat (first [rewrite Hnone; reflexivity
                         | match goal with
                           | |- context [SpriteAnimator.int_field row ?k ≫= _] =>
                               destruct (SpriteAnimator.int_field row k);
                               cbn [mbind option_bind]; [| reflexivity]
                           end]) |]).
  inversion Hi.
Qed.

(** The two outcomes of the loop body: a valid row stores its entry under
    its sprite id, any other row leaves the animator as it is. *)
Lemma load_row_cases (a : SpriteAnimator.t) (row : list string) :
  (exists info,
     valid_row row info
     /\ SpriteAnimator.load_row a row
        = SpriteAnimator.set_sprite_details
            (<[sprite_id info := info]> (SpriteAnimator.sprite_details a)) a)
  \/ ((forall info, ~ valid_row row info) /\ SpriteAnimator.load_row a row = a).
Proof.
  unfold SpriteAnimator.load_row, valid_row.
  destruct row as [| first rest].
  { right. split; [| reflexivity]. intros info ((f & r & Hrow & _) & _). discriminate. }
  destruct (String.prefix "#" first) eqn:Ec.
  { right. split; [| reflexivity].
    intros info ((f & r & Hrow & Hp) & _). injection Hrow as <- <-. congruence. }
  destruct (11 <=? Z.of_nat (length (first :: rest))) eqn:El;
    [apply Z.leb_le in El | apply Z.leb_gt in El].
  2: { right. split; [| reflexivity]. intros info (_ & Hlen & _). lia. }
  destruct (SpriteAnimator.parse_row (first :: rest)) as [info |] eqn:Ep.
  2: { right. split; [| reflexivity]. intros info (_ & _ & Hp & _). discriminate. }
  destruct ((0 <? width info) && (width info <? 4096)
            && (0 <? height info) && (height info <? 4096)) eqn:Eb.
  - left. exists info. split; [| reflexivity].
    rewrite !andb_true_iff, !Z.ltb_lt in Eb.
    split; [exists first, rest; split; [reflexivity | exact Ec] |].
    split; [lia |]. split; [reflexivity |]. lia.
  - right. split; [| reflexivity].
    intros info' (_ & _ & Hp & Hw & Hh). injection Hp as <-.
    rewrite !andb_false_iff, !Z.ltb_ge in Eb. lia.
Qed.

Lemma skipped_row_not_valid (row : list string) :
  skipped_row row -> forall info, ~ valid_row row info.
Proof.
  intros Hskip info ((f & r & Hrow & Hp) & Hlen & Hparse & Hw & Hh).
  destruct Hskip as [-> | [(f' & r' & Hrow' & Hp') | [Hshort | [(i & Hi & Hnone) | Hout]]]].
  - discriminate.
  - rewrite Hrow in Hrow'. injection Hrow' as <- <-. congruence.
  - lia.
  - rewrite (parse_row_needs_fields row i Hi Hnone) in Hparse. discriminate.
  - destruct Hout as (info' & Hparse' & Hbad).
    rewrite Hparse in Hparse'. injection Hparse' as <-. apply Hbad. split; assumption.
Qed.

Lemma load_row_skips (a : SpriteAnimator.t) (row : list string) :
  skipped_row row -> SpriteAnimator.load_row a row = a.
Proof.
  intros Hskip.
  destruct (load_row_cases a row) as [(info & Hvalid & _) | (_ & Hsame)];
    [| exact Hsame].
  exfalso. exact (skipped_row_not_valid row Hskip info Hvalid).
Qed.

Lemma load_rows_spec (rows : list (list string)) :
  forall a : SpriteAnimator.t,
    let a' := fold_left SpriteAnimator.load_row rows a in
    (table_ok (SpriteAnimator.sprite_details a) ->
     table_ok (SpriteAnimator.sprite_details a'))
    /\ (SpriteAnimator.sprite_details a' <> ∅ <->
        SpriteAnimator.sprite_details a <> ∅
        \/ exists row info, row ∈ rows /\ valid_row row info).
Proof.
  induction rows as [| row rows IH]; intros a; cbn [fold_left].
  - split; [intros H; exact H |]. split; [intros H; left; exact H |].
    intros [H | (row & info & Hin & _)]; [exact H | inversion Hin].
  - destruct (IH (SpriteAnimator.load_row a row)) as (IHok & IHne).
    destruct (load_row_cases a row) as [(info & Hvalid & Hload) | (Hinvalid & Hload)];
      rewrite Hload in IHok, IHne |- *.
    + cbn [SpriteAnimator.sprite_details SpriteAnimator.set_sprite_details]
        in IHok, IHne.
      split.
      * intros Hok. apply IHok. intros id info' Hlook.
        destruct (decide (sprite_id info = id)) as [<- | Hne].
        -- rewrite lookup_insert_eq in Hlook. injection Hlook as <-.
           destruct Hvalid as (_ & _ & _ & Hw & Hh). repeat split; lia.
        -- rewrite lookup_insert_ne in Hlook by exact Hne. apply Hok, Hlook.
      * rewrite IHne. split.
        -- intros _. right. exists row, info. split; [left | exact Hvalid].
        -- intros _. left. apply insert_non_empty.
    + split; [exact IHok |]. rewrite IHne. split.
      * intros [H | (r & info & Hin & Hv)]; [left; exact H |].
        right. exists r, info. split; [right; exact Hin | exact Hv].
      * intros [H | (r & info & Hin & Hv)]; [left; exact H |].
        apply elem_of_cons in Hin as [-> | Hin].
        -- exfalso. exact (Hinvalid info Hv).
        -- right. exists r, info. split; [exact Hin | exact Hv].
Qed.

Lemma size_positive_iff (m : gmap Z SpriteInfo) :
  (0 <? Z.of_nat (size m)) = true <-> m <> ∅.
Proof.
  rewrite Z.ltb_lt. split.
  - intros Hpos ->. rewrite map_size_empty in Hpos. lia.
  - intros Hne. destruct (size m) eqn:Es; [| lia].
    exfalso. apply Hne, map_size_empty_iff, Es.
Qed.

(** C4, as the code has it. A row that is empty, starts with the comment
    marker, has fewer than 11 fields, has a non-integer among the nine
    fields that are read (0, 1, 2, 4, 5, 6, 7, 9, 10), or has a width or
    height outside (0, 4096) is skipped: it leaves the table as it is and
    the load goes on with the next row. Every entry of the table loaded
    into a new animator has [0 < width < 4096] and [0 < height < 4096]. The
    load returns success exactly when the file exists and one of its rows is
    valid; a missing file gives failure and changes nothing. *)
Theorem load_sprite_info_spec (pf : Platform) (nfo_path : string) (scale : Q) :
  let a0 := SpriteAnimator.init scale in
  let result := SpriteAnimator.load_sprite_info pf nfo_path a0 in
  (forall (a : SpriteAnimator.t) (row : list string),
      skipped_row row -> SpriteAnimator.load_row a row = a)
  /\ (forall (a : SpriteAnimator.t) (before after : list (list string))
             (row : list string),
        skipped_row row ->
        fold_left SpriteAnimator.load_row (before ++ row :: after) a
        = fold_left SpriteAnimator.load_row (before ++ after) a)
  /\ table_ok (SpriteAnimator.sprite_details (snd result))
  /\ (fst result = true <->
      exists rows row info,
        csv_rows pf nfo_path = Some rows /\ row ∈ rows /\ valid_row row info)
  /\ (csv_rows pf nfo_path = None -> result = (false, a0)).
Proof.
  intros a0 result.
  split; [intros a row; apply load_row_skips |].
  split.
  { intros a before after row Hskip.
    rewrite !fold_left_app. cbn [fold_left].
    rewrite (load_row_skips _ row Hskip). reflexivity. }
  assert (Hempty : table_ok (SpriteAnimator.sprite_details a0)).
  { intros id info Hlook. cbn in Hlook. rewrite lookup_empty in Hlook. discriminate. }
  subst result. unfold SpriteAnimator.load_sprite_info.
  destruct (csv_rows pf nfo_path) as [rows |].
  - destruct (load_rows_spec rows a0) as (Hok & Hne). cbn [fst snd].
    split; [apply Hok, Hempty |]. split; [| discriminate].
    rewrite size_positive_iff, Hne. split.
    + intros [Habs | (row & info & Hin & Hv)]; [exfalso; apply Habs; reflexivity |].
      exists rows, row, info. split; [reflexivity |]. split; assumption.
    + intros (rows' & row & info & Hrows & Hin & Hv). injection Hrows as <-.
      right. exists row, info. split; assumption.
  - cbn [fst snd]. split; [exact Hempty |]. split; [| reflexivity].
    split; [discriminate |]. intros (rows & _ & _ & Hrows & _). discriminate.
Qed.

(** C4, as stated: a row is not skipped for a non-integer in a field the
    loader does not read. The row with [x] at index 3 and [-] at index 8 has
    non-integer fields, and is loaded: entry 100 is in the table and the load
    succeeds. *)
Lemma unused_field_row_is_loaded :
  has_non_integer_field unused_fields_row
  /\ SpriteAnimator.load_row (SpriteAnimator.init 1) unused_fields_row
     <> SpriteAnimator.init 1
  /\ (let result :=
        SpriteAnimator.load_sprite_info unused_fields_platform
          "./output/sprites.nfo" (SpriteAnimator.init 1) in
      fst result = true
      /\ width <$> (SpriteAnimator.sprite_details (snd result) !! 100) = Some 32).
Proof.
  split; [| split].
  - exists "x"%string. split; [| reflexivity].
    unfold unused_fields_row. do 3 right. left.
  - intros Heq.
    assert (Hl : SpriteAnimator.sprite_details
                   (SpriteAnimator.load_row (SpriteAnimator.init 1) unused_fields_row)
                 !! 100 = None) by (rewrite Heq; reflexivity).
    vm_compute in Hl. discriminate.
  - vm_compute. split; reflexivity.
Qed.

Lemma load_sprite_info_spec_witness :
  skipped_row ["# a comment"; "1"]%string
  /\ fst (SpriteAnimator.load_sprite_info single_row_platform
            "./output/sprites.nfo" (SpriteAnimator.init 1)) = true.
Proof.
  destruct (load_sprite_info_spec single_row_platform "./output/sprites.nfo" 1)
    as (_ & _ & _ & Hiff & _).
  split.
  - right. left. eexists _, _. split; reflexivity.
  - apply Hiff. exists [nfo_row 100], (nfo_row 100).
    exists (mkSpriteInfo 0 0 100 32 32 0 0 0 0).
    split; [reflexivity |]. split; [left |].
    split; [eexists _, _; split; reflexivity |].
    split; [cbn; lia |]. split; [vm_compute; reflexivity |].
    cbn. lia.
Defined.

(** * Further properties *)

(** ** What update keeps *)

Lemma same_assets_refl (s : SpriteAnimator.t) : same_assets s s.
Proof. unfold same_assets. repeat split. Qed.

Lemma same_assets_trans (a b c : SpriteAnimator.t) :
  same_assets a b -> same_assets b c -> same_assets a c.
Proof.
  unfold same_assets.
  intros (H1 & H2 & H3 & H4 & H5 & H6 & H7 & H8 & H9)
         (K1 & K2 & K3 & K4 & K5 & K6 & K7 & K8 & K9).
  repeat split; congruence.
Qed.

Lemma set_direction_assets (d : Z) (s : SpriteAnimator.t) :
  same_assets s (SpriteAnimator.set_direction d s).
Proof.
  unfold same_assets, SpriteAnimator.set_direction.
  destruct (d =? 0); [cbn; repeat split |].
  destruct (d =? 1); [cbn; repeat split |].
  destruct (d =? 2); [cbn; repeat split |].
  destruct (d =? 3); cbn; repeat split.
Qed.

Lemma set_direction_heading (d : Z) (s : SpriteAnimator.t) :
  0 <= d <= 3 -> heading_ok (SpriteAnimator.set_direction d s).
Proof.
  intros Hd. unfold heading_ok.
  assert (d = 0 \/ d = 1 \/ d = 2 \/ d = 3) as [-> | [-> | [-> | ->]]] by lia;
    cbn; repeat split; lia.
Qed.

Lemma heading_ok_ext (s s' : SpriteAnimator.t) :
  SpriteAnimator.current_direction s' = SpriteAnimator.current_direction s ->
  SpriteAnimator.velocity_x s' = SpriteAnimator.velocity_x s ->
  SpriteAnimator.velocity_y s' = SpriteAnimator.velocity_y s ->
  SpriteAnimator.move_speed s' = SpriteAnimator.move_speed s ->
  heading_ok s -> heading_ok s'.
Proof.
  intros Hd Hx Hy Hs (Hr & Hvx & Hvy). unfold heading_ok. rewrite Hd, Hx, Hy.
  destruct (set_direction_velocity (SpriteAnimator.current_direction s) s' s Hr Hs)
    as (Ex & Ey).
  split; [exact Hr |]. split; congruence.
Qed.

Lemma frame_animation_motion (ct : Z) (s : SpriteAnimator.t) :
  let s' := SpriteAnimator.frame_animation ct s in
  same_assets s s'
  /\ SpriteAnimator.current_direction s' = SpriteAnimator.current_direction s
  /\ SpriteAnimator.velocity_x s' = SpriteAnimator.velocity_x s
  /\ SpriteAnimator.velocity_y s' = SpriteAnimator.velocity_y s
  /\ SpriteAnimator.pos_x s' = SpriteAnimator.pos_x s
  /\ SpriteAnimator.pos_y s' = SpriteAnimator.pos_y s
  /\ SpriteAnimator.next_direction_change_time s'
     = SpriteAnimator.next_direction_change_time s.
Proof.
  unfold SpriteAnimator.frame_animation, same_assets.
  destruct (_ && _); cbn; repeat split.
Qed.

Lemma random_direction_change_keeps (ct : Z) (s s' : SpriteAnimator.t)
    (w w' : Py.World) :
  SpriteAnimator.random_direction_change ct s w = Py.Ok (s', w') ->
  same_assets s s'
  /\ (heading_ok s -> heading_ok s')
  /\ SpriteAnimator.pos_x s' = SpriteAnimator.pos_x s
  /\ SpriteAnimator.pos_y s' = SpriteAnimator.pos_y s.
Proof.
  unfold SpriteAnimator.random_direction_change.
  destruct (SpriteAnimator.next_direction_change_time s <=? ct).
  - py_unfold. rewrite choice_direction_spec.
    set (d := Z.of_N (Py.entropy w (Py.draws w)) mod 4).
    assert (Hd : 0 <= d <= 3).
    { pose proof (Z.mod_pos_bound (Z.of_N (Py.entropy w (Py.draws w))) 4). subst d. lia. }
    set (w1 := Py.mkWorld _ _ _ _).
    destruct (randint_spec 1000 3000 w1 ltac:(lia)) as (r & -> & _).
    intros Hret. injection Hret as <- <-.
    destruct (d =? SpriteAnimator.current_direction s) eqn:Ed; cbn [negb].
    + split; [unfold same_assets; cbn; repeat split |].
      split; [| split; reflexivity].
      apply heading_ok_ext; reflexivity.
    + pose proof (set_direction_assets d s) as Ha.
      pose proof (set_direction_fields d s) as Hf. cbn zeta in Hf.
      destruct Hf as (_ & _ & _ & _ & _ & Hx & Hy & _).
      split; [| split; [| split; [exact Hx | exact Hy]]].
      * eapply same_assets_trans; [exact Ha |].
        unfold same_assets. cbn. repeat split.
      * intros _.
        apply (heading_ok_ext (SpriteAnimator.set_direction d s));
          [reflexivity .. | apply set_direction_heading, Hd].
  - py_unfold. intros Hret. injection Hret as <- <-.
    split; [apply same_assets_refl |]. split; [tauto | split; reflexivity].
Qed.

Lemma move_keeps (W H : Z) (s s' : SpriteAnimator.t) (w w' : Py.World) :
  SpriteAnimator.move W H s w = Py.Ok (s', w') ->
  same_assets s s' /\ (heading_ok s -> heading_ok s').
Proof.
  rewrite move_unfold.
  destruct (SpriteAnimator.out_of_bounds W H (moved s)).
  - py_unfold. rewrite choice_direction_spec.
    set (d := Z.of_N (Py.entropy w (Py.draws w)) mod 4).
    assert (Hd : 0 <= d <= 3).
    { pose proof (Z.mod_pos_bound (Z.of_N (Py.entropy w (Py.draws w))) 4). subst d. lia. }
    intros Hret. injection Hret as <- <-.
    pose proof (set_direction_assets d (moved s)) as Ha. split.
    + eapply same_assets_trans; [| eapply same_assets_trans; [exact Ha |]];
        unfold same_assets, moved; cbn; repeat split.
    + intros _.
      apply (heading_ok_ext (SpriteAnimator.set_direction d (moved s)));
        [reflexivity .. | apply set_direction_heading, Hd].
  - py_unfold. intros Hret. injection Hret as <- <-. split.
    + unfold same_assets, moved. cbn. repeat split.
    + apply heading_ok_ext; reflexivity.
Qed.

Lemma update_keeps (W H : Z) (s s' : SpriteAnimator.t) (w w' : Py.World) :
  SpriteAnimator.update W H s w = Py.Ok (s', w') ->
  same_assets s s' /\ (heading_ok s -> heading_ok s').
Proof.
  destruct (SpriteAnimator.is_moving s) eqn:Hm.
  - destruct (update_walking W H s w Hm _ _ eq_refl)
      as (s1 & w1 & s2 & w2 & E1 & E2 & E).
    rewrite E. intros Hret. injection Hret as <- <-.
    pose proof (frame_animation_motion (Py.wall_clock w (Py.clock_reads w)) s) as Hf.
    cbn zeta in Hf. destruct Hf as (Ha0 & Hd0 & Hx0 & Hy0 & _).
    destruct (random_direction_change_keeps _ _ _ _ _ E1) as (Ha1 & Hh1 & _).
    destruct (move_keeps _ _ _ _ _ _ E2) as (Ha2 & Hh2).
    split.
    + eapply same_assets_trans; [exact Ha0 |].
      eapply same_assets_trans; [exact Ha1 | exact Ha2].
    + intros Hh. apply Hh2, Hh1.
      apply (heading_ok_ext s); [assumption .. | | exact Hh].
      destruct Ha0 as (_ & _ & _ & _ & _ & Hsp & _). exact Hsp.
  - rewrite update_not_walking by exact Hm. intros Hret. injection Hret as <- <-.
    split; [apply same_assets_refl | tauto].
Qed.

Lemma update_returns (W H : Z) (s : SpriteAnimator.t) (w : Py.World) :
  exists s' w', SpriteAnimator.update W H s w = Py.Ok (s', w').
Proof.
  destruct (update_frame_clock W H s w) as (s' & w' & E & _). eauto.
Qed.

Lemma ticks_keep (n : nat) (W H : Z) :
  forall (s : SpriteAnimator.t) (w : Py.World),
  exists s' w',
    animator_ticks n W H s w = Py.Ok (s', w')
    /\ same_assets s s'
    /\ (heading_ok s -> heading_ok s').
Proof.
  induction n as [| n IH]; intros s w.
  - exists s, w. split; [reflexivity |]. split; [apply same_assets_refl | tauto].
  - destruct (update_returns W H s w) as (s1 & w1 & E).
    destruct (update_keeps _ _ _ _ _ _ E) as (Ha1 & Hh1).
    destruct (IH s1 w1) as (s' & w' & E' & Ha & Hh).
    exists s', w'. split.
    + cbn [animator_ticks]. unfold mbind, Py_mbind, Py.bind. rewrite E. exact E'.
    + split; [eapply same_assets_trans; eassumption | tauto].
Qed.

(** Any number of [update] calls, on any animator, returns and leaves the
    loaded frames, the metadata table, the sheet cache, the bounding box,
    the speed, the frame duration, the scale factor and the walking flag as
    they were: an animator never stops walking and never reloads. *)
Theorem update_keeps_assets
    (n : nat) (W H : Z) (s : SpriteAnimator.t) (w : Py.World) :
  exists s' w',
    animator_ticks n W H s w = Py.Ok (s', w') /\ same_assets s s'.
Proof.
  destruct (ticks_keep n W H s w) as (s' & w' & E & Ha & _). eauto.
Qed.

(** ** setup_walking, further *)

Lemma setup_walking_heading (W H : Z) (sx sy : option Q)
    (s s' : SpriteAnimator.t) (w w' : Py.World) :
  SpriteAnimator.setup_walking W H sx sy s w = Py.Ok (s', w') ->
  heading_ok s' /\ SpriteAnimator.move_speed s' = SpriteAnimator.move_speed s.
Proof.
  unfold SpriteAnimator.setup_walking. intros Hok.
  apply bind_ok in Hok as (x & w1 & _ & Hok).
  apply bind_ok in Hok as (y & w2 & _ & Hok).
  apply bind_ok in Hok as (d & w3 & Ed & Hok).
  apply bind_ok in Hok as (now & w4 & _ & Hok).
  apply bind_ok in Hok as (delay & w5 & _ & Hret).
  py_unfold. injection Hret as <- <-.
  destruct (randint_spec 0 3 w2 ltac:(lia)) as (d' & Ed' & Hd & _).
  rewrite Ed' in Ed. injection Ed as <- _.
  set (s1 := SpriteAnimator.set_pos_y y (SpriteAnimator.set_pos_x x s)).
  pose proof (set_direction_assets d' s1) as (_ & _ & _ & _ & _ & Hsp & _).
  split.
  - apply (heading_ok_ext (SpriteAnimator.set_direction d' s1));
      [reflexivity .. | apply set_direction_heading, Hd].
  - cbn. rewrite Hsp. reflexivity.
Qed.

(** [setup_walking] returns exactly when, on each axis, the start
    coordinate was given or the bounding box is no larger than the screen;
    otherwise [random.randint] is called on an empty range and the call
    raises [ValueError]. *)
Theorem setup_walking_returns_iff
    (W H : Z) (sx sy : option Q) (s : SpriteAnimator.t) (w : Py.World) :
  let room :=
    (sx = None -> SpriteAnimator.max_canvas_width s <= W)
    /\ (sy = None -> SpriteAnimator.max_canvas_height s <= H) in
  ((exists s' w', SpriteAnimator.setup_walking W H sx sy s w = Py.Ok (s', w'))
   <-> room)
  /\ (~ room ->
      SpriteAnimator.setup_walking W H sx sy s w = Py.Raise Py.ValueError).
Proof.
  intros room. split; [split |].
  - intros (s' & w' & Hok). exact (setup_walking_returns _ _ _ _ _ _ _ _ Hok).
  - intros (Hx & Hy).
    destruct (setup_walking_spec W H sx sy s w Hx Hy) as (s' & w' & E & _). eauto.
  - intros Hno. apply setup_walking_raises.
    destruct sx as [x |], sy as [y |].
    + exfalso. apply Hno. split; discriminate.
    + right. split; [reflexivity |].
      destruct (Z_lt_le_dec H (SpriteAnimator.max_canvas_height s)); [assumption |].
      exfalso. apply Hno. split; [discriminate | intros _; assumption].
    + left. split; [reflexivity |].
      destruct (Z_lt_le_dec W (SpriteAnimator.max_canvas_width s)); [assumption |].
      exfalso. apply Hno. split; [intros _; assumption | discriminate].
    + destruct (Z_lt_le_dec W (SpriteAnimator.max_canvas_width s)); [left; tauto |].
      destruct (Z_lt_le_dec H (SpriteAnimator.max_canvas_height s)); [right; tauto |].
      exfalso. apply Hno. split; intros _; assumption.
Qed.

Lemma setup_walking_returns_iff_witness :
  SpriteAnimator.setup_walking 10 10 None (Some 0%Q)
    (SpriteAnimator.set_max_canvas_width 32 walker_example) (example_world [])
  = Py.Raise Py.ValueError.
Proof.
  apply (setup_walking_returns_iff 10 10 None (Some 0%Q)).
  intros (Hx & _). specialize (Hx eq_refl). cbn in Hx. lia.
Defined.

(** When [setup_walking] returns, the animator walks, in one of the four
    directions and with the velocity of that direction; a coordinate that
    was given is taken as it is, and a coordinate that was drawn lies in
    [[0, screenDim - boundingBoxDim]], so that with both drawn the whole
    bounding box is on the screen. The frame index and the loaded data are
    untouched. *)
Theorem setup_walking_start
    (W H : Z) (sx sy : option Q) (s s' : SpriteAnimator.t) (w w' : Py.World) :
  SpriteAnimator.setup_walking W H sx sy s w = Py.Ok (s', w') ->
  SpriteAnimator.is_moving s' = true
  /\ heading_ok s'
  /\ (forall x, sx = Some x -> SpriteAnimator.pos_x s' = x)
  /\ (forall y, sy = Some y -> SpriteAnimator.pos_y s' = y)
  /\ (sx = None ->
      (0 <= SpriteAnimator.pos_x s'
       <= inject_Z (W - SpriteAnimator.max_canvas_width s'))%Q)
  /\ (sy = None ->
      (0 <= SpriteAnimator.pos_y s'
       <= inject_Z (H - SpriteAnimator.max_canvas_height s'))%Q)
  /\ (sx = None -> sy = None -> within_screen W H s')
  /\ SpriteAnimator.current_frame_index s' = SpriteAnimator.current_frame_index s
  /\ SpriteAnimator.direction_frames s' = SpriteAnimator.direction_frames s
  /\ SpriteAnimator.max_canvas_width s' = SpriteAnimator.max_canvas_width s
  /\ SpriteAnimator.max_canvas_height s' = SpriteAnimator.max_canvas_height s.
Proof.
  intros Hok.
  destruct (setup_walking_heading _ _ _ _ _ _ _ _ Hok) as (Hhead & _).
  destruct (setup_walking_returns _ _ _ _ _ _ _ _ Hok) as (Hfx & Hfy).
  destruct (setup_walking_spec W H sx sy s w Hfx Hfy)
    as (s2 & w2 & E & Hm & Hw & Hh & Hfr & Hix & _ & _ & Hxr & Hyr & Hxs & Hys).
  rewrite E in Hok. injection Hok as <- <-.
  split; [exact Hm |]. split; [exact Hhead |].
  split; [exact Hxs |]. split; [exact Hys |].
  rewrite Hw, Hh.
  split; [exact Hxr |]. split; [exact Hyr |].
  split; [| repeat split; assumption].
  intros Ex Ey. unfold within_screen. rewrite Hw, Hh. split; auto.
Qed.

Lemma setup_walking_start_witness :
  exists s' w',
    SpriteAnimator.setup_walking 1920 1080 None None (fst walking_five_frames)
      (example_world [700; 80]%N) = Py.Ok (s', w')
    /\ within_screen 1920 1080 s'.
Proof.
  assert (exists s' w',
            SpriteAnimator.setup_walking 1920 1080 None None
              (fst walking_five_frames) (example_world [700; 80]%N)
            = Py.Ok (s', w')) as (s' & w' & E).
  { destruct (setup_walking_spec 1920 1080 None None (fst walking_five_frames)
                (example_world [700; 80]%N)) as (s' & w' & E & _);
      [intros _; vm_compute; discriminate .. | eauto]. }
  exists s', w'. split; [exact E |].
  destruct (setup_walking_start _ _ _ _ _ _ _ _ E) as (_ & _ & _ & _ & _ & _ & Hin & _).
  apply Hin; reflexivity.
Defined.

(** At every moment after [setup_walking] the current direction is one of
    [0..3] and the velocity is the diagonal [set_direction] gives for it at
    the animator's speed: neither the timed direction change, which skips
    [set_direction] when the drawn direction is the current one, nor the
    bounce ever leaves a velocity that disagrees with the direction. *)
Theorem walking_heading_invariant
    (W0 H0 W H : Z) (sx sy : option Q) (s0 s : SpriteAnimator.t)
    (w0 w : Py.World) (n : nat) :
  SpriteAnimator.setup_walking W0 H0 sx sy s0 w0 = Py.Ok (s, w) ->
  exists s' w',
    animator_ticks n W H s w = Py.Ok (s', w')
    /\ heading_ok s'
    /\ SpriteAnimator.move_speed s' = SpriteAnimator.move_speed s0.
Proof.
  intros Hok.
  destruct (setup_walking_heading _ _ _ _ _ _ _ _ Hok) as (Hhead & Hsp).
  destruct (ticks_keep n W H s w) as (s' & w' & E & Ha & Hh).
  exists s', w'. split; [exact E |]. split; [exact (Hh Hhead) |].
  destruct Ha as (_ & _ & _ & _ & _ & Hsp' & _). congruence.
Qed.

Lemma walking_heading_invariant_witness :
  exists s w s' w',
    SpriteAnimator.setup_walking 1920 1080 None None walker_example
      (example_world [500; 300; 2; 0; 1]%N) = Py.Ok (s, w)
    /\ animator_ticks 70 1920 1080 s w = Py.Ok (s', w')
    /\ heading_ok s'.
Proof.
  assert (exists s w,
            SpriteAnimator.setup_walking 1920 1080 None None walker_example
              (example_world [500; 300; 2; 0; 1]%N) = Py.Ok (s, w))
    as (s & w & E) by (vm_compute; eauto).
  destruct (walking_heading_invariant 1920 1080 1920 1080 None None
              walker_example s _ w 70 E) as (s' & w' & E' & Hh & _).
  exists s, w, s', w'. split; [exact E |]. split; [exact E' | exact Hh].
Defined.

(** ** A tick away from the edges *)

Lemma clamp_id_inside (p b : Q) :
  (0 <= p)%Q -> (p <= b)%Q -> (Py.max 0 (Py.min p b) == p)%Q.
Proof.
  intros H0 Hb. unfold Py.max, Py.min.
  destruct (Py.Qltb b p) eqn:E1.
  - apply Qltb_lt in E1. exfalso. apply (Qlt_irrefl b). eapply Qlt_le_trans; eauto.
  - destruct (Py.Qltb 0 p) eqn:E2; [reflexivity |].
    apply Qltb_ge in E2. apply Qle_antisym; assumption.
Qed.

(** A tick of a walking animator whose direction change is not yet due and
    whose position plus velocity is within the bounds is a plain
    translation: the position moves by the velocity, direction and velocity
    stay, the clock is read once and no random number is drawn. *)
Theorem interior_tick_translates
    (W H : Z) (s : SpriteAnimator.t) (w : Py.World) :
  SpriteAnimator.is_moving s = true ->
  Py.wall_clock w (Py.clock_reads w) < SpriteAnimator.next_direction_change_time s ->
  let px := (SpriteAnimator.pos_x s + SpriteAnimator.velocity_x s)%Q in
  let py := (SpriteAnimator.pos_y s + SpriteAnimator.velocity_y s)%Q in
  (0 <= px <= inject_Z (W - SpriteAnimator.max_canvas_width s))%Q ->
  (0 <= py <= inject_Z (H - SpriteAnimator.max_canvas_height s))%Q ->
  exists s' w',
    SpriteAnimator.update W H s w = Py.Ok (s', w')
    /\ (SpriteAnimator.pos_x s' == px)%Q
    /\ (SpriteAnimator.pos_y s' == py)%Q
    /\ SpriteAnimator.current_direction s' = SpriteAnimator.current_direction s
    /\ SpriteAnimator.velocity_x s' = SpriteAnimator.velocity_x s
    /\ SpriteAnimator.velocity_y s' = SpriteAnimator.velocity_y s
    /\ SpriteAnimator.next_direction_change_time s'
       = SpriteAnimator.next_direction_change_time s
    /\ Py.draws w' = Py.draws w
    /\ Py.clock_reads w' = S (Py.clock_reads w).
Proof.
  intros Hm Hnext px py (Hx0 & Hx1) (Hy0 & Hy1).
  set (now := Py.wall_clock w (Py.clock_reads w)) in *.
  destruct (update_walking W H s w Hm _ _ eq_refl) as (s1 & w1 & s' & w' & E1 & E2 & E).
  fold now in E1.
  pose proof (frame_animation_motion now s) as Hf. cbn zeta in Hf.
  destruct Hf as ((_ & _ & _ & Hmw & Hmh & _) & Hd0 & Hvx0 & Hvy0 & Hpx0 & Hpy0 & Hn0).
  destruct (random_direction_change_spec now (SpriteAnimator.frame_animation now s)
              (Py.mkWorld (Py.wall_clock w) (S (Py.clock_reads w)) (Py.entropy w)
                 (Py.draws w)))
    as (s1' & w1' & E1' & _ & _ & _ & _ & _ & _ & _ & _ & _ & _ & _ & Hstay).
  rewrite E1 in E1'. injection E1' as <- <-.
  destruct Hstay as (-> & ->); [rewrite Hn0; exact Hnext |].
  destruct (move_spec W H (SpriteAnimator.frame_animation now s)
              (Py.mkWorld (Py.wall_clock w) (S (Py.clock_reads w)) (Py.entropy w)
                 (Py.draws w)))
    as (s2 & w2 & E2' & Hx & Hy & _ & _ & _ & _ & _ & _ & _ & Hn & _ & _ & _ & _ & Hin).
  rewrite E2 in E2'. injection E2' as <- <-.
  rewrite Hpx0, Hvx0, Hmw in Hx. rewrite Hpy0, Hvy0, Hmh in Hy.
  fold px in Hx. fold py in Hy.
  assert (Hb : SpriteAnimator.out_of_bounds W H
                 (moved (SpriteAnimator.frame_animation now s)) = false).
  { apply not_true_iff_false. intros Hout. apply out_of_bounds_iff in Hout.
    change (SpriteAnimator.pos_x (moved (SpriteAnimator.frame_animation now s)))
      with (SpriteAnimator.pos_x (SpriteAnimator.frame_animation now s)
            + SpriteAnimator.velocity_x (SpriteAnimator.frame_animation now s))%Q
      in Hout.
    change (SpriteAnimator.pos_y (moved (SpriteAnimator.frame_animation now s)))
      with (SpriteAnimator.pos_y (SpriteAnimator.frame_animation now s)
            + SpriteAnimator.velocity_y (SpriteAnimator.frame_animation now s))%Q
      in Hout.
    change (SpriteAnimator.max_canvas_width
              (moved (SpriteAnimator.frame_animation now s)))
      with (SpriteAnimator.max_canvas_width (SpriteAnimator.frame_animation now s))
      in Hout.
    change (SpriteAnimator.max_canvas_height
              (moved (SpriteAnimator.frame_animation now s)))
      with (SpriteAnimator.max_canvas_height (SpriteAnimator.frame_animation now s))
      in Hout.
    rewrite Hpx0, Hvx0, Hpy0, Hvy0, Hmw, Hmh in Hout. fold px py in Hout.
    destruct Hout as [Ho | [Ho | [Ho | Ho]]].
    - exact (Qlt_not_le _ _ Ho Hx0).
    - exact (Qlt_not_le _ _ Ho Hx1).
    - exact (Qlt_not_le _ _ Ho Hy0).
    - exact (Qlt_not_le _ _ Ho Hy1). }
  destruct (Hin Hb) as (Hd & Hvx & Hvy & Hw).
  exists s', w'. split; [exact E |].
  split; [rewrite Hx; apply clamp_id_inside; assumption |].
  split; [rewrite Hy; apply clamp_id_inside; assumption |].
  split; [congruence |]. split; [congruence |]. split; [congruence |].
  split; [congruence |]. rewrite Hw. split; reflexivity.
Qed.

Lemma interior_tick_translates_witness :
  exists s' w',
    SpriteAnimator.update 1920 1080 (fst walking_five_frames)
      (snd walking_five_frames) = Py.Ok (s', w')
    /\ (SpriteAnimator.pos_x s' == 501)%Q
    /\ (SpriteAnimator.pos_y s' == 499)%Q.
Proof.
  assert (Hm : SpriteAnimator.is_moving (fst walking_five_frames) = true)
    by (vm_compute; reflexivity).
  destruct (interior_tick_translates 1920 1080 (fst walking_five_frames)
              (snd walking_five_frames) Hm)
    as (s' & w' & E & Hx & Hy & _).
  - vm_compute. reflexivity.
  - vm_compute. split; discriminate.
  - vm_compute. split; discriminate.
  - exists s', w'. split; [exact E |].
    split; [rewrite Hx | rewrite Hy]; vm_compute; reflexivity.
Defined.

(** ** get_current_frame *)

Lemma get_current_frame_spec (s : SpriteAnimator.t) :
  let frames := SpriteAnimator.current_frames s in
  let i := SpriteAnimator.current_frame_index s in
  (frames = [] -> SpriteAnimator.get_current_frame s = Py.Ok None)
  /\ (SpriteAnimator.direction_frames s !! SpriteAnimator.current_direction s = None ->
      SpriteAnimator.get_current_frame s = Py.Ok None)
  /\ (forall f, 0 <= i -> frames !! Z.to_nat i = Some f ->
      SpriteAnimator.get_current_frame s = Py.Ok (Some f))
  /\ (frames <> [] -> Z.of_nat (length frames) <= i ->
      SpriteAnimator.get_current_frame s = Py.Raise Py.IndexError).
Proof.
  intros frames i. unfold SpriteAnimator.get_current_frame. fold frames i.
  split; [intros ->; reflexivity |].
  split.
  { intros Hnone. subst frames. unfold SpriteAnimator.current_frames.
    rewrite Hnone. reflexivity. }
  split.
  - intros f Hi Hf. destruct frames as [| f0 rest] eqn:Ef; [discriminate |].
    unfold Py.getitem. destruct (i <? 0) eqn:Eneg; [apply Z.ltb_lt in Eneg; lia |].
    rewrite Eneg, Hf. reflexivity.
  - intros Hne Hlen. destruct frames as [| f0 rest] eqn:Ef; [contradiction |].
    unfold Py.getitem.
    destruct (i <? 0) eqn:Eneg; [apply Z.ltb_lt in Eneg; lia |].
    rewrite Eneg.
    rewrite (proj2 (lookup_ge_None (f0 :: rest) (Z.to_nat i))) by lia.
    reflexivity.
Qed.

(** [get_current_frame] returns [None] when the current direction has no
    frame (or is not a key of the frame table), the frame at
    [current_frame_index] when that index is within the list, and raises
    [IndexError] when the list is not empty and the index is at or beyond
    its end. *)
Theorem get_current_frame_cases (s : SpriteAnimator.t) :
  let frames := SpriteAnimator.current_frames s in
  let i := SpriteAnimator.current_frame_index s in
  (frames = [] -> SpriteAnimator.get_current_frame s = Py.Ok None)
  /\ (SpriteAnimator.direction_frames s !! SpriteAnimator.current_direction s = None ->
      SpriteAnimator.get_current_frame s = Py.Ok None)
  /\ (forall f, 0 <= i -> frames !! Z.to_nat i = Some f ->
      SpriteAnimator.get_current_frame s = Py.Ok (Some f))
  /\ (frames <> [] -> Z.of_nat (length frames) <= i ->
      SpriteAnimator.get_current_frame s = Py.Raise Py.IndexError).
Proof. exact (get_current_frame_spec s). Qed.

Lemma get_current_frame_cases_witness :
  SpriteAnimator.get_current_frame walker_example = Py.Ok None.
Proof.
  destruct (get_current_frame_cases walker_example) as (Hempty & _).
  apply Hempty. reflexivity.
Defined.

(** ** The frame index when all directions have as many frames *)

Lemma update_index_in_range (n : nat) (W H : Z) (s s' : SpriteAnimator.t)
    (w w' : Py.World) :
  uniform_frames n s ->
  0 <= SpriteAnimator.current_frame_index s < Z.of_nat n ->
  SpriteAnimator.update W H s w = Py.Ok (s', w') ->
  uniform_frames n s'
  /\ 0 <= SpriteAnimator.current_frame_index s' < Z.of_nat n.
Proof.
  intros Hu Hi Hup.
  destruct (update_keeps _ _ _ _ _ _ Hup) as ((Hfr & _) & _).
  split; [unfold uniform_frames; rewrite Hfr; exact Hu |].
  destruct (SpriteAnimator.is_moving s) eqn:Hm.
  - destruct (update_walking W H s w Hm _ _ eq_refl)
      as (s1 & w1 & s2 & w2 & E1 & E2 & E).
    rewrite E in Hup. injection Hup as <- <-.
    set (now := Py.wall_clock w (Py.clock_reads w)) in *.
    destruct (random_direction_change_spec now (SpriteAnimator.frame_animation now s)
                (Py.mkWorld (Py.wall_clock w) (S (Py.clock_reads w)) (Py.entropy w)
                   (Py.draws w)))
      as (s1' & w1' & E1' & _ & _ & _ & _ & Hix1 & _).
    rewrite E1 in E1'. injection E1' as <- <-.
    destruct (move_spec W H s1 w1)
      as (s3 & w3 & E2' & _ & _ & _ & _ & _ & _ & Hix2 & _).
    rewrite E2 in E2'. injection E2' as <- <-.
    rewrite Hix2, Hix1.
    pose proof (frame_animation_spec now s) as Hs. cbn zeta in Hs.
    destruct Hs as (Hadv & Hstay).
    destruct (decide (SpriteAnimator.current_frames s = [])) as [He | Hne].
    + rewrite Hstay by (left; exact He). exact Hi.
    + destruct (Z_le_gt_dec (SpriteAnimator.frame_duration s)
                  (now - SpriteAnimator.last_frame_time s)) as [Hle | Hgt].
      * destruct (Hadv Hne Hle) as (-> & _).
        assert (Hlen : length (SpriteAnimator.current_frames s) = n).
        { unfold SpriteAnimator.current_frames in *.
          destruct (SpriteAnimator.direction_frames s
                      !! SpriteAnimator.current_direction s) as [frames |] eqn:El;
            [| contradiction].
          destruct (Hu _ _ El) as [-> | Hl]; [contradiction | exact Hl]. }
        rewrite Hlen. apply Z.mod_pos_bound. lia.
      * rewrite Hstay by (right; lia). exact Hi.
  - rewrite update_not_walking in Hup by exact Hm. injection Hup as <- <-. exact Hi.
Qed.

(** When every direction that has frames has the same number [n] of them
    (a complete sprite set) and the frame index starts below [n], the index
    stays below [n] through any number of updates, whatever directions are
    drawn, and [get_current_frame] returns without raising. *)
Theorem uniform_frames_index_safe
    (n k : nat) (W H : Z) (s : SpriteAnimator.t) (w : Py.World) :
  uniform_frames n s ->
  0 <= SpriteAnimator.current_frame_index s < Z.of_nat n ->
  exists s' w' frame,
    animator_ticks k W H s w = Py.Ok (s', w')
    /\ 0 <= SpriteAnimator.current_frame_index s' < Z.of_nat n
    /\ SpriteAnimator.get_current_frame s' = Py.Ok frame.
Proof.
  revert s w. induction k as [| k IH]; intros s w Hu Hi.
  - exists s, w. cbn [animator_ticks].
    destruct (get_current_frame_spec s) as (Hempty & _ & Hin & _).
    destruct (SpriteAnimator.current_frames s) as [| f0 rest] eqn:Ef.
    + exists None. split; [reflexivity |]. split; [exact Hi | apply Hempty; reflexivity].
    + assert (Hlen : length (f0 :: rest) = n).
      { unfold SpriteAnimator.current_frames in Ef.
        destruct (SpriteAnimator.direction_frames s
                    !! SpriteAnimator.current_direction s) as [frames |] eqn:El;
          [| discriminate].
        cbn in Ef. subst frames.
        destruct (Hu _ _ El) as [Habs | Hl]; [discriminate | exact Hl]. }
      destruct (lookup_lt_is_Some_2 (f0 :: rest)
                  (Z.to_nat (SpriteAnimator.current_frame_index s))
                  ltac:(rewrite Hlen; lia)) as (f & Hf).
      exists (Some f). split; [reflexivity |]. split; [exact Hi |].
      apply Hin; [lia | exact Hf].
  - destruct (update_returns W H s w) as (s1 & w1 & E).
    destruct (update_index_in_range n W H s s1 w w1 Hu Hi E) as (Hu1 & Hi1).
    destruct (IH s1 w1 Hu1 Hi1) as (s' & w' & frame & E' & Hi' & Hg).
    exists s', w', frame. split; [| split; assumption].
    cbn [animator_ticks]. unfold mbind, Py_mbind, Py.bind. rewrite E. exact E'.
Qed.

Lemma uniform_frames_index_safe_witness :
  exists s' w' frame,
    animator_ticks 200 1920 1080 (fst walking_five_frames)
      (snd walking_five_frames) = Py.Ok (s', w')
    /\ 0 <= SpriteAnimator.current_frame_index s' < 5
    /\ SpriteAnimator.get_current_frame s' = Py.Ok frame.
Proof.
  apply (uniform_frames_index_safe 5 200 1920 1080).
  - intros d frames Hl.
    assert (Hd : d ∈ dom (SpriteAnimator.direction_frames (fst walking_five_frames)))
      by (apply elem_of_dom; eauto).
    assert (Hdom : dom (SpriteAnimator.direction_frames (fst walking_five_frames))
                   = {[0; 1; 2; 3]}) by (vm_compute; reflexivity).
    rewrite Hdom in Hd.
    rewrite !elem_of_union, !elem_of_singleton in Hd.
    destruct Hd as [[[-> | ->] | ->] | ->];
      right; vm_compute in Hl; injection Hl as <-; reflexivity.
  - vm_compute. split; [discriminate | reflexivity].
Defined.

(** ** load_sprite_info, further *)

Lemma load_row_other_fields (a : SpriteAnimator.t) (row : list string) :
  let a' := SpriteAnimator.load_row a row in
  SpriteAnimator.spritesheets a' = SpriteAnimator.spritesheets a
  /\ SpriteAnimator.direction_frames a' = SpriteAnimator.direction_frames a
  /\ SpriteAnimator.max_canvas_width a' = SpriteAnimator.max_canvas_width a
  /\ SpriteAnimator.max_canvas_height a' = SpriteAnimator.max_canvas_height a
  /\ SpriteAnimator.scale_factor a' = SpriteAnimator.scale_factor a
  /\ SpriteAnimator.move_speed a' = SpriteAnimator.move_speed a
  /\ SpriteAnimator.is_moving a' = SpriteAnimator.is_moving a.
Proof.
  cbn zeta.
  destruct (load_row_cases a row) as [(info & _ & ->) | (_ & ->)];
    cbn; repeat split.
Qed.

Lemma load_rows_other_fields (rows : list (list string)) :
  forall a : SpriteAnimator.t,
    let a' := fold_left SpriteAnimator.load_row rows a in
    SpriteAnimator.spritesheets a' = SpriteAnimator.spritesheets a
    /\ SpriteAnimator.direction_frames a' = SpriteAnimator.direction_frames a
    /\ SpriteAnimator.max_canvas_width a' = SpriteAnimator.max_canvas_width a
    /\ SpriteAnimator.max_canvas_height a' = SpriteAnimator.max_canvas_height a
    /\ SpriteAnimator.scale_factor a' = SpriteAnimator.scale_factor a
    /\ SpriteAnimator.move_speed a' = SpriteAnimator.move_speed a
    /\ SpriteAnimator.is_moving a' = SpriteAnimator.is_moving a.
Proof.
  induction rows as [| row rows IH]; intros a; cbn [fold_left].
  - repeat split.
  - pose proof (load_row_other_fields a row) as H1. cbn zeta in H1.
    pose proof (IH (SpriteAnimator.load_row a row)) as H2. cbn zeta in H2.
    destruct H1 as (A1 & A2 & A3 & A4 & A5 & A6 & A7).
    destruct H2 as (B1 & B2 & B3 & B4 & B5 & B6 & B7).
    repeat split; congruence.
Qed.

(** Rows none of which is a valid row for sprite id [id] leave the entry of
    [id] as it is. *)
Lemma load_rows_untouched (id : Z) (rows : list (list string)) :
  forall a : SpriteAnimator.t,
    (forall row info, row ∈ rows -> valid_row row info -> sprite_id info <> id) ->
    SpriteAnimator.sprite_details (fold_left SpriteAnimator.load_row rows a) !! id
    = SpriteAnimator.sprite_details a !! id.
Proof.
  induction rows as [| row rows IH]; intros a Hother; cbn [fold_left]; [reflexivity |].
  rewrite IH by (intros r i Hr; apply Hother; right; exact Hr).
  destruct (load_row_cases a row) as [(info & Hv & ->) | (_ & ->)]; [| reflexivity].
  cbn. apply lookup_insert_ne. apply (Hother row info); [left | exact Hv].
Qed.

(** The table is a dictionary keyed by sprite id: of several valid rows
    with the same id the last one in the file is the one kept. *)
Theorem last_valid_row_wins
    (a : SpriteAnimator.t) (before after : list (list string))
    (row : list string) (info : SpriteInfo) :
  valid_row row info ->
  (forall r i, r ∈ after -> valid_row r i -> sprite_id i <> sprite_id info) ->
  SpriteAnimator.sprite_details
    (fold_left SpriteAnimator.load_row (before ++ row :: after) a)
  !! sprite_id info = Some info.
Proof.
  intros Hv Hafter. rewrite fold_left_app. cbn [fold_left].
  rewrite load_rows_untouched by exact Hafter.
  destruct (load_row_cases (fold_left SpriteAnimator.load_row before a) row)
    as [(info' & Hv' & ->) | (Hno & _)].
  - assert (info' = info) as ->.
    { destruct Hv as (_ & _ & Hp & _). destruct Hv' as (_ & _ & Hp' & _). congruence. }
    cbn. apply lookup_insert_eq.
  - exfalso. exact (Hno info Hv).
Qed.

Lemma last_valid_row_wins_witness :
  height <$>
    (SpriteAnimator.sprite_details
       (fold_left SpriteAnimator.load_row
          ([nfo_row 100]
           ++ ["0"; "7"; "100"; ""; "16"; "48"; "0"; "0"; ""; "64"; "0"]%string
           :: [nfo_row 101])
          (SpriteAnimator.init 1))
     !! 100) = Some 48.
Proof.
  assert (Hw := last_valid_row_wins (SpriteAnimator.init 1) [nfo_row 100]
                  [nfo_row 101]
                  ["0"; "7"; "100"; ""; "16"; "48"; "0"; "0"; ""; "64"; "0"]%string
                  (mkSpriteInfo 0 7 100 16 48 0 0 64 0)).
  cbn [sprite_id] in Hw. rewrite Hw.
  - reflexivity.
  - split; [eexists _, _; split; reflexivity |].
    split; [cbn; lia |]. split; [vm_compute; reflexivity |]. cbn. lia.
  - intros r i Hr (_ & _ & Hp & _). apply list_elem_of_singleton in Hr. subst r.
    vm_compute in Hp. injection Hp as <-. cbn. lia.
Defined.



(** ** load_spritesheet, further *)

Lemma elem_of_sheet_numbers (n : Z) (a : SpriteAnimator.t) :
  n ∈ SpriteAnimator.sheet_numbers a <->
  exists id info,
    SpriteAnimator.sprite_details a !! id = Some info /\ sheet_num info = n.
Proof.
  unfold SpriteAnimator.sheet_numbers.
  rewrite elem_of_list_to_set, list_elem_of_fmap. split.
  - intros (info & -> & Hin).
    apply list_elem_of_fmap in Hin as ([id info'] & -> & Hin).
    apply elem_of_map_to_list in Hin. exists id, info'. split; [exact Hin | reflexivity].
  - intros (id & info & Hl & <-). exists info. split; [reflexivity |].
    apply list_elem_of_fmap. exists (id, info).
    split; [reflexivity | apply elem_of_map_to_list, Hl].
Qed.

Lemma load_sheets_cache (pf : Platform) (dir : string) (todo : list Z) :
  forall a : SpriteAnimator.t,
    let result := SpriteAnimator.load_sheets pf dir todo a in
    SpriteAnimator.sprite_details (snd result) = SpriteAnimator.sprite_details a
    /\ SpriteAnimator.direction_frames (snd result)
       = SpriteAnimator.direction_frames a
    /\ (fst result = true ->
        forall n,
          SpriteAnimator.spritesheets (snd result) !! n =
            if decide (n ∈ todo)
            then Some (load_pixmap pf (SpriteAnimator.sheet_filename dir n))
            else SpriteAnimator.spritesheets a !! n).
Proof.
  induction todo as [| m todo IH]; intros a; cbn [SpriteAnimator.load_sheets].
  - cbn [fst snd]. split; [reflexivity |]. split; [reflexivity |].
    intros _ n. rewrite decide_False; [reflexivity |].
    intros Hn. inversion Hn.
  - destruct (isNull (load_pixmap pf (SpriteAnimator.sheet_filename dir m))) eqn:Em.
    + cbn [fst snd]. split; [reflexivity |]. split; [reflexivity |]. discriminate.
    + pose proof (IH (SpriteAnimator.set_spritesheets
                        (<[m := load_pixmap pf (SpriteAnimator.sheet_filename dir m)]>
                           (SpriteAnimator.spritesheets a)) a)) as Hrec.
      cbn zeta in Hrec. destruct Hrec as (Hd & Hf & Hc).
      split; [exact Hd |]. split; [exact Hf |].
      intros Hok n. rewrite (Hc Hok n).
      cbn [SpriteAnimator.spritesheets SpriteAnimator.set_spritesheets].
      destruct (decide (n ∈ todo)) as [Hin | Hnin].
      * rewrite decide_True by (right; exact Hin). reflexivity.
      * destruct (decide (n = m)) as [-> | Hne].
        -- rewrite decide_True by left. apply lookup_insert_eq.
        -- rewrite decide_False.
           ++ apply lookup_insert_ne. congruence.
           ++ intros Hin. apply elem_of_cons in Hin as [Heq | Hin]; contradiction.
Qed.

(** When [load_spritesheet] succeeds, the sheet of every sprite of the
    table is in the cache: it is the pixmap of the file named after the
    sheet number, and it is not null. Cache entries of other sheet numbers
    and the table itself are as before. *)
Theorem load_spritesheet_caches_all
    (pf : Platform) (dir : string) (a : SpriteAnimator.t) :
  fst (SpriteAnimator.load_spritesheet pf dir a) = true ->
  let a' := snd (SpriteAnimator.load_spritesheet pf dir a) in
  SpriteAnimator.sprite_details a' = SpriteAnimator.sprite_details a
  /\ (forall id info,
        SpriteAnimator.sprite_details a !! id = Some info ->
        SpriteAnimator.spritesheets a' !! sheet_num info
        = Some (load_pixmap pf (SpriteAnimator.sheet_filename dir (sheet_num info)))
        /\ isNull (load_pixmap pf (SpriteAnimator.sheet_filename dir (sheet_num info)))
           = false)
  /\ (forall n,
        n ∉ SpriteAnimator.sheet_numbers a ->
        SpriteAnimator.spritesheets a' !! n = SpriteAnimator.spritesheets a !! n).
Proof.
  intros Hok a'. subst a'. unfold SpriteAnimator.load_spritesheet in *.
  pose proof (load_sheets_cache pf dir
                (elements (SpriteAnimator.sheet_numbers a)) a) as Hc.
  cbn zeta in Hc. destruct Hc as (Hd & _ & Hcache). specialize (Hcache Hok).
  pose proof (proj1 (load_sheets_true_iff pf dir
                       (elements (SpriteAnimator.sheet_numbers a)) a) Hok) as Hall.
  split; [exact Hd |]. split.
  - intros id info Hl.
    assert (Hin : sheet_num info ∈ elements (SpriteAnimator.sheet_numbers a)).
    { apply elem_of_elements, elem_of_sheet_numbers. eauto. }
    split; [| apply Hall, Hin].
    rewrite Hcache, decide_True by exact Hin. reflexivity.
  - intros n Hn. rewrite Hcache, decide_False; [reflexivity |].
    intros Hin. apply Hn, elem_of_elements, Hin.
Qed.

Lemma load_spritesheet_caches_all_witness :
  SpriteAnimator.spritesheets single_row_animator !! 0
  = Some (Pixmap_image "./output/sprite_0.png" 512 512).
Proof.
  assert (Hok : fst (SpriteAnimator.load_spritesheet single_row_platform "./output/"
                       (snd (SpriteAnimator.load_sprite_info single_row_platform
                               "./output/sprites.nfo" (SpriteAnimator.init 1))))
                = true) by (vm_compute; reflexivity).
  destruct (load_spritesheet_caches_all _ _ _ Hok) as (_ & Hcache & _).
  destruct (Hcache 100 (mkSpriteInfo 0 0 100 32 32 0 0 0 0)) as (Hsheet & _);
    [vm_compute; reflexivity |].
  exact Hsheet.
Defined.

(** ** DesktopPeep, further *)




(** The draws of the fallback branch of [__init__]. *)
Lemma fallback_draws (w : Py.World) :
  exists x y dx dy w',
    Py.randint 0 800 w = Py.Ok (x, Py.mkWorld (Py.wall_clock w) (Py.clock_reads w)
                                        (Py.entropy w) (S (Py.draws w)))
    /\ Py.randint 0 600 (Py.mkWorld (Py.wall_clock w) (Py.clock_reads w)
                            (Py.entropy w) (S (Py.draws w)))
       = Py.Ok (y, Py.mkWorld (Py.wall_clock w) (Py.clock_reads w)
                      (Py.entropy w) (S (S (Py.draws w))))
    /\ Py.choice [-2; -1; 1; 2]
         (Py.mkWorld (Py.wall_clock w) (Py.clock_reads w) (Py.entropy w)
            (S (S (Py.draws w))))
       = Py.Ok (dx, Py.mkWorld (Py.wall_clock w) (Py.clock_reads w)
                       (Py.entropy w) (S (S (S (Py.draws w)))))
    /\ Py.choice [-2; -1; 1; 2]
         (Py.mkWorld (Py.wall_clock w) (Py.clock_reads w) (Py.entropy w)
            (S (S (S (Py.draws w)))))
       = Py.Ok (dy, w')
    /\ w' = Py.mkWorld (Py.wall_clock w) (Py.clock_reads w) (Py.entropy w)
              (S (S (S (S (Py.draws w)))))
    /\ 0 <= x <= 800 /\ 0 <= y <= 600
    /\ dx ∈ [-2; -1; 1; 2] /\ dy ∈ [-2; -1; 1; 2].
Proof.
  destruct (randint_spec 0 800 w ltac:(lia)) as (x & Ex & Hx & _).
  set (w1 := Py.mkWorld _ _ _ _) in Ex.
  destruct (randint_spec 0 600 w1 ltac:(lia)) as (y & Ey & Hy & _).
  set (w2 := Py.mkWorld _ _ _ _) in Ey.
  destruct (choice_spec [-2; -1; 1; 2] w2 ltac:(discriminate)) as (dx & Edx & Hdx).
  set (w3 := Py.mkWorld _ _ _ _) in Edx.
  destruct (choice_spec [-2; -1; 1; 2] w3 ltac:(discriminate)) as (dy & Edy & Hdy).
  exists x, y, dx, dy. eexists. repeat split; try eassumption; try lia.
Qed.

(** [__init__] in the three cases its condition distinguishes. *)
Lemma init_cases (pf : Platform) (ids : list Z) (nfo dir : string) (scale : Q)
    (w : Py.World) :
  let info := SpriteAnimator.load_sprite_info pf nfo (SpriteAnimator.init scale) in
  let sheets := SpriteAnimator.load_spritesheet pf dir (snd info) in
  (fst info && fst sheets = false ->
   exists x y dx dy w' a,
     DesktopPeep.init pf ids nfo dir scale w
     = Py.Ok (DesktopPeep.mk a true
                (Some (Pixmap_filled (Py.int_of_float (64 * scale))
                         (Py.int_of_float (64 * scale)) yellow))
                x y dx dy
                (mkItem (Pixmap_filled (Py.int_of_float (64 * scale))
                           (Py.int_of_float (64 * scale)) yellow) (0, 0)%Q), w')
     /\ Py.draws w' = S (S (S (S (Py.draws w))))
     /\ 0 <= x <= 800 /\ 0 <= y <= 600
     /\ dx ∈ [-2; -1; 1; 2] /\ dy ∈ [-2; -1; 1; 2]
     /\ SpriteAnimator.is_moving a = false)
  /\ (fst info && fst sheets = true ->
      DesktopPeep.init pf ids nfo dir scale w
      = (animator ← SpriteAnimator.load_direction_frames pf ids 5 (snd sheets);
         mret (DesktopPeep.mk (SpriteAnimator.set_move_speed (1 # 2) animator)
                 false None 0 0 0 0 (mkItem Pixmap_null (0, 0)%Q))) w).
Proof.
  intros info sheets. subst sheets info. unfold DesktopPeep.init. cbn zeta.
  destruct (SpriteAnimator.load_sprite_info pf nfo (SpriteAnimator.init scale))
    as [info_ok a1] eqn:Einfo.
  cbn [fst snd].
  assert (Hmove1 : SpriteAnimator.is_moving a1 = false).
  { unfold SpriteAnimator.load_sprite_info in Einfo.
    destruct (csv_rows pf nfo) as [rows |]; injection Einfo as _ <-; [| reflexivity].
    pose proof (load_rows_other_fields rows (SpriteAnimator.init scale)) as Ho.
    cbn zeta in Ho. destruct Ho as (_ & _ & _ & _ & _ & _ & ->). reflexivity. }
  destruct (fallback_draws w)
    as (x & y & dx & dy & w' & Ex & Ey & Edx & Edy & -> & Hx & Hy & Hdx & Hdy).
  destruct info_ok; cbn [negb andb].
  - destruct (SpriteAnimator.load_spritesheet pf dir a1) as [loaded a2] eqn:Esheet.
    cbn [fst snd]. destruct loaded; cbn [negb].
    + split; [discriminate | intros _; reflexivity].
    + split; [intros _ | discriminate].
      exists x, y, dx, dy. eexists _, a2. split.
      * unfold mbind, Py_mbind, Py.bind, mret, Py_mret, Py.ret.
        rewrite Ex, Ey, Edx, Edy. reflexivity.
      * repeat split; try assumption; try lia.
        unfold SpriteAnimator.load_spritesheet in Esheet.
        assert (Hm : forall todo a,
                   SpriteAnimator.is_moving
                     (snd (SpriteAnimator.load_sheets pf dir todo a))
                   = SpriteAnimator.is_moving a).
        { induction todo as [| m todo IH]; intros a; cbn [SpriteAnimator.load_sheets];
            [reflexivity |].
          destruct (isNull _); [reflexivity |]. rewrite IH. reflexivity. }
        rewrite <- Hmove1, <- (Hm (elements (SpriteAnimator.sheet_numbers a1)) a1).
        rewrite Esheet. reflexivity.
  - split; [intros _ | discriminate].
    exists x, y, dx, dy. eexists _, a1. split.
    + unfold mbind, Py_mbind, Py.bind, mret, Py_mret, Py.ret.
      rewrite Ex, Ey, Edx, Edy. reflexivity.
    + repeat split; try assumption; lia.
Qed.

(** A peep built as a fallback starts at a position drawn from
    [0..800] x [0..600], whatever the screen, with each velocity component
    drawn from [-2, -1, 1, 2] (never 0); it shows a yellow square of side
    [int(64 * scale_factor)], still at the origin until [setup] places it,
    and its animator is not walking. Four random numbers are drawn. *)
Theorem fallback_peep_start
    (pf : Platform) (ids : list Z) (nfo dir : string) (scale : Q)
    (w w' : Py.World) (p : DesktopPeep.t) :
  DesktopPeep.init pf ids nfo dir scale w = Py.Ok (p, w') ->
  DesktopPeep.use_fallback p = true ->
  0 <= DesktopPeep.x p <= 800
  /\ 0 <= DesktopPeep.y p <= 600
  /\ DesktopPeep.dx p ∈ [-2; -1; 1; 2]
  /\ DesktopPeep.dy p ∈ [-2; -1; 1; 2]
  /\ DesktopPeep.dx p <> 0 /\ DesktopPeep.dy p <> 0
  /\ DesktopPeep.graphics_item p
     = mkItem (Pixmap_filled (Py.int_of_float (64 * scale))
                 (Py.int_of_float (64 * scale)) yellow) (0, 0)%Q
  /\ SpriteAnimator.is_moving (DesktopPeep.animator p) = false
  /\ Py.draws w' = S (S (S (S (Py.draws w)))).
Proof.
  intros Hinit Hfb.
  pose proof (init_use_fallback _ _ _ _ _ _ _ _ Hinit) as Hu. cbn zeta in Hu.
  rewrite Hfb in Hu. symmetry in Hu. apply negb_true_iff in Hu.
  destruct (init_cases pf ids nfo dir scale w) as (Hfall & _).
  destruct (Hfall Hu) as (x & y & dx & dy & w2 & a & E & Hdr & Hx & Hy & Hdx & Hdy & Hm).
  rewrite E in Hinit. injection Hinit as <- <-.
  cbn.
  repeat split; try assumption; try lia.
  - intros ->. repeat (apply elem_of_cons in Hdx as [Hdx | Hdx]; [discriminate |]).
    inversion Hdx.
  - intros ->. repeat (apply elem_of_cons in Hdy as [Hdy | Hdy]; [discriminate |]).
    inversion Hdy.
Qed.

Lemma fallback_peep_start_witness :
  exists p w',
    fallback_peep_run = Py.Ok (p, w')
    /\ 0 <= DesktopPeep.x p <= 800
    /\ DesktopPeep.dx p <> 0.
Proof.
  assert (exists p w', fallback_peep_run = Py.Ok (p, w')) as (p & w' & E)
    by (vm_compute; eauto).
  assert (Hfb : DesktopPeep.use_fallback p = true).
  { revert E. vm_compute. intros E. injection E as <- _. reflexivity. }
  destruct (fallback_peep_start _ _ _ _ _ _ _ _ E Hfb) as (Hx & _ & _ & _ & Hdx & _).
  exists p, w'. split; [exact E |]. split; assumption.
Defined.





(** ** The fallback peep, further *)

Lemma setup_fallback (W H : Z) (p : DesktopPeep.t) (w : Py.World) :
  DesktopPeep.use_fallback p = true ->
  DesktopPeep.setup W H p w
  = Py.Ok (DesktopPeep.set_graphics_item
             (setPos (inject_Z (DesktopPeep.x p)) (inject_Z (DesktopPeep.y p))
                (DesktopPeep.graphics_item p)) p, w).
Proof.
  intros Hfb. unfold DesktopPeep.setup. rewrite Hfb. reflexivity.
Qed.

Lemma update_fallback_eq (W H : Z) (p : DesktopPeep.t) (w : Py.World) :
  DesktopPeep.use_fallback p = true ->
  DesktopPeep.update W H p w = Py.Ok (DesktopPeep.update_fallback W H p, w).
Proof.
  intros Hfb. unfold DesktopPeep.update. rewrite Hfb. reflexivity.
Qed.

Lemma update_fallback_speed (W H : Z) (p : DesktopPeep.t) :
  Z.abs (DesktopPeep.dx (DesktopPeep.update_fallback W H p)) = Z.abs (DesktopPeep.dx p)
  /\ Z.abs (DesktopPeep.dy (DesktopPeep.update_fallback W H p))
     = Z.abs (DesktopPeep.dy p).
Proof.
  pose proof (update_fallback_fields W H p) as F. cbn zeta in F.
  destruct F as (_ & _ & Hdx & Hdy & _). rewrite Hdx, Hdy.
  split.
  - destruct ((DesktopPeep.x p + DesktopPeep.dx p <? 0)
              || (W <? DesktopPeep.x p + DesktopPeep.dx p + 64)); lia.
  - destruct ((DesktopPeep.y p + DesktopPeep.dy p <? 0)
              || (H <? DesktopPeep.y p + DesktopPeep.dy p + 64)); lia.
Qed.

(** A fallback peep is self-contained: whatever [setup] and [update] calls
    it receives, none raises, none reads the clock or draws a random number,
    none touches its animator, and the absolute values of [dx] and [dy] stay
    what they were at construction. *)
Theorem fallback_lifetime_quiet
    (calls : list peep_call) (p : DesktopPeep.t) (w : Py.World) :
  DesktopPeep.use_fallback p = true ->
  exists p',
    lifetime calls p w = Py.Ok (p', w)
    /\ DesktopPeep.use_fallback p' = true
    /\ DesktopPeep.animator p' = DesktopPeep.animator p
    /\ Z.abs (DesktopPeep.dx p') = Z.abs (DesktopPeep.dx p)
    /\ Z.abs (DesktopPeep.dy p') = Z.abs (DesktopPeep.dy p).
Proof.
  revert p. induction calls as [| [W H | W H] calls IH]; intros p Hfb.
  - exists p. repeat split; assumption.
  - destruct (IH (DesktopPeep.set_graphics_item
                    (setPos (inject_Z (DesktopPeep.x p)) (inject_Z (DesktopPeep.y p))
                       (DesktopPeep.graphics_item p)) p) Hfb)
      as (p' & E & Hfb' & Ha & Hdx & Hdy).
    exists p'. split; [| repeat split; assumption].
    cbn [lifetime]. unfold mbind, Py_mbind, Py.bind.
    rewrite setup_fallback by exact Hfb. exact E.
  - pose proof (update_fallback_fields W H p) as F. cbn zeta in F.
    destruct F as (_ & _ & _ & _ & Hu & Han).
    destruct (update_fallback_speed W H p) as (Sx & Sy).
    destruct (IH (DesktopPeep.update_fallback W H p) ltac:(congruence))
      as (p' & E & Hfb' & Ha & Hdx & Hdy).
    exists p'. split; [| repeat split; congruence].
    cbn [lifetime]. unfold mbind, Py_mbind, Py.bind.
    rewrite update_fallback_eq by exact Hfb. exact E.
Qed.

Lemma fallback_lifetime_quiet_witness :
  exists p',
    lifetime [Setup 640 480; Update 640 480; Update 800 600] corner_peep
      (example_world []) = Py.Ok (p', example_world [])
    /\ Z.abs (DesktopPeep.dx p') = 2.
Proof.
  destruct (fallback_lifetime_quiet [Setup 640 480; Update 640 480; Update 800 600]
              corner_peep (example_world []) eq_refl) as (p' & E & _ & _ & Hdx & _).
  exists p'. split; [exact E | exact Hdx].
Defined.

Lemma swing_x_step (c W H : Z) (p : DesktopPeep.t) :
  swing_x c W p -> swing_x c W (DesktopPeep.update_fallback W H p).
Proof.
  unfold swing_x, inside_x.
  pose proof (update_fallback_fields W H p) as F. cbn zeta in F.
  destruct F as (Hx & _ & Hdx & _). rewrite Hx, Hdx.
  destruct ((DesktopPeep.x p + DesktopPeep.dx p <? 0)
            || (W <? DesktopPeep.x p + DesktopPeep.dx p + 64)) eqn:Eo.
  - apply orb_true_iff in Eo. rewrite !Z.ltb_lt in Eo. intros (Hw & Hc & Hcases). lia.
  - apply orb_false_iff in Eo. rewrite !Z.ltb_ge in Eo. intros (Hw & Hc & Hcases). lia.
Qed.

Lemma swing_y_step (c W H : Z) (p : DesktopPeep.t) :
  swing_y c H p -> swing_y c H (DesktopPeep.update_fallback W H p).
Proof.
  unfold swing_y, inside_y.
  pose proof (update_fallback_fields W H p) as F. cbn zeta in F.
  destruct F as (_ & Hy & _ & Hdy & _). rewrite Hy, Hdy.
  destruct ((DesktopPeep.y p + DesktopPeep.dy p <? 0)
            || (H <? DesktopPeep.y p + DesktopPeep.dy p + 64)) eqn:Eo.
  - apply orb_true_iff in Eo. rewrite !Z.ltb_lt in Eo. intros (Hw & Hc & Hcases). lia.
  - apply orb_false_iff in Eo. rewrite !Z.ltb_ge in Eo. intros (Hw & Hc & Hcases). lia.
Qed.

Lemma peep_ticks_swing (n : nat) (W H : Z) :
  forall (p : DesktopPeep.t) (w : Py.World),
    DesktopPeep.use_fallback p = true ->
    exists p',
      peep_ticks n W H p w = Py.Ok (p', w)
      /\ (forall c, swing_x c W p -> swing_x c W p')
      /\ (forall c, swing_y c H p -> swing_y c H p').
Proof.
  unfold peep_ticks.
  induction n as [| n IH]; intros p w Hfb.
  - exists p. split; [reflexivity | split; auto].
  - pose proof (update_fallback_fields W H p) as F. cbn zeta in F.
    destruct F as (_ & _ & _ & _ & Hu & _).
    destruct (IH (DesktopPeep.update_fallback W H p) w ltac:(congruence))
      as (p' & E & Hsx & Hsy).
    exists p'. split; [| split].
    + cbn [repeat lifetime]. unfold mbind, Py_mbind, Py.bind.
      rewrite update_fallback_eq by exact Hfb. exact E.
    + intros c Hc. apply Hsx, swing_x_step, Hc.
    + intros c Hc. apply Hsy, swing_y_step, Hc.
Qed.

(** A fallback peep that is within the screen on an axis never gets
    further than one step beyond the screen on that axis: after any number
    of ticks [- |dx| <= x <= screenW - 64 + |dx|] (and likewise for [y]), for
    every screen at least as large as the 64-pixel square. *)
Theorem fallback_stays_near_screen
    (n : nat) (W H : Z) (p : DesktopPeep.t) (w : Py.World) :
  DesktopPeep.use_fallback p = true ->
  exists p',
    peep_ticks n W H p w = Py.Ok (p', w)
    /\ (inside_x W p ->
        - Z.abs (DesktopPeep.dx p) <= DesktopPeep.x p'
        <= W - 64 + Z.abs (DesktopPeep.dx p))
    /\ (inside_y H p ->
        - Z.abs (DesktopPeep.dy p) <= DesktopPeep.y p'
        <= H - 64 + Z.abs (DesktopPeep.dy p)).
Proof.
  intros Hfb.
  destruct (peep_ticks_swing n W H p w Hfb) as (p' & E & Hsx & Hsy).
  exists p'. split; [exact E |]. split.
  - intros Hin.
    assert (Hs : swing_x (Z.abs (DesktopPeep.dx p)) W p)
      by (unfold inside_x in Hin; split; [lia | split; [reflexivity | left; exact Hin]]).
    apply Hsx in Hs. unfold swing_x, inside_x in Hs. lia.
  - intros Hin.
    assert (Hs : swing_y (Z.abs (DesktopPeep.dy p)) H p)
      by (unfold inside_y in Hin; split; [lia | split; [reflexivity | left; exact Hin]]).
    apply Hsy in Hs. unfold swing_y, inside_y in Hs. lia.
Qed.

Lemma fallback_stays_near_screen_witness :
  exists p',
    peep_ticks 1000 640 480 corner_peep (example_world [])
      = Py.Ok (p', example_world [])
    /\ -2 <= DesktopPeep.x p' <= 578.
Proof.
  destruct (fallback_stays_near_screen 1000 640 480 corner_peep (example_world [])
              eq_refl) as (p' & E & Hx & _).
  exists p'. split; [exact E |].
  apply Hx. unfold inside_x. cbn. lia.
Defined.

(** ** The graphics item *)

(** After an [update] that returns, the graphics item is where the peep
    is: at [(x, y)] for a fallback peep, at the animator's position for an
    animated one, which then also shows the current frame when there is one
    and keeps its pixmap when there is none. [setup] places the item of a
    fallback peep only: an animated peep stays drawn where it was, without
    its frame, until its first update. *)
Theorem graphics_item_follows_peep
    (W H : Z) (p p' : DesktopPeep.t) (w w' : Py.World) :
  (DesktopPeep.update W H p w = Py.Ok (p', w') ->
   (DesktopPeep.use_fallback p = true ->
    item_pos (DesktopPeep.graphics_item p')
    = (inject_Z (DesktopPeep.x p'), inject_Z (DesktopPeep.y p'))
    /\ item_pixmap (DesktopPeep.graphics_item p')
       = item_pixmap (DesktopPeep.graphics_item p))
   /\ (DesktopPeep.use_fallback p = false ->
       item_pos (DesktopPeep.graphics_item p')
       = SpriteAnimator.get_position (DesktopPeep.animator p')
       /\ (forall f,
             SpriteAnimator.get_current_frame (DesktopPeep.animator p')
             = Py.Ok (Some f) ->
             item_pixmap (DesktopPeep.graphics_item p') = pixmap f)
       /\ (SpriteAnimator.get_current_frame (DesktopPeep.animator p') = Py.Ok None ->
           item_pixmap (DesktopPeep.graphics_item p')
           = item_pixmap (DesktopPeep.graphics_item p))))
  /\ (DesktopPeep.setup W H p w = Py.Ok (p', w') ->
      (DesktopPeep.use_fallback p = true ->
       item_pos (DesktopPeep.graphics_item p')
       = (inject_Z (DesktopPeep.x p), inject_Z (DesktopPeep.y p)))
      /\ (DesktopPeep.use_fallback p = false ->
          DesktopPeep.graphics_item p' = DesktopPeep.graphics_item p)).
Proof.
  split.
  - intros Hup. split.
    + intros Hfb. rewrite update_fallback_eq in Hup by exact Hfb.
      injection Hup as <- _.
      destruct p as [a f fp x y dx dy g].
      cbv beta iota zeta delta
        [DesktopPeep.update_fallback DesktopPeep.x DesktopPeep.y DesktopPeep.dx
         DesktopPeep.dy DesktopPeep.graphics_item DesktopPeep.set_x
         DesktopPeep.set_y DesktopPeep.set_dx DesktopPeep.set_dy
         DesktopPeep.set_graphics_item setPos item_pos item_pixmap].
      destruct ((x + dx <? 0) || (W <? x + dx + 64));
        destruct ((y + dy <? 0) || (H <? y + dy + 64)); split; reflexivity.
    + intros Hfb. unfold DesktopPeep.update in Hup. rewrite Hfb in Hup.
      apply bind_ok in Hup as (a & w1 & _ & Hup).
      apply bind_ok in Hup as (frame & w2 & Hframe & Hret).
      unfold SpriteAnimator.get_position in *.
      unfold mret, Py_mret, Py.ret in Hret. injection Hret as <- _.
      assert (Hget : SpriteAnimator.get_current_frame a = Py.Ok frame).
      { unfold SpriteAnimator.lift in Hframe.
        destruct (SpriteAnimator.get_current_frame a) as [fr | e];
          [| discriminate].
        unfold mret, Py_mret, Py.ret in Hframe. injection Hframe as -> _. reflexivity. }
      destruct frame as [fr |]; cbn; rewrite Hget.
      * split; [reflexivity |]. split; [| discriminate].
        intros f Hf. injection Hf as <-. reflexivity.
      * split; [reflexivity |]. split; [discriminate | reflexivity].
  - intros Hsetup. split.
    + intros Hfb. rewrite setup_fallback in Hsetup by exact Hfb.
      injection Hsetup as <- _. reflexivity.
    + intros Hfb. unfold DesktopPeep.setup in Hsetup. rewrite Hfb in Hsetup.
      apply bind_ok in Hsetup as (a & w1 & _ & Hret).
      unfold mret, Py_mret, Py.ret in Hret. injection Hret as <- _. reflexivity.
Qed.

Lemma graphics_item_follows_peep_witness :
  item_pos (DesktopPeep.graphics_item (DesktopPeep.update_fallback 640 480 corner_peep))
  = (inject_Z (-1), inject_Z 101).
Proof.
  destruct (graphics_item_follows_peep 640 480 corner_peep
              (DesktopPeep.update_fallback 640 480 corner_peep)
              (example_world []) (example_world [])) as (Hup & _).
  destruct (Hup eq_refl) as (Hfb & _).
  destruct (Hfb eq_refl) as (Hpos & _). exact Hpos.
Defined.

(** ** The audio manager *)

Lemma toggle_mute_consistent (audio : AudioManager.t) (mixer : Mixer) :
  let '(r, audio', mixer') := AudioManager.toggle_mute audio mixer in
  r = negb (AudioManager.is_muted audio)
  /\ AudioManager.is_muted audio' = r
  /\ AudioManager.music_playing audio' = AudioManager.music_playing audio
  /\ AudioManager.current_volume audio' = AudioManager.current_volume audio
  /\ music_busy mixer' = music_busy mixer
  /\ music_loaded mixer' = music_loaded mixer
  /\ music_volume mixer'
     = (if r then 0%Q else AudioManager.current_volume audio).
Proof.
  unfold AudioManager.toggle_mute.
  destruct (AudioManager.is_muted audio); cbn; repeat split.
Qed.

(** [toggle_mute] is its own inverse on the manager: two calls return
    first the opposite of [is_muted] and then [is_muted] itself, leave the
    manager as it was, and leave the player at the volume that goes with
    that state (0 when muted, [current_volume] otherwise) without touching
    what is loaded or playing. *)
Theorem toggle_mute_twice (audio : AudioManager.t) (mixer : Mixer) :
  let '(r1, audio1, mixer1) := AudioManager.toggle_mute audio mixer in
  let '(r2, audio2, mixer2) := AudioManager.toggle_mute audio1 mixer1 in
  r1 = negb (AudioManager.is_muted audio)
  /\ r2 = AudioManager.is_muted audio
  /\ audio2 = audio
  /\ music_volume mixer1
     = (if AudioManager.is_muted audio then AudioManager.current_volume audio
        else 0%Q)
  /\ music_volume mixer2
     = (if AudioManager.is_muted audio then 0%Q
        else AudioManager.current_volume audio)
  /\ music_busy mixer2 = music_busy mixer
  /\ music_loaded mixer2 = music_loaded mixer.
Proof.
  destruct audio as [playing muted volume]. unfold AudioManager.toggle_mute.
  destruct muted; cbn; repeat split.
Qed.

Lemma audio_calls_consistent (calls : list audio_call) :
  forall (audio : AudioManager.t) (mixer : Mixer),
    audio_consistent audio mixer ->
    let '(audio', mixer') := audio_calls calls audio mixer in
    audio_consistent audio' mixer'
    /\ AudioManager.current_volume audio' = AudioManager.current_volume audio
    /\ music_loaded mixer' = music_loaded mixer.
Proof.
  induction calls as [| [|] calls IH]; intros audio mixer (Hb & Hv);
    cbn [audio_calls].
  - repeat split; assumption.
  - pose proof (toggle_mute_consistent audio mixer) as Ht.
    destruct (AudioManager.toggle_mute audio mixer) as [[r audio1] mixer1].
    destruct Ht as (Hr & Hm & Hp & Hc & Hbusy & Hl & Hvol).
    assert (Hcons : audio_consistent audio1 mixer1).
    { split; [congruence |]. rewrite Hvol, Hm, Hc. reflexivity. }
    specialize (IH audio1 mixer1 Hcons).
    destruct (audio_calls calls audio1 mixer1) as [audio' mixer'].
    destruct IH as (Hc' & Hv' & Hl'). repeat split; try apply Hc'; congruence.
  - unfold AudioManager.stop_music.
    destruct (AudioManager.music_playing audio) eqn:Ep.
    + assert (Hcons : audio_consistent
                        (AudioManager.mk false (AudioManager.is_muted audio)
                           (AudioManager.current_volume audio))
                        (music_stop mixer)).
      { split; [reflexivity | exact Hv]. }
      specialize (IH _ _ Hcons).
      destruct (audio_calls calls _ (music_stop mixer)) as [audio' mixer'].
      exact IH.
    + assert (Hcons : audio_consistent audio mixer).
      { split; [rewrite Ep; exact Hb | exact Hv]. }
      specialize (IH _ _ Hcons).
      destruct (audio_calls calls audio mixer) as [audio' mixer'].
      exact IH.
Qed.

(** Once a new manager has started a music file that exists and loads,
    the player does what the manager believes through any sequence of mute
    clicks and stops: it plays exactly when [music_playing] says so, at
    volume 0 when [is_muted] and at the unchanged [current_volume] of 0.7
    otherwise, with the same file loaded. *)
Theorem music_follows_manager
    (files : AudioFiles) (music_file : string) (calls : list audio_call) :
  path_exists files music_file = true ->
  music_loads files music_file = true ->
  let started :=
    AudioManager.play_music files music_file
      (fst AudioManager.init) (snd AudioManager.init) in
  let final := audio_calls calls (fst started) (snd started) in
  AudioManager.music_playing (fst started) = true
  /\ audio_consistent (fst started) (snd started)
  /\ audio_consistent (fst final) (snd final)
  /\ AudioManager.current_volume (fst final) = (7 # 10)%Q
  /\ music_loaded (snd final) = Some music_file.
Proof.
  intros He Hl started final. subst final started.
  unfold AudioManager.play_music. rewrite He, Hl. cbn [fst snd AudioManager.init].
  set (a1 := AudioManager.mk true _ _). set (m1 := music_set_volume _ _).
  assert (Hcons : audio_consistent a1 m1) by (split; reflexivity).
  split; [reflexivity |]. split; [exact Hcons |].
  pose proof (audio_calls_consistent calls a1 m1 Hcons) as Hc.
  destruct (audio_calls calls a1 m1) as [a2 m2]. cbn [fst snd].
  destruct Hc as (Hc & Hv & Hld). split; [exact Hc |]. split; [exact Hv | exact Hld].
Qed.

Lemma music_follows_manager_witness :
  let final :=
    audio_calls [ToggleMute; ToggleMute; ToggleMute; StopMusic]
      (fst (AudioManager.play_music all_audio "music.mp3" (fst AudioManager.init)
              (snd AudioManager.init)))
      (snd (AudioManager.play_music all_audio "music.mp3" (fst AudioManager.init)
              (snd AudioManager.init))) in
  audio_consistent (fst final) (snd final)
  /\ (music_volume (snd final) == 0)%Q.
Proof.
  intros final.
  destruct (music_follows_manager all_audio "music.mp3"
              [ToggleMute; ToggleMute; ToggleMute; StopMusic] eq_refl eq_refl)
    as (_ & _ & Hc & _).
  split; [exact Hc | reflexivity].
Defined.

(** ** The control panel *)

Lemma toggle_minimize_shape (W H : Z) (panel : ControlPanel.t) :
  button_visible (ControlPanel.minimize_button panel) = true ->
  let panel' := ControlPanel.toggle_minimize W H panel in
  panel_shape W H panel'
  /\ ControlPanel.is_minimized panel' = negb (ControlPanel.is_minimized panel)
  /\ button_text (ControlPanel.mute_button panel')
     = button_text (ControlPanel.mute_button panel)
  /\ button_text (ControlPanel.close_button panel')
     = button_text (ControlPanel.close_button panel)
  /\ ControlPanel.is_open panel' = ControlPanel.is_open panel.
Proof.
  intros Hvis. unfold ControlPanel.toggle_minimize, panel_shape.
  destruct (ControlPanel.is_minimized panel); cbn; repeat split; exact Hvis.
Qed.

Lemma minimize_clicks_shape (k : nat) (W H : Z) :
  forall panel : ControlPanel.t,
    panel_shape W H panel ->
    let panel' := minimize_clicks k W H panel in
    panel_shape W H panel'
    /\ ControlPanel.is_minimized panel'
       = xorb (ControlPanel.is_minimized panel) (Nat.odd k)
    /\ button_text (ControlPanel.mute_button panel')
       = button_text (ControlPanel.mute_button panel)
    /\ ControlPanel.is_open panel' = ControlPanel.is_open panel.
Proof.
  induction k as [| k IH]; intros panel Hshape; cbn [minimize_clicks].
  - cbn zeta. split; [exact Hshape |].
    split; [destruct (ControlPanel.is_minimized panel); reflexivity |].
    split; reflexivity.
  - pose proof (toggle_minimize_shape W H panel
                  (proj1 (proj2 (proj2 (proj2 (proj2 Hshape)))))) as Ht.
    cbn zeta in Ht.
    destruct Ht as (Hs1 & Hm1 & Ht1 & _ & Ho1).
    specialize (IH _ Hs1). cbn zeta in IH. destruct IH as (Hs & Hm & Ht & Ho).
    cbn zeta. split; [exact Hs |]. split; [| split; congruence].
    rewrite Hm, Hm1, Nat.odd_succ, <- Nat.negb_odd.
    destruct (ControlPanel.is_minimized panel), (Nat.odd k); reflexivity.
Qed.

(** However often the minimize button is clicked, the panel stays anchored
    to the bottom right corner of the screen: its right edge is 10 pixels
    from the right edge of the screen and its top 60 pixels from the bottom.
    It is minimized after an odd number of clicks and expanded after an even
    number, 50 or 170 pixels wide accordingly, with the mute and close
    buttons shown exactly when it is expanded; the label of the mute
    button is not changed. *)
Theorem panel_stays_anchored (k : nat) (W H : Z) :
  let panel := minimize_clicks k W H (ControlPanel.init W H) in
  ControlPanel.is_minimized panel = Nat.odd k
  /\ fst (ControlPanel.pos panel) + fst (ControlPanel.size panel) = W - 10
  /\ snd (ControlPanel.pos panel) = H - 60
  /\ ControlPanel.size panel = (if Nat.odd k then (50, 50) else (170, 50))
  /\ button_visible (ControlPanel.mute_button panel) = negb (Nat.odd k)
  /\ button_visible (ControlPanel.close_button panel) = negb (Nat.odd k)
  /\ button_visible (ControlPanel.minimize_button panel) = true
  /\ button_text (ControlPanel.minimize_button panel)
     = (if Nat.odd k then "+" else "−")%string
  /\ button_text (ControlPanel.mute_button panel) = "🔊"%string
  /\ ControlPanel.is_open panel = true.
Proof.
  intros panel.
  assert (Hinit : panel_shape W H (ControlPanel.init W H))
    by (unfold panel_shape; cbn; repeat split).
  pose proof (minimize_clicks_shape k W H _ Hinit) as Hk. cbn zeta in Hk.
  fold panel in Hk. destruct Hk as ((Hp & Hs & Hmu & Hcl & Hmi & Htx) & Hm & Ht & Ho).
  cbn [ControlPanel.is_minimized ControlPanel.init xorb] in Hm.
  rewrite Hm in Hs, Hmu, Hcl, Htx.
  split; [exact Hm |]. rewrite Hp. cbn [fst snd].
  split; [lia |]. split; [reflexivity |].
  repeat split; assumption.
Qed.

Lemma mute_clicks_label (k : nat) :
  forall (panel : ControlPanel.t) (audio : AudioManager.t) (mixer : Mixer),
    let '(panel', audio', mixer') := mute_clicks (S k) panel audio mixer in
    button_text (ControlPanel.mute_button panel')
    = (if AudioManager.is_muted audio' then "🔇" else "🔊")%string
    /\ AudioManager.is_muted audio'
       = xorb (AudioManager.is_muted audio) (Nat.odd (S k))
    /\ music_volume mixer'
       = (if AudioManager.is_muted audio' then 0%Q
          else AudioManager.current_volume audio)
    /\ AudioManager.current_volume audio' = AudioManager.current_volume audio
    /\ ControlPanel.is_minimized panel' = ControlPanel.is_minimized panel
    /\ ControlPanel.pos panel' = ControlPanel.pos panel.
Proof.
  induction k as [| k IH]; intros panel audio mixer.
  - cbn [mute_clicks]. unfold ControlPanel.toggle_mute, AudioManager.toggle_mute.
    destruct (AudioManager.is_muted audio) eqn:Em; cbn; rewrite ?Em; repeat split.
  - change (mute_clicks (S (S k)) panel audio mixer)
      with (let '(panel1, audio1, mixer1) := ControlPanel.toggle_mute panel audio mixer in
            mute_clicks (S k) panel1 audio1 mixer1).
    assert (H1 : let '(panel1, audio1, mixer1) :=
                   ControlPanel.toggle_mute panel audio mixer in
                 AudioManager.is_muted audio1 = negb (AudioManager.is_muted audio)
                 /\ AudioManager.current_volume audio1
                    = AudioManager.current_volume audio
                 /\ ControlPanel.is_minimized panel1 = ControlPanel.is_minimized panel
                 /\ ControlPanel.pos panel1 = ControlPanel.pos panel).
    { unfold ControlPanel.toggle_mute, AudioManager.toggle_mute.
      destruct (AudioManager.is_muted audio); cbn; repeat split. }
    destruct (ControlPanel.toggle_mute panel audio mixer) as [[panel1 audio1] mixer1].
    destruct H1 as (Hm1 & Hv1 & Hmin1 & Hpos1).
    specialize (IH panel1 audio1 mixer1).
    destruct (mute_clicks (S k) panel1 audio1 mixer1) as [[panel' audio'] mixer'].
    destruct IH as (Hl & Hm & Hvol & Hv & Hmin & Hpos).
    split; [exact Hl |]. split.
    { rewrite Hm, Hm1, (Nat.odd_succ (S k)), <- Nat.negb_odd.
      destruct (AudioManager.is_muted audio), (Nat.odd (S k)); reflexivity. }
    split; [rewrite <- Hv1; exact Hvol |].
    split; [congruence |]. split; congruence.
Qed.

(** After any number of clicks on the mute button, at least one, the label
    of the button shows the state of the audio manager (the muted speaker
    exactly when [is_muted]), the manager is muted exactly when the number
    of clicks changed its state an odd number of times, and the player is
    at volume 0 when muted and at [current_volume] otherwise. Position and
    minimized state of the panel are not affected. *)
Theorem mute_label_tracks_manager
    (k : nat) (panel : ControlPanel.t) (audio : AudioManager.t) (mixer : Mixer) :
  let '(panel', audio', mixer') := mute_clicks (S k) panel audio mixer in
  button_text (ControlPanel.mute_button panel')
  = (if AudioManager.is_muted audio' then "🔇" else "🔊")%string
  /\ AudioManager.is_muted audio'
     = xorb (AudioManager.is_muted audio) (Nat.odd (S k))
  /\ music_volume mixer'
     = (if AudioManager.is_muted audio' then 0%Q
        else AudioManager.current_volume audio)
  /\ AudioManager.current_volume audio' = AudioManager.current_volume audio
  /\ ControlPanel.is_minimized panel' = ControlPanel.is_minimized panel
  /\ ControlPanel.pos panel' = ControlPanel.pos panel.
Proof. exact (mute_clicks_label k panel audio mixer). Qed.

(** ** The canvas *)

Lemma peep_made_ready (pf : Platform) (ids : list Z) (nfo dir : string)
    (scale : Q) (W H : Z) (p0 p : DesktopPeep.t) (w w1 w2 : Py.World) :
  DesktopPeep.init pf ids nfo dir scale w = Py.Ok (p0, w1) ->
  DesktopPeep.setup W H p0 w1 = Py.Ok (p, w2) ->
  DesktopPeep.use_fallback p = DesktopPeep.use_fallback p0
  /\ peep_ready W H p.
Proof.
  intros Hinit Hsetup.
  pose proof (setup_keeps_representation _ _ _ _ _ _ Hsetup) as Hrep.
  split; [exact Hrep |].
  pose proof (init_use_fallback _ _ _ _ _ _ _ _ Hinit) as Hu. cbn zeta in Hu.
  destruct (init_cases pf ids nfo dir scale w) as (Hfall & Hanim).
  unfold peep_ready. rewrite Hrep. split; intros Hfb.
  - rewrite Hfb in Hu. symmetry in Hu. apply negb_true_iff in Hu.
    destruct (Hfall Hu) as (x & y & dx & dy & w' & a & E & _ & Hx & Hy & _).
    rewrite E in Hinit. injection Hinit as <- <-.
    rewrite setup_fallback in Hsetup by reflexivity. injection Hsetup as <- _.
    cbn. repeat split; lia.
  - rewrite Hfb in Hu. symmetry in Hu. apply negb_false_iff in Hu.
    rewrite (Hanim Hu) in Hinit.
    apply bind_ok in Hinit as (a0 & w0 & _ & Hret).
    unfold mret, Py_mret, Py.ret in Hret. injection Hret as <- <-.
    unfold DesktopPeep.setup in Hsetup. cbn [DesktopPeep.use_fallback negb] in Hsetup.
    apply bind_ok in Hsetup as (a & w3 & Hwalk & Hret).
    unfold mret, Py_mret, Py.ret in Hret. injection Hret as <- _.
    cbn [DesktopPeep.animator DesktopPeep.set_animator] in *.
    destruct (setup_walking_heading _ _ _ _ _ _ _ _ Hwalk) as (Hhead & Hsp).
    destruct (setup_walking_returns _ _ _ _ _ _ _ _ Hwalk) as (Hfx & Hfy).
    destruct (setup_walking_spec W H None None _ w0 Hfx Hfy)
      as (s2 & w4 & E & Hm & Hw & Hh & _ & _ & _ & _ & Hxr & Hyr & _).
    rewrite E in Hwalk. injection Hwalk as <- _.
    split; [exact Hm |]. split; [| split; [exact Hhead | exact Hsp]].
    unfold within_screen. rewrite Hw, Hh. split; auto.
Qed.

Lemma add_peeps_spec (pf : Platform) (ids : list Z) (scale : Q) (nfo dir : string)
    (W H : Z) (P : DesktopPeep.t -> Prop) (todo : list Z) :
  (forall p0 p w w1 w2,
      DesktopPeep.init pf ids nfo dir scale w = Py.Ok (p0, w1) ->
      DesktopPeep.setup W H p0 w1 = Py.Ok (p, w2) -> P p) ->
  forall (acc peeps : list DesktopPeep.t) (w w' : Py.World),
    MultiPeepDesktopCanvas.add_peeps pf ids todo scale nfo dir W H acc w
    = Py.Ok (peeps, w') ->
    length peeps = (length acc + length todo)%nat
    /\ (Forall P acc -> Forall P peeps).
Proof.
  intros Hstep. induction todo as [| t todo IH]; intros acc peeps w w' Hadd;
    cbn [MultiPeepDesktopCanvas.add_peeps] in Hadd.
  - unfold mret, Py_mret, Py.ret in Hadd. injection Hadd as <- _.
    split; [cbn; lia | tauto].
  - apply bind_ok in Hadd as (p0 & w1 & Hinit & Hadd).
    apply bind_ok in Hadd as (p & w2 & Hsetup & Hadd).
    destruct (IH _ _ _ _ Hadd) as (Hlen & Hall).
    split; [rewrite Hlen, length_app; cbn; lia |].
    intros Hacc. apply Hall, Forall_app. split; [exact Hacc |].
    apply Forall_cons. split; [| apply Forall_nil_2].
    exact (Hstep _ _ _ _ _ Hinit Hsetup).
Qed.

(** A canvas that was constructed has exactly [n_peeps] peeps (none for a
    negative number). They all have the same representation, the fallback
    one exactly when the metadata or a sheet did not load, and each is ready
    to be ticked: a fallback square is placed at its position, an animated
    peep walks at speed 0.5 with its bounding box inside the screen. The
    music plays exactly when its file exists and loads, and the player is
    then consistent with the manager; the timer period is 16 ms. *)
Theorem canvas_init_peeps
    (pf : Platform) (files : AudioFiles) (W H : Z) (ids : list Z) (n_peeps : Z)
    (scale : Q) (nfo dir : string) (w w' : Py.World)
    (canvas : MultiPeepDesktopCanvas.t) (mixer : Mixer) :
  MultiPeepDesktopCanvas.init pf files W H ids n_peeps scale nfo dir w
  = Py.Ok (canvas, mixer, w') ->
  let info := SpriteAnimator.load_sprite_info pf nfo (SpriteAnimator.init scale) in
  let sheets := SpriteAnimator.load_spritesheet pf dir (snd info) in
  let music := "RollerCoaster Tycoon - Merry go round music.mp3"%string in
  length (MultiPeepDesktopCanvas.peeps canvas) = Z.to_nat n_peeps
  /\ Forall (fun p =>
               DesktopPeep.use_fallback p = negb (fst info && fst sheets)
               /\ peep_ready W H p)
       (MultiPeepDesktopCanvas.peeps canvas)
  /\ MultiPeepDesktopCanvas.screen_width canvas = W
  /\ MultiPeepDesktopCanvas.screen_height canvas = H
  /\ MultiPeepDesktopCanvas.timer_interval canvas = 16
  /\ MultiPeepDesktopCanvas.control_panel canvas = ControlPanel.init W H
  /\ AudioManager.music_playing (MultiPeepDesktopCanvas.audio_manager canvas)
     = path_exists files music && music_loads files music
  /\ (AudioManager.music_playing (MultiPeepDesktopCanvas.audio_manager canvas) = true ->
      audio_consistent (MultiPeepDesktopCanvas.audio_manager canvas) mixer).
Proof.
  intros Hinit info sheets music.
  unfold MultiPeepDesktopCanvas.init in Hinit.
  cbn [AudioManager.init] in Hinit. fold music in Hinit.
  destruct (AudioManager.play_music files music
              (AudioManager.mk false false (7 # 10)) mixer_init)
    as [audio mixer0] eqn:Eplay.
  apply bind_ok in Hinit as (peeps & w1 & Hadd & Hret).
  unfold mret, Py_mret, Py.ret in Hret. injection Hret as <- <- _.
  cbn [MultiPeepDesktopCanvas.peeps MultiPeepDesktopCanvas.screen_width
       MultiPeepDesktopCanvas.screen_height MultiPeepDesktopCanvas.timer_interval
       MultiPeepDesktopCanvas.control_panel MultiPeepDesktopCanvas.audio_manager].
  destruct (add_peeps_spec pf ids scale nfo dir W H
              (fun p => DesktopPeep.use_fallback p = negb (fst info && fst sheets)
                        /\ peep_ready W H p)
              (Py.range n_peeps)) with (acc := @nil DesktopPeep.t) (peeps := peeps)
              (w := w) (w' := w1) as (Hlen & Hall).
  { intros p0 p wa wb wc Hi Hs.
    destruct (peep_made_ready _ _ _ _ _ _ _ _ _ _ _ _ Hi Hs) as (Hrep & Hready).
    split; [| exact Hready].
    rewrite Hrep. exact (init_use_fallback _ _ _ _ _ _ _ _ Hi). }
  { exact Hadd. }
  split; [rewrite Hlen; unfold Py.range; rewrite length_seqZ; reflexivity |].
  split; [apply Hall, Forall_nil_2 |].
  split; [reflexivity |]. split; [reflexivity |]. split; [reflexivity |].
  split; [reflexivity |].
  unfold AudioManager.play_music in Eplay.
  destruct (path_exists files music); [| injection Eplay as <- <-; split;
                                          [reflexivity | discriminate]].
  destruct (music_loads files music); injection Eplay as <- <-.
  - split; [reflexivity |]. intros _. split; reflexivity.
  - split; [reflexivity | discriminate].
Qed.

Lemma canvas_init_peeps_witness :
  exists canvas mixer w',
    MultiPeepDesktopCanvas.init example_platform all_audio 1920 1080 [200] 3 1
      "./output/sprites.nfo" "./output/" (example_world [])
    = Py.Ok (canvas, mixer, w')
    /\ length (MultiPeepDesktopCanvas.peeps canvas) = 3%nat
    /\ music_busy mixer = true.
Proof.
  destruct (MultiPeepDesktopCanvas.init example_platform all_audio 1920 1080 [200] 3 1
              "./output/sprites.nfo" "./output/" (example_world []))
    as [[[canvas mixer] w'] | e] eqn:E.
  - destruct (canvas_init_peeps _ _ _ _ _ _ _ _ _ _ _ _ _ E)
      as (Hlen & _ & _ & _ & _ & _ & Hplay & Hcons).
    exists canvas, mixer, w'. split; [reflexivity |]. split; [exact Hlen |].
    destruct (Hcons Hplay) as (Hbusy & _). rewrite Hbusy. exact Hplay.
  - exfalso. revert E. vm_compute. discriminate.
Defined.

Lemma update_each_flags (W H : Z) (peeps : list DesktopPeep.t) :
  forall (peeps' : list DesktopPeep.t) (w w' : Py.World),
    MultiPeepDesktopCanvas.update_each W H peeps w = Py.Ok (peeps', w') ->
    DesktopPeep.use_fallback <$> peeps' = DesktopPeep.use_fallback <$> peeps.
Proof.
  induction peeps as [| p peeps IH]; intros peeps' w w' Hup;
    cbn [MultiPeepDesktopCanvas.update_each] in Hup.
  - unfold mret, Py_mret, Py.ret in Hup. injection Hup as <- _. reflexivity.
  - apply bind_ok in Hup as (p1 & w1 & Hp & Hup).
    apply bind_ok in Hup as (rest & w2 & Hrest & Hret).
    unfold mret, Py_mret, Py.ret in Hret. injection Hret as <- _.
    cbn. rewrite (update_keeps_representation _ _ _ _ _ _ Hp), (IH _ _ _ Hrest).
    reflexivity.
Qed.

(** Timer ticks never add, drop or reorder peeps and never change the
    representation of one: after any number of [update_peeps] calls that
    return, the list of [use_fallback] flags is the same, and so are the
    screen size, the audio manager and the control panel. *)
Theorem canvas_ticks_keep_peeps
    (n : nat) (canvas canvas' : MultiPeepDesktopCanvas.t) (w w' : Py.World) :
  canvas_ticks n canvas w = Py.Ok (canvas', w') ->
  DesktopPeep.use_fallback <$> MultiPeepDesktopCanvas.peeps canvas'
  = DesktopPeep.use_fallback <$> MultiPeepDesktopCanvas.peeps canvas
  /\ length (MultiPeepDesktopCanvas.peeps canvas')
     = length (MultiPeepDesktopCanvas.peeps canvas)
  /\ MultiPeepDesktopCanvas.screen_width canvas'
     = MultiPeepDesktopCanvas.screen_width canvas
  /\ MultiPeepDesktopCanvas.screen_height canvas'
     = MultiPeepDesktopCanvas.screen_height canvas
  /\ MultiPeepDesktopCanvas.audio_manager canvas'
     = MultiPeepDesktopCanvas.audio_manager canvas
  /\ MultiPeepDesktopCanvas.control_panel canvas'
     = MultiPeepDesktopCanvas.control_panel canvas.
Proof.
  revert canvas w. induction n as [| n IH]; intros canvas w Hticks;
    cbn [canvas_ticks] in Hticks.
  - unfold mret, Py_mret, Py.ret in Hticks. injection Hticks as <- _.
    repeat split.
  - apply bind_ok in Hticks as (c1 & w1 & Hup & Hticks).
    unfold MultiPeepDesktopCanvas.update_peeps in Hup.
    apply bind_ok in Hup as (peeps1 & w2 & Heach & Hret).
    unfold mret, Py_mret, Py.ret in Hret. injection Hret as <- _.
    destruct (IH _ _ Hticks) as (Hflags & Hlen & Hw & Hh & Ha & Hp).
    cbn [MultiPeepDesktopCanvas.peeps MultiPeepDesktopCanvas.screen_width
         MultiPeepDesktopCanvas.screen_height MultiPeepDesktopCanvas.audio_manager
         MultiPeepDesktopCanvas.control_panel] in *.
    pose proof (update_each_flags _ _ _ _ _ _ Heach) as Hf1.
    split; [congruence |].
    split; [| repeat split; assumption].
    rewrite Hlen. rewrite <- (length_fmap DesktopPeep.use_fallback peeps1), Hf1.
    apply length_fmap.
Qed.

Lemma canvas_ticks_keep_peeps_witness :
  exists canvas' w',
    canvas_ticks 5 fallback_canvas (example_world []) = Py.Ok (canvas', w')
    /\ DesktopPeep.use_fallback <$> MultiPeepDesktopCanvas.peeps canvas'
       = [true; true].
Proof.
  destruct (canvas_ticks 5 fallback_canvas (example_world []))
    as [[canvas' w'] | e] eqn:E.
  - exists canvas', w'. split; [reflexivity |].
    destruct (canvas_ticks_keep_peeps _ _ _ _ _ E) as (Hflags & _).
    rewrite Hflags. reflexivity.
  - exfalso. revert E. vm_compute. discriminate.
Defined.

Lemma get_current_frame_uniform (n : nat) (s : SpriteAnimator.t) :
  uniform_frames n s ->
  0 <= SpriteAnimator.current_frame_index s < Z.of_nat n ->
  exists frame, SpriteAnimator.get_current_frame s = Py.Ok frame.
Proof.
  intros Hu Hi.
  destruct (get_current_frame_spec s) as (Hempty & _ & Hin & _).
  destruct (SpriteAnimator.current_frames s) as [| f0 rest] eqn:Ef.
  - exists None. apply Hempty. reflexivity.
  - assert (Hlen : length (f0 :: rest) = n).
    { unfold SpriteAnimator.current_frames in Ef.
      destruct (SpriteAnimator.direction_frames s
                  !! SpriteAnimator.current_direction s) as [frames |] eqn:El;
        [| discriminate].
      cbn in Ef. subst frames.
      destruct (Hu _ _ El) as [Habs | Hl]; [discriminate | exact Hl]. }
    destruct (lookup_lt_is_Some_2 (f0 :: rest)
                (Z.to_nat (SpriteAnimator.current_frame_index s))
                ltac:(rewrite Hlen; lia)) as (f & Hf).
    exists (Some f). apply Hin; [lia | exact Hf].
Qed.

Lemma peep_update_safe (n : nat) (W H : Z) (p : DesktopPeep.t) (w : Py.World) :
  peep_safe n p ->
  exists p' w',
    DesktopPeep.update W H p w = Py.Ok (p', w') /\ peep_safe n p'.
Proof.
  intros Hsafe. destruct (DesktopPeep.use_fallback p) eqn:Hfb.
  - exists (DesktopPeep.update_fallback W H p), w.
    split; [apply update_fallback_eq, Hfb |]. left.
    pose proof (update_fallback_fields W H p) as F. cbn zeta in F.
    destruct F as (_ & _ & _ & _ & Hu & _). congruence.
  - destruct Hsafe as [Habs | (Hu & Hi)]; [congruence |].
    destruct (update_returns W H (DesktopPeep.animator p) w) as (a & w1 & Ea).
    destruct (update_index_in_range n W H _ _ _ _ Hu Hi Ea) as (Hu1 & Hi1).
    destruct (get_current_frame_uniform n a Hu1 Hi1) as (frame & Eg).
    unfold DesktopPeep.update. rewrite Hfb.
    unfold mbind at 1, Py_mbind at 1, Py.bind at 1. rewrite Ea.
    unfold mbind, Py_mbind, Py.bind, SpriteAnimator.lift. rewrite Eg.
    unfold mret, Py_mret, Py.ret. unfold SpriteAnimator.get_position.
    eexists _, _. split; [reflexivity |]. right.
    destruct frame; cbn; split; assumption.
Qed.

Lemma update_each_safe (n : nat) (W H : Z) (peeps : list DesktopPeep.t) :
  forall w : Py.World,
    Forall (peep_safe n) peeps ->
    exists peeps' w',
      MultiPeepDesktopCanvas.update_each W H peeps w = Py.Ok (peeps', w')
      /\ Forall (peep_safe n) peeps'.
Proof.
  induction peeps as [| p peeps IH]; intros w Hall.
  - exists [], w. split; [reflexivity | apply Forall_nil_2].
  - apply Forall_cons in Hall as (Hp & Hrest).
    destruct (peep_update_safe n W H p w Hp) as (p1 & w1 & Ep & Hp1).
    destruct (IH w1 Hrest) as (rest & w2 & Er & Hr).
    exists (p1 :: rest), w2. split.
    + cbn [MultiPeepDesktopCanvas.update_each].
      unfold mbind, Py_mbind, Py.bind, mret, Py_mret, Py.ret. rewrite Ep, Er.
      reflexivity.
    + apply Forall_cons. split; assumption.
Qed.

(** The timer never raises on a canvas each of whose peeps is a fallback
    peep or an animated peep with a complete sprite set (every direction
    that has frames has the same number of them, and the frame index is
    below that number): any number of [update_peeps] calls returns, and the
    peeps stay that way. *)
Theorem canvas_never_raises
    (n k : nat) (canvas : MultiPeepDesktopCanvas.t) (w : Py.World) :
  Forall (peep_safe n) (MultiPeepDesktopCanvas.peeps canvas) ->
  exists canvas' w',
    canvas_ticks k canvas w = Py.Ok (canvas', w')
    /\ Forall (peep_safe n) (MultiPeepDesktopCanvas.peeps canvas').
Proof.
  revert canvas w. induction k as [| k IH]; intros canvas w Hall.
  - exists canvas, w. split; [reflexivity | exact Hall].
  - destruct (update_each_safe n (MultiPeepDesktopCanvas.screen_width canvas)
                (MultiPeepDesktopCanvas.screen_height canvas)
                (MultiPeepDesktopCanvas.peeps canvas) w Hall)
      as (peeps1 & w1 & E1 & H1).
    set (c1 := MultiPeepDesktopCanvas.mk peeps1
                 (MultiPeepDesktopCanvas.scale_factor canvas)
                 (MultiPeepDesktopCanvas.audio_manager canvas)
                 (MultiPeepDesktopCanvas.screen_width canvas)
                 (MultiPeepDesktopCanvas.screen_height canvas)
                 (MultiPeepDesktopCanvas.timer_interval canvas)
                 (MultiPeepDesktopCanvas.control_panel canvas)
                 (MultiPeepDesktopCanvas.is_open canvas)).
    destruct (IH c1 w1 H1) as (canvas' & w' & E & Hsafe).
    exists canvas', w'. split; [| exact Hsafe].
    cbn [canvas_ticks]. unfold MultiPeepDesktopCanvas.update_peeps.
    unfold mbind, Py_mbind, Py.bind, mret, Py_mret, Py.ret. rewrite E1. exact E.
Qed.

Lemma canvas_never_raises_witness :
  exists canvas' w',
    canvas_ticks 100 mixed_canvas (snd walking_five_frames) = Py.Ok (canvas', w')
    /\ Forall (peep_safe 5) (MultiPeepDesktopCanvas.peeps canvas').
Proof.
  apply canvas_never_raises.
  apply Forall_cons. split; [left; reflexivity |].
  apply Forall_cons. split; [| apply Forall_nil_2].
  right. cbn [DesktopPeep.animator]. split.
  - intros d frames Hl.
    assert (Hd : d ∈ dom (SpriteAnimator.direction_frames (fst walking_five_frames)))
      by (apply elem_of_dom; eauto).
    assert (Hdom : dom (SpriteAnimator.direction_frames (fst walking_five_frames))
                   = {[0; 1; 2; 3]}) by (vm_compute; reflexivity).
    rewrite Hdom in Hd.
    rewrite !elem_of_union, !elem_of_singleton in Hd.
    destruct Hd as [[[-> | ->] | ->] | ->];
      right; vm_compute in Hl; injection Hl as <-; reflexivity.
  - vm_compute. split; [discriminate | reflexivity].
Defined.

(** Closing the application closes the canvas and the control panel and
    stops the music: the manager no longer says it plays, and when the
    player was consistent with the manager it is silent and still
    consistent. The peeps are kept as they are, and closing again changes
    nothing. *)
Theorem close_stops_music (canvas : MultiPeepDesktopCanvas.t) (mixer : Mixer) :
  let closed := close_app canvas mixer in
  MultiPeepDesktopCanvas.is_open (fst closed) = false
  /\ ControlPanel.is_open (MultiPeepDesktopCanvas.control_panel (fst closed)) = false
  /\ AudioManager.music_playing (MultiPeepDesktopCanvas.audio_manager (fst closed))
     = false
  /\ MultiPeepDesktopCanvas.peeps (fst closed) = MultiPeepDesktopCanvas.peeps canvas
  /\ (audio_consistent (MultiPeepDesktopCanvas.audio_manager canvas) mixer ->
      music_busy (snd closed) = false
      /\ audio_consistent (MultiPeepDesktopCanvas.audio_manager (fst closed))
           (snd closed))
  /\ close_app (fst closed) (snd closed) = closed.
Proof.
  unfold close_app, MultiPeepDesktopCanvas.closeEvent, AudioManager.stop_music.
  destruct (AudioManager.music_playing (MultiPeepDesktopCanvas.audio_manager canvas))
    eqn:Ep; cbn [fst snd].
  - cbn. repeat split; try reflexivity.
    destruct H as (_ & Hv). exact Hv.
  - cbn [MultiPeepDesktopCanvas.is_open MultiPeepDesktopCanvas.control_panel
         MultiPeepDesktopCanvas.audio_manager MultiPeepDesktopCanvas.peeps
         ControlPanel.is_open ControlPanel.close].
    rewrite Ep. cbn [fst snd].
    split; [reflexivity |]. split; [reflexivity |]. split; [reflexivity |].
    split; [reflexivity |]. split; [| reflexivity].
    intros (Hb & Hv). split; [congruence |]. split; assumption.
Qed.

Lemma close_stops_music_witness :
  let started :=
    AudioManager.play_music all_audio "music.mp3"
      (fst AudioManager.init) (snd AudioManager.init) in
  let canvas :=
    MultiPeepDesktopCanvas.mk [corner_peep] 1 (fst started) 640 480 16
      (ControlPanel.init 640 480) true in
  music_busy (snd started) = true
  /\ music_busy (snd (close_app canvas (snd started))) = false.
Proof.
  intros started canvas. split; [reflexivity |].
  destruct (close_stops_music canvas (snd started)) as (_ & _ & _ & _ & Hc & _).
  apply Hc. split; reflexivity.
Defined.
